(** * Clinical Summarizer Agent: job lifecycle and FHIR adapter

    A shallow embedding of [app/queue.py], [app/worker.py], [app/main.py],
    [app/models.py] and [app/fhir.py].  Redis is modelled as a finite map
    from keys to typed entries with an optional expiry instant; Python code
    that talks to Redis becomes a state-and-exception monad over a [world]
    which also records, after every Redis write command, the store a
    concurrent reader (the API process) could observe. *)

From Stdlib Require Import ZArith String Ascii List Bool Lia.
From stdpp Require Import base option strings gmap list fin_maps pretty.

Set Warnings "-register-all".
Local Open Scope string_scope.
Local Open Scope Z_scope.

(** ** Python values *)

(** The values that travel through [Dict[str, Any]] in the sources: JSON-like
    data plus [datetime], which [model_dump()] leaves as a Python object. *)
Inductive pyval : Type :=
| PNone
| PBool (b : bool)
| PInt (n : Z)
| PStr (s : string)
| PList (l : list pyval)
| PDict (d : list (string * pyval))
| PDatetime (t : Z).

(** Python truthiness ([if x:], [x or y], [not x]). *)
Definition truthy (v : pyval) : bool :=
  match v with
  | PNone => false
  | PBool b => b
  | PInt n => negb (n =? 0)
  | PStr s => negb (String.eqb s "")
  | PList l => match l with [] => false | _ => true end
  | PDict d => match d with [] => false | _ => true end
  | PDatetime _ => true
  end.

(** [d.get(k)]: an absent key and the value [None] are both falsy. *)
Definition truthy_opt (o : option pyval) : bool :=
  match o with Some v => truthy v | None => false end.

Definition str_truthy (s : string) : bool := negb (String.eqb s "").

(** What [json.dumps] accepts: everything but a [datetime] anywhere inside. *)
Fixpoint json_safe (v : pyval) : bool :=
  match v with
  | PDatetime _ => false
  | PList l => forallb json_safe l
  | PDict d => forallb (fun kv => json_safe (snd kv)) d
  | _ => true
  end.

(** [d.get(k)] and [d[k] = v] on a dict literal kept in insertion order. *)
Fixpoint dict_get (k : string) (d : list (string * pyval)) : option pyval :=
  match d with
  | [] => None
  | (k', v) :: d' => if String.eqb k k' then Some v else dict_get k d'
  end.

Fixpoint dict_set (k : string) (v : pyval) (d : list (string * pyval))
  : list (string * pyval) :=
  match d with
  | [] => [(k, v)]
  | (k', v') :: d' =>
      if String.eqb k k' then (k', v) :: d' else (k', v') :: dict_set k v d'
  end.

(** ** Exceptions *)

Inductive exn : Type :=
| PyError (cls msg : string)                    (* an [Exception] with [str(e) = msg] *)
| HTTPException (status_code : Z) (detail : string).

Definition str_exn (e : exn) : string :=
  match e with
  | PyError _ msg => msg
  | HTTPException c d => pretty c +:+ ": " +:+ d
  end.

Definition ValueError (msg : string) : exn := PyError "ValueError" msg.
Definition TypeError (msg : string) : exn := PyError "TypeError" msg.
Definition ResponseError (msg : string) : exn := PyError "ResponseError" msg.

Inductive res (A : Type) : Type :=
| Ok (a : A)
| Raise (e : exn).
Arguments Ok {A} a.
Arguments Raise {A} e.

(** ** [app/models.py] *)

Module Models.

Inductive JobStatus : Type := PENDING | PROCESSING | COMPLETED | FAILED.

Definition JobStatus_value (s : JobStatus) : string :=
  match s with
  | PENDING => "pending"
  | PROCESSING => "processing"
  | COMPLETED => "completed"
  | FAILED => "failed"
  end.

(** [JobStatus(value)]: [None] stands for the [ValueError] of the enum. *)
Definition JobStatus_of_value (v : string) : option JobStatus :=
  if String.eqb v "pending" then Some PENDING
  else if String.eqb v "processing" then Some PROCESSING
  else if String.eqb v "completed" then Some COMPLETED
  else if String.eqb v "failed" then Some FAILED
  else None.

Record Symptom : Type := mkSymptom {
  name : string;
  duration : option string;
  severity : option string;
  description : option string;
}.

Record ClinicalSummary : Type := mkClinicalSummary {
  patient_age : option Z;
  patient_gender : option string;
  symptoms : list Symptom;
  risk_factors : list string;
  relevant_conditions : list string;
  narrative_summary : string;
  created_at : Z;
}.

Record JobResponse : Type := mkJobResponse {
  jr_job_id : string;
  jr_status : JobStatus;
  jr_message : string;
}.

Record ResultResponse : Type := mkResultResponse {
  rr_job_id : string;
  rr_status : JobStatus;
  rr_clinical_summary : option ClinicalSummary;
  rr_error : option string;
  rr_created_at : option Z;
  rr_completed_at : option Z;
}.

Definition opt_str (o : option string) : pyval :=
  match o with Some s => PStr s | None => PNone end.
Definition opt_int (o : option Z) : pyval :=
  match o with Some n => PInt n | None => PNone end.

Definition Symptom_model_dump (s : Symptom) : pyval :=
  PDict [("name", PStr (name s));
         ("duration", opt_str (duration s));
         ("severity", opt_str (severity s));
         ("description", opt_str (description s))].

(** [model_dump()] in its default Python mode: [created_at] stays a
    [datetime] object. *)
Definition model_dump (c : ClinicalSummary) : pyval :=
  PDict [("patient_age", opt_int (patient_age c));
         ("patient_gender", opt_str (patient_gender c));
         ("symptoms", PList (map Symptom_model_dump (symptoms c)));
         ("risk_factors", PList (map PStr (risk_factors c)));
         ("relevant_conditions", PList (map PStr (relevant_conditions c)));
         ("narrative_summary", PStr (narrative_summary c));
         ("created_at", PDatetime (created_at c))].

End Models.
Export Models.

(** ** Library functions taken as parameters

    [uuid4 n] is the n-th identifier the generator hands out, [isoformat t]
    the text of [datetime.isoformat()] at instant [t] (seconds),
    [format_exc e] the text of [traceback.format_exc()] while [e] is being
    handled, [parse_datetime] pydantic's validation of a [datetime] field
    given as text, and [validate_summary d] pydantic's validation of a
    [ClinicalSummary] built from the keywords in [d].  [None] stands for a
    [ValidationError]. *)
Class Runtime := {
  uuid4 : nat → string;
  isoformat : Z → string;
  format_exc : exn → string;
  parse_datetime : string → option Z;
  validate_summary : pyval → option ClinicalSummary;
}.

(** ** Redis *)

Module Redis.

(** A string key holds a JSON document; the model identifies the text
    [json.dumps v] with [v] itself, so that [json.loads] is the identity. *)
Inductive rvalue : Type :=
| RString (doc : pyval)
| RHash (h : gmap string string).

Record entry : Type := Entry { value : rvalue; expire_at : option Z }.

Definition live (now : Z) (e : entry) : bool :=
  match expire_at e with
  | None => true
  | Some t => now <? t
  end.

(** A key is visible only while it has not expired. *)
Definition lookup_live (now : Z) (db : gmap string entry) (key : string)
  : option entry :=
  match db !! key with
  | Some e => if live now e then Some e else None
  | None => None
  end.

Definition WRONGTYPE : exn :=
  ResponseError "WRONGTYPE Operation against a key holding the wrong kind of value".

End Redis.
Export Redis.

(** ** The world and its monad *)

(** An RQ task: the function name, its argument and [job_timeout]. *)
Record rq_task : Type := RqTask { rq_func : string; rq_arg : string; rq_timeout : Z }.

Record world : Type := World {
  redis : gmap string entry;       (* [redis_client]'s database *)
  clock : Z;                       (* seconds *)
  rq : list rq_task;               (* [job_queue], oldest first *)
  uuid_draws : nat;                (* identifiers generated so far *)
  clinical_agent : bool;           (* the worker's global: agent loaded? *)
  trace : list (Z * gmap string entry);
    (* the store after each Redis write so far, newest first *)
}.

Definition M (A : Type) : Type := world → res A * world.

Definition ret {A} (a : A) : M A := fun w => (Ok a, w).
Definition raise {A} (e : exn) : M A := fun w => (Raise e, w).
Definition bind {A B} (m : M A) (k : A → M B) : M B :=
  fun w => match m w with
           | (Ok a, w') => k a w'
           | (Raise e, w') => (Raise e, w')
           end.
(** [try: m  except Exception as e: h e] *)
Definition try_except {A} (m : M A) (h : exn → M A) : M A :=
  fun w => match m w with
           | (Ok a, w') => (Ok a, w')
           | (Raise e, w') => h e w'
           end.

Notation "'let*' x := m 'in' k" := (bind m (fun x => k))
  (at level 10, x name, m at level 100, k at level 200, only parsing).
Notation "m >> k" := (bind m (fun _ => k))
  (at level 100, k at level 200, right associativity, only parsing).

Definition now : M Z := fun w => (Ok (clock w), w).

Definition set_redis (db : gmap string entry) (w : world) : world :=
  World db (clock w) (rq w) (uuid_draws w) (clinical_agent w)
        ((clock w, db) :: trace w).

(** Time passes between requests and while a collaborator runs; the Redis
    commands of one Python function are taken to run at one instant. *)
Definition advance (dt : N) (w : world) : world :=
  World (redis w) (clock w + Z.of_N dt) (rq w) (uuid_draws w)
        (clinical_agent w) (trace w).

Definition timedelta_hours (h : Z) : Z := h * 3600.

Module Cmd.

Definition write (db : gmap string entry) : M unit :=
  fun w => (Ok tt, set_redis db w).

(** [HSET key field value]: creates the hash (without expiry) when the
    key is absent or expired, keeps the expiry of a live hash. *)
Definition hset (key field v : string) : M unit :=
  fun w =>
    match lookup_live (clock w) (redis w) key with
    | None => write (<[key := Entry (RHash {[field := v]}) None]> (redis w)) w
    | Some (Entry (RHash h) ttl) =>
        write (<[key := Entry (RHash (<[field := v]> h)) ttl]> (redis w)) w
    | Some (Entry (RString _) _) => raise WRONGTYPE w
    end.

(** [HSET key f1 v1 f2 v2 ...] from [hset(key, mapping=...)]. *)
Definition hset_mapping (key : string) (mapping : gmap string string) : M unit :=
  fun w =>
    match lookup_live (clock w) (redis w) key with
    | None => write (<[key := Entry (RHash mapping) None]> (redis w)) w
    | Some (Entry (RHash h) ttl) =>
        write (<[key := Entry (RHash (mapping ∪ h)) ttl]> (redis w)) w
    | Some (Entry (RString _) _) => raise WRONGTYPE w
    end.

(** [EXPIRE key seconds]: no effect on a missing key. *)
Definition expire (key : string) (seconds : Z) : M unit :=
  fun w =>
    match lookup_live (clock w) (redis w) key with
    | None => ret tt w
    | Some (Entry v _) =>
        write (<[key := Entry v (Some (clock w + seconds))]> (redis w)) w
    end.

(** [SETEX key seconds value]: overwrites whatever the key held. *)
Definition setex (key : string) (seconds : Z) (doc : pyval) : M unit :=
  fun w =>
    write (<[key := Entry (RString doc) (Some (clock w + seconds))]> (redis w)) w.

Definition exists_ (key : string) : M bool :=
  fun w => ret (bool_decide (is_Some (lookup_live (clock w) (redis w) key))) w.

Definition hgetall (key : string) : M (gmap string string) :=
  fun w =>
    match lookup_live (clock w) (redis w) key with
    | None => ret ∅ w
    | Some (Entry (RHash h) _) => ret h w
    | Some (Entry (RString _) _) => raise WRONGTYPE w
    end.

Definition get (key : string) : M (option pyval) :=
  fun w =>
    match lookup_live (clock w) (redis w) key with
    | None => ret None w
    | Some (Entry (RString doc) _) => ret (Some doc) w
    | Some (Entry (RHash _) _) => raise WRONGTYPE w
    end.

End Cmd.

(** ** [app/queue.py] *)

(** The [job_data] dictionary as [submit_job] fills it: a key is present
    exactly when its field is [Some]. *)
Record job_input : Type := JobInput {
  jd_text : option string;
  jd_audio_filename : option string;
  jd_audio_size : option nat;
  jd_audio_url : option string;
}.

(** [job_data.get(k)] or the empty string *)
Definition or_empty (o : option string) : string := default "" o.

Definition job_key (job_id : string) : string := "job:" +:+ job_id.
Definition result_key (job_id : string) : string := "result:" +:+ job_id.

Definition draw_uuid4 `{Runtime} : M string :=
  fun w => (Ok (uuid4 (uuid_draws w)),
            World (redis w) (clock w) (rq w) (S (uuid_draws w))
                  (clinical_agent w) (trace w)).

(** [job_queue.enqueue(f, arg, job_timeout=t)] *)
Definition rq_enqueue (f arg : string) (t : Z) : M unit :=
  fun w => (Ok tt,
            World (redis w) (clock w) (rq w ++ [RqTask f arg t]) (uuid_draws w)
                  (clinical_agent w) (trace w)).

Definition json_dumps (v : pyval) : M pyval :=
  if json_safe v then ret v
  else raise (TypeError "Object of type datetime is not JSON serializable").

Definition json_loads (doc : pyval) : pyval := doc.

(** [d.get(k) == s] for a string literal [s] *)
Definition get_eq_str (o : option pyval) (s : string) : bool :=
  match o with
  | Some (PStr s') => String.eqb s' s
  | _ => false
  end.

Section Queue.
Context `{Runtime}.

Definition enqueue_job (job_data : job_input) : M string :=
  let* job_id := draw_uuid4 in
  let* created := now in
  let job_metadata : gmap string string :=
    {[ "job_id" := job_id;
       "status" := "pending";
       "created_at" := isoformat created;
       "text" := or_empty (jd_text job_data);
       "audio_filename" := or_empty (jd_audio_filename job_data);
       "audio_url" := or_empty (jd_audio_url job_data) ]} in
  Cmd.hset_mapping (job_key job_id) job_metadata >>
  Cmd.expire (job_key job_id) (timedelta_hours 24) >>
  rq_enqueue "app.worker.process_clinical_job" job_id 300 >>
  ret job_id.

Definition get_job_status (job_id : string) : M (option (gmap string pyval)) :=
  let* found := Cmd.exists_ (job_key job_id) in
  if negb found then ret None
  else
    let* fields := Cmd.hgetall (job_key job_id) in
    let job_data : gmap string pyval := PStr <$> fields in
    if get_eq_str (job_data !! "status") "completed" then
      let* result_data := Cmd.get (result_key job_id) in
      match result_data with
      | Some doc =>
          ret (Some (<["clinical_summary" := json_loads doc]> job_data))
      | None => ret (Some job_data)
      end
    else ret (Some job_data).

Definition update_job_status (job_id status : string)
    (result : option pyval) (error : option string) : M unit :=
  Cmd.hset (job_key job_id) "status" status >>
  (if truthy_opt result then
     let* doc := json_dumps (default PNone result) in
     Cmd.setex (result_key job_id) (timedelta_hours 24) doc >>
     let* t := now in
     Cmd.hset (job_key job_id) "completed_at" (isoformat t)
   else ret tt) >>
  (if str_truthy (or_empty error) then
     Cmd.hset (job_key job_id) "error" (or_empty error) >>
     let* t := now in
     Cmd.hset (job_key job_id) "completed_at" (isoformat t)
   else ret tt).

End Queue.

(** ** [app/worker.py] *)

(** A collaborator call takes time and either returns or raises. *)
Record reply (A : Type) : Type := Reply { elapsed : N; outcome : res A }.
Arguments Reply {A} elapsed outcome.
Arguments elapsed {A} r.
Arguments outcome {A} r.

Definition call {A} (r : reply A) : M A :=
  fun w => (outcome r, advance (elapsed r) w).

(** The agent the worker drives.  [construct] is [ClinicalAgent()] (model
    loading, which raises when the API key is missing); the object that
    [process_clinical_text] returns is represented by what its
    [model_dump()] yields. *)
Record ClinicalAgent : Type := mkAgent {
  construct : reply unit;
  transcribe_audio : pyval → reply string;
  process_clinical_text : pyval → reply pyval;
}.

Definition set_clinical_agent (b : bool) : M unit :=
  fun w => (Ok tt, World (redis w) (clock w) (rq w) (uuid_draws w) b (trace w)).

Definition initialize_agent (agent : ClinicalAgent) : M unit :=
  fun w =>
    if clinical_agent w then ret tt w
    else (call (construct agent) >> set_clinical_agent true) w.

(** [not job_data] for an [Optional[dict]] *)
Definition dict_falsy {V} (o : option (gmap string V)) : bool :=
  match o with
  | None => true
  | Some d => bool_decide (d = ∅ :> gmap string V)
  end.

Section Worker.
Context `{Runtime}.
Variable agent : ClinicalAgent.

Definition error_message (e : exn) : string :=
  "Error procesando trabajo: " +:+ str_exn e +:+ "
" +:+ format_exc e.

Definition process_clinical_job (job_id : string) : M pyval :=
  try_except
    (let* job_data := get_job_status job_id in
     if dict_falsy job_data then
       raise (ValueError ("Trabajo " +:+ job_id +:+ " no encontrado"))
     else
       let job_data := default ∅ job_data in
       update_job_status job_id "processing" None None >>
       initialize_agent agent >>
       let text := job_data !! "text" in
       let audio_filename := job_data !! "audio_filename" in
       let* text :=
         (if truthy_opt audio_filename && negb (truthy_opt text) then
            let* t := call (transcribe_audio agent (default PNone audio_filename)) in
            ret (Some (PStr t))
          else ret text) in
       if negb (truthy_opt text) then
         raise (ValueError "No se proporcionó texto ni audio válido")
       else
         let* result_dict :=
           call (process_clinical_text agent (default PNone text)) in
         update_job_status job_id "completed" (Some result_dict) None >>
         ret result_dict)
    (fun e =>
       update_job_status job_id "failed" None (Some (error_message e)) >>
       raise e).

End Worker.

(** ** [app/main.py] *)

Record UploadFile : Type := mkUploadFile {
  filename : option string;
  content : list Byte.byte;
}.

Definition opt_truthy (o : option string) : bool := str_truthy (or_empty o).

(** pydantic validation of an [Optional[datetime]] and an [Optional[str]]
    field; the outer [None] is a [ValidationError]. *)
Definition validate_opt_datetime `{Runtime} (o : option pyval) : option (option Z) :=
  match o with
  | None | Some PNone => Some None
  | Some (PStr s) => Some <$> parse_datetime s
  | Some (PDatetime t) => Some (Some t)
  | Some _ => None
  end.

Definition validate_opt_str (o : option pyval) : option (option string) :=
  match o with
  | None | Some PNone => Some None
  | Some (PStr s) => Some (Some s)
  | Some _ => None
  end.

Definition ValidationError : exn := PyError "ValidationError" "validation error".

Definition of_option {A} (o : option A) (e : exn) : M A :=
  match o with Some a => ret a | None => raise e end.

Section Main.
Context `{Runtime}.

Definition submit_job (text : option string) (audio_file : option UploadFile)
  : M JobResponse :=
  if negb (opt_truthy text) && negb (bool_decide (is_Some audio_file)) then
    raise (HTTPException 400 "Debe proporcionar texto o archivo de audio")
  else
    let job_data :=
      JobInput (if opt_truthy text then text else None)
               (match audio_file with Some f => filename f | None => None end)
               (match audio_file with
                | Some f => Some (length (content f))
                | None => None
                end)
               None in
    try_except
      (let* job_id := enqueue_job job_data in
       ret (mkJobResponse job_id PENDING
              "Trabajo encolado exitosamente. Use /result/{job_id} para consultar el resultado."))
      (fun e =>
         raise (HTTPException 500 ("Error al encolar trabajo: " +:+ str_exn e))).

Definition get_result (job_id : string) : M ResultResponse :=
  try_except
    (let* job_data := get_job_status job_id in
     if dict_falsy job_data then
       raise (HTTPException 404 ("Trabajo " +:+ job_id +:+ " no encontrado"))
     else
       let job_data := default ∅ job_data in
       let* status :=
         match default (PStr "pending") (job_data !! "status") with
         | PStr v =>
             of_option (JobStatus_of_value v)
               (ValueError (v +:+ " is not a valid JobStatus"))
         | _ => raise (ValueError "not a valid JobStatus")
         end in
       let* created := of_option (validate_opt_datetime (job_data !! "created_at"))
                                 ValidationError in
       let* completed := of_option (validate_opt_datetime (job_data !! "completed_at"))
                                   ValidationError in
       let* error := of_option (validate_opt_str (job_data !! "error"))
                               ValidationError in
       let response := mkResultResponse job_id status None error created completed in
       match status, job_data !! "clinical_summary" with
       | COMPLETED, Some d =>
           let* summary := of_option (validate_summary d) ValidationError in
           ret (mkResultResponse job_id status (Some summary) error created completed)
       | _, _ => ret response
       end)
    (fun e =>
       match e with
       | HTTPException _ _ => raise e
       | _ => raise (HTTPException 500
                       ("Error al consultar trabajo: " +:+ str_exn e))
       end).

End Main.

(** ** What a reader observes *)

(** The fields of the job hash, as [HGETALL job:id] shows them at instant [t]. *)
Definition job_hash (t : Z) (db : gmap string entry) (job_id : string)
  : option (gmap string string) :=
  match lookup_live t db (job_key job_id) with
  | Some (Entry (RHash h) _) => Some h
  | _ => None
  end.

Definition job_field (t : Z) (db : gmap string entry) (job_id f : string)
  : option string :=
  match job_hash t db job_id with
  | Some h => h !! f
  | None => None
  end.

(** The result document, as [GET result:id] shows it at instant [t]. *)
Definition result_at (t : Z) (db : gmap string entry) (job_id : string)
  : option pyval :=
  match lookup_live t db (result_key job_id) with
  | Some (Entry (RString doc) _) => Some doc
  | _ => None
  end.

(** The expiry instant attached to a key, if the key is stored at all. *)
Definition expiry_of (db : gmap string entry) (key : string) : option (option Z) :=
  expire_at <$> db !! key.

(** The key is free or holds a hash: [HSET] on it cannot fail. *)
Definition hash_slot (t : Z) (db : gmap string entry) (key : string) : Prop :=
  match lookup_live t db key with
  | Some (Entry (RString _) _) => False
  | _ => True
  end.

(** The stores written while [m] runs from [w], oldest first. *)
Definition observed {A} (m : M A) (w : world) : list (Z * gmap string entry) :=
  rev (trace (snd (m (World (redis w) (clock w) (rq w) (uuid_draws w)
                            (clinical_agent w) [])))).



(** ** [app/fhir.py] *)

Module Fhir.

(** Pure code that may raise. *)
Definition rbind {A B} (m : res A) (k : A → res B) : res B :=
  match m with
  | Ok a => k a
  | Raise e => Raise e
  end.

Notation "'try*' x := m 'in' k" := (rbind m (fun x => k))
  (at level 10, x name, m at level 100, k at level 200, only parsing).

Definition AttributeError (msg : string) : exn := PyError "AttributeError" msg.

(** [v.get(k, dflt)]; only a dict has [get]. *)
Definition py_get (k : string) (dflt : pyval) (v : pyval) : res pyval :=
  match v with
  | PDict d => Ok (default dflt (dict_get k d))
  | _ => Raise (AttributeError "object has no attribute 'get'")
  end.

(** [for x in v] *)
Definition py_iter (v : pyval) : res (list pyval) :=
  match v with
  | PList l => Ok l
  | PDict d => Ok (map (fun kv => PStr (fst kv)) d)
  | PStr s => Ok (map (fun c => PStr (String c EmptyString)) (list_ascii_of_string s))
  | _ => Raise (TypeError "object is not iterable")
  end.

Definition is_str (s : string) (v : pyval) : bool :=
  match v with
  | PStr s' => String.eqb s' s
  | _ => false
  end.

Fixpoint substring_of (p s : string) : bool :=
  String.prefix p s
  || match s with
     | EmptyString => false
     | String _ s' => substring_of p s'
     end.

(** [p in v] for a string literal [p] *)
Definition py_contains (p : string) (v : pyval) : res bool :=
  match v with
  | PStr s => Ok (substring_of p s)
  | PList l => Ok (existsb (is_str p) l)
  | PDict d => Ok (existsb (fun kv => String.eqb (fst kv) p) d)
  | _ => Raise (TypeError "argument is not iterable")
  end.

(** Two library functions the module relies on, kept as parameters:
    [str.lower()], which lower-cases Unicode text, and the coercion that
    pydantic's lax mode applies to a value given for an [int] field when
    it is neither [None] nor an [int] (a numeric text, a [bool]); [None]
    stands for a value pydantic refuses. *)
Class Library : Type := {
  lower : string → string;
  lax_int : pyval → option Z;
}.

Definition gender_map : list (string * string) :=
  [("masculino", "male"); ("femenino", "female"); ("m", "male"); ("f", "female")].

Fixpoint assoc_get (k : string) (m : list (string * string)) : option string :=
  match m with
  | [] => None
  | (k', v) :: m' => if String.eqb k k' then Some v else assoc_get k m'
  end.

Definition int_truthy (o : option Z) : bool :=
  match o with Some n => negb (n =? 0) | None => false end.

Definition subject : pyval := PDict [("reference", PStr "Patient/patient-1")].

Definition patient_resource `{Library} (c : ClinicalSummary) : pyval :=
  let resource := [("resourceType", PStr "Patient"); ("id", PStr "patient-1")] in
  let resource :=
    if int_truthy (patient_age c) then
      dict_set "extension"
        (PList [PDict [("url", PStr "http://example.org/fhir/StructureDefinition/age");
                       ("valueInteger", opt_int (patient_age c))]])
        resource
    else resource in
  let resource :=
    if opt_truthy (patient_gender c) then
      let g := lower (or_empty (patient_gender c)) in
      dict_set "gender" (PStr (default g (assoc_get g gender_map))) resource
    else resource in
  PDict [("resource", PDict resource)].

Definition condition_resource (idx : nat) (condition : string) : pyval :=
  PDict [("resource",
          PDict [("resourceType", PStr "Condition");
                 ("id", PStr ("condition-" +:+ pretty (idx + 1)%nat));
                 ("code", PDict [("text", PStr condition)]);
                 ("subject", subject);
                 ("clinicalStatus",
                  PDict [("coding",
                          PList [PDict [("system", PStr "http://terminology.hl7.org/CodeSystem/condition-clinical");
                                        ("code", PStr "active");
                                        ("display", PStr "Active")]])])])].

Definition duration_extension (d : string) : pyval :=
  PDict [("url", PStr "http://example.org/fhir/StructureDefinition/duration");
         ("valueString", PStr d)].

Definition severity_extension (s : string) : pyval :=
  PDict [("url", PStr "http://example.org/fhir/StructureDefinition/severity");
         ("valueString", PStr s)].

Definition observation_resource (idx : nat) (symptom : Symptom) : pyval :=
  let resource :=
    [("resourceType", PStr "Observation");
     ("id", PStr ("observation-" +:+ pretty (idx + 1)%nat));
     ("status", PStr "final");
     ("code", PDict [("text", PStr (name symptom))]);
     ("subject", subject);
     ("valueString",
      PStr (if opt_truthy (description symptom)
            then or_empty (description symptom) else name symptom))] in
  let resource :=
    if opt_truthy (duration symptom) then
      dict_set "extension"
        (PList [duration_extension (or_empty (duration symptom))]) resource
    else resource in
  let resource :=
    if opt_truthy (severity symptom) then
      let extension :=
        match default (PList []) (dict_get "extension" resource) with
        | PList l => l
        | _ => []
        end in
      dict_set "extension"
        (PList (extension ++ [severity_extension (or_empty (severity symptom))])%list)
        resource
    else resource in
  PDict [("resource", PDict resource)].

Definition clinical_impression (c : ClinicalSummary) : pyval :=
  PDict [("resource",
          PDict [("resourceType", PStr "ClinicalImpression");
                 ("id", PStr "impression-1");
                 ("status", PStr "completed");
                 ("subject", subject);
                 ("summary", PStr (narrative_summary c));
                 ("finding",
                  PList (map (fun idx =>
                                PDict [("itemReference",
                                        PDict [("reference",
                                                PStr ("Observation/observation-"
                                                      +:+ pretty (idx + 1)%nat))])])
                             (seq 0 (length (symptoms c)))))])].

(** The entries in the order the function appends them. *)
Definition bundle_entries `{Library} (c : ClinicalSummary) : list pyval :=
  ((if int_truthy (patient_age c) || opt_truthy (patient_gender c)
    then [patient_resource c] else [])
   ++ imap condition_resource (relevant_conditions c)
   ++ imap observation_resource (symptoms c)
   ++ [clinical_impression c])%list.

Definition clinical_summary_to_fhir `{Library} (c : ClinicalSummary) : pyval :=
  PDict [("resourceType", PStr "Bundle");
         ("type", PStr "collection");
         ("entry", PList (bundle_entries c))].

(** *** Back from a bundle *)

(** [entry.get("resource", {})] and its [resourceType] *)
Definition resource_of (entry : pyval) : res (pyval * pyval) :=
  try* resource := py_get "resource" (PDict []) entry in
  try* rtype := py_get "resourceType" PNone resource in
  Ok (resource, rtype).

(** The first entry whose resource is a [Patient]. *)
Fixpoint find_patient (entries : list pyval) : res (option pyval) :=
  match entries with
  | [] => Ok None
  | entry :: rest =>
      try* r := resource_of entry in
      if is_str "Patient" r.2 then Ok (Some r.1) else find_patient rest
  end.

(** The loop over the patient's extensions: the last age wins. *)
Fixpoint scan_age (exts : list pyval) (age : pyval) : res pyval :=
  match exts with
  | [] => Ok age
  | ext :: rest =>
      try* url := py_get "url" (PStr "") ext in
      try* hit := py_contains "age" url in
      if hit then
        try* v := py_get "valueInteger" PNone ext in
        scan_age rest v
      else scan_age rest age
  end.

(** The loop over an observation's extensions. *)
Fixpoint scan_extensions (exts : list pyval) (duration severity : pyval)
  : res (pyval * pyval) :=
  match exts with
  | [] => Ok (duration, severity)
  | ext :: rest =>
      try* url := py_get "url" (PStr "") ext in
      try* is_duration := py_contains "duration" url in
      if is_duration then
        try* v := py_get "valueString" PNone ext in
        scan_extensions rest v severity
      else
        try* is_severity := py_contains "severity" url in
        if is_severity then
          try* v := py_get "valueString" PNone ext in
          scan_extensions rest duration v
        else scan_extensions rest duration severity
  end.

(** pydantic validation of the fields.  For a [str] field only a string
    passes (of the values a [pyval] can be); for an [int] field an [int]
    passes and any other value goes through the lax coercion. *)
Definition validate_str (v : pyval) : res string :=
  match v with PStr s => Ok s | _ => Raise ValidationError end.

Definition validate_optional_str (v : pyval) : res (option string) :=
  match v with
  | PNone => Ok None
  | PStr s => Ok (Some s)
  | _ => Raise ValidationError
  end.

Definition validate_optional_int `{Library} (v : pyval) : res (option Z) :=
  match v with
  | PNone => Ok None
  | PInt n => Ok (Some n)
  | _ =>
      match lax_int v with
      | Some n => Ok (Some n)
      | None => Raise ValidationError
      end
  end.

Fixpoint collect_symptoms (entries : list pyval) : res (list Symptom) :=
  match entries with
  | [] => Ok []
  | entry :: rest =>
      try* r := resource_of entry in
      if is_str "Observation" r.2 then
        try* code := py_get "code" (PDict []) r.1 in
        try* symptom_name := py_get "text" (PStr "") code in
        try* extension := py_get "extension" (PList []) r.1 in
        try* exts := py_iter extension in
        try* ds := scan_extensions exts PNone PNone in
        try* value := py_get "valueString" PNone r.1 in
        try* n := validate_str symptom_name in
        try* d := validate_optional_str ds.1 in
        try* s := validate_optional_str ds.2 in
        try* descr := validate_optional_str value in
        try* symptoms := collect_symptoms rest in
        Ok (mkSymptom n d s descr :: symptoms)
      else collect_symptoms rest
  end.

Fixpoint collect_conditions (entries : list pyval) : res (list pyval) :=
  match entries with
  | [] => Ok []
  | entry :: rest =>
      try* r := resource_of entry in
      if is_str "Condition" r.2 then
        try* code := py_get "code" (PDict []) r.1 in
        try* condition_text := py_get "text" (PStr "") code in
        try* conditions := collect_conditions rest in
        Ok (if truthy condition_text then condition_text :: conditions
            else conditions)
      else collect_conditions rest
  end.

(** The summary of the first [ClinicalImpression], else the empty string. *)
Fixpoint find_narrative (entries : list pyval) : res pyval :=
  match entries with
  | [] => Ok (PStr "")
  | entry :: rest =>
      try* r := resource_of entry in
      if is_str "ClinicalImpression" r.2 then py_get "summary" (PStr "") r.1
      else find_narrative rest
  end.

Fixpoint validate_str_list (l : list pyval) : res (list string) :=
  match l with
  | [] => Ok []
  | v :: rest =>
      try* s := validate_str v in
      try* ss := validate_str_list rest in
      Ok (s :: ss)
  end.

(** Lines 170 to 183: the patient's age and gender, [None] when absent. *)
Definition read_patient (entries : list pyval) : res (pyval * pyval) :=
  try* patient := find_patient entries in
  match patient with
  | Some p =>
      if truthy p then
        try* extension := py_get "extension" (PList []) p in
        try* exts := py_iter extension in
        try* age := scan_age exts PNone in
        try* gender := py_get "gender" PNone p in
        Ok (age, gender)
      else Ok (PNone, PNone)
  | None => Ok (PNone, PNone)
  end.

(** [now] feeds the [default_factory] of [created_at]. *)
Definition fhir_to_clinical_summary `{Library} (fhir_bundle : pyval) (now : Z)
  : res ClinicalSummary :=
  try* entry := py_get "entry" (PList []) fhir_bundle in
  try* entries := py_iter entry in
  try* pat := read_patient entries in
  try* symptoms := collect_symptoms entries in
  try* relevant_conditions := collect_conditions entries in
  try* narrative := find_narrative entries in
  try* age := validate_optional_int pat.1 in
  try* gender := validate_optional_str pat.2 in
  try* conditions := validate_str_list relevant_conditions in
  try* summary := validate_str narrative in
  Ok (mkClinicalSummary age gender symptoms [] conditions summary now).

End Fhir.
Export Fhir.

(** ** Store transformers behind the write commands *)

Definition slot_hash (o : option entry) : gmap string string :=
  match o with
  | Some (Entry (RHash h) _) => h
  | _ => ∅
  end.

Definition slot_ttl (o : option entry) : option Z :=
  match o with
  | Some (Entry (RHash _) ttl) => ttl
  | _ => None
  end.

(** The store after a successful [HSET k f v] at instant [t]. *)
Definition db_hset (t : Z) (k f v : string) (db : gmap string entry)
  : gmap string entry :=
  <[k := Entry (RHash (<[f := v]> (slot_hash (lookup_live t db k))))
               (slot_ttl (lookup_live t db k))]> db.

(** The store after [SETEX k seconds doc] at instant [t]. *)
Definition db_setex (t : Z) (k : string) (seconds : Z) (doc : pyval)
    (db : gmap string entry) : gmap string entry :=
  <[k := Entry (RString doc) (Some (t + seconds))]> db.

(** The metadata [enqueue_job] writes for [job_id] at instant [t]. *)
Definition job_metadata `{Runtime} (job_id : string) (t : Z) (job_data : job_input)
  : gmap string string :=
  {[ "job_id" := job_id;
     "status" := "pending";
     "created_at" := isoformat t;
     "text" := or_empty (jd_text job_data);
     "audio_filename" := or_empty (jd_audio_filename job_data);
     "audio_url" := or_empty (jd_audio_url job_data) ]}.

(** The job entry after [HSET key mapping] followed by [EXPIRE key 24h]. *)
Definition enqueued_entry (t : Z) (mapping : gmap string string)
    (o : option entry) (ttl : option Z) : entry :=
  Entry (RHash (mapping ∪ slot_hash o)) ttl.

(** Lines 78 to 100 of [process_clinical_job] taken together: load the agent,
    resolve the payload to text, run the inference.  These steps read the
    job data fetched earlier and never touch Redis.  Lemma
    [process_clinical_job_run] shows where they sit in the function. *)
Definition resolve_and_infer (agent : ClinicalAgent) (job_data : gmap string pyval)
  : M pyval :=
  initialize_agent agent >>
  let text := job_data !! "text" in
  let audio_filename := job_data !! "audio_filename" in
  let* text :=
    (if truthy_opt audio_filename && negb (truthy_opt text) then
       let* t := call (transcribe_audio agent (default PNone audio_filename)) in
       ret (Some (PStr t))
     else ret text) in
  if negb (truthy_opt text) then
    raise (ValueError "No se proporcionó texto ni audio válido")
  else call (process_clinical_text agent (default PNone text)).

(** The [except] block of [process_clinical_job]. *)
Definition record_failure `{Runtime} (job_id : string) (e : exn) : M pyval :=
  update_job_status job_id "failed" None (Some (error_message e)) >> raise e.

(** The three stores written by [update_job_status job_id "failed"] with a
    non-empty message at instant [t]. *)
Definition db_failed1 (t : Z) (job_id : string) (db : gmap string entry) :=
  db_hset t (job_key job_id) "status" "failed" db.
Definition db_failed2 (t : Z) (job_id msg : string) (db : gmap string entry) :=
  db_hset t (job_key job_id) "error" msg (db_failed1 t job_id db).
Definition db_failed3 `{Runtime} (t : Z) (job_id msg : string) (db : gmap string entry) :=
  db_hset t (job_key job_id) "completed_at" (isoformat t) (db_failed2 t job_id msg db).

Definition failed_world `{Runtime} (job_id msg : string) (w : world) : world :=
  set_redis (db_failed3 (clock w) job_id msg (redis w))
    (set_redis (db_failed2 (clock w) job_id msg (redis w))
       (set_redis (db_failed1 (clock w) job_id (redis w)) w)).

(** ** The payload invariants of a job record (spec, section 3) *)

(** What a reader sees of job [job_id] in a snapshot. *)
Definition status_in (job_id : string) (snap : Z * gmap string entry) : option string :=
  job_field snap.1 snap.2 job_id "status".
Definition error_in (job_id : string) (snap : Z * gmap string entry) : option string :=
  job_field snap.1 snap.2 job_id "error".
Definition result_in (job_id : string) (snap : Z * gmap string entry) : option pyval :=
  result_at snap.1 snap.2 job_id.

(** Result and error exclude each other, both are absent while the job is
    pending or processing, a result occurs only under [completed] and an
    error, never empty, only under [failed]. *)
Definition payload_exclusive (job_id : string) (snap : Z * gmap string entry) : Prop :=
  (status_in job_id snap = Some "pending" ∨ status_in job_id snap = Some "processing" →
   error_in job_id snap = None ∧ result_in job_id snap = None) ∧
  (error_in job_id snap = None ∨ result_in job_id snap = None) ∧
  (is_Some (result_in job_id snap) → status_in job_id snap = Some "completed") ∧
  (∀ msg, error_in job_id snap = Some msg →
          status_in job_id snap = Some "failed" ∧ msg ≠ "").

(** A failed job carries a non-empty error and no result; a completed job
    carries a result and no error. *)
Definition payload_settled (job_id : string) (snap : Z * gmap string entry) : Prop :=
  (status_in job_id snap = Some "failed" →
   (∃ msg, error_in job_id snap = Some msg ∧ msg ≠ "") ∧ result_in job_id snap = None) ∧
  (status_in job_id snap = Some "completed" →
   is_Some (result_in job_id snap) ∧ error_in job_id snap = None).

(** The invariant read at every instant: result and error exclude each
    other and are both absent before a terminal status, and a terminal
    status always comes with its payload ([payload_settled]). *)
Definition payload_invariant (job_id : string) (snap : Z * gmap string entry) : Prop :=
  (error_in job_id snap = None ∨ result_in job_id snap = None) ∧
  (status_in job_id snap = Some "pending" ∨ status_in job_id snap = Some "processing" →
   error_in job_id snap = None ∧ result_in job_id snap = None) ∧
  payload_settled job_id snap.

(** No error and no result for [job_id] at instant [t]. *)
Definition quiet (job_id : string) (t : Z) (db : gmap string entry) : Prop :=
  job_field t db job_id "error" = None ∧ result_at t db job_id = None.

(** Every summary object the agent returns dumps to a non-empty dict. *)
Definition dumps_nonempty (agent : ClinicalAgent) : Prop :=
  ∀ text r, outcome (process_clinical_text agent text) = Ok r → truthy r = true.

(** A run that started in [w] and ended in [w']: everything it wrote keeps
    result and error exclusive, and its last state is settled. *)
Definition payload_run (job_id : string) (w w' : world) : Prop :=
  ∃ new,
    trace w' = (new ++ trace w)%list ∧
    Forall (payload_exclusive job_id) new ∧
    payload_settled job_id (clock w', redis w').

Definition sleep (dt : N) : M unit := fun w => (Ok tt, advance dt w).

(** One job from submission to the end of the worker's run, [dt] seconds
    in the queue in between. *)
Definition lifecycle `{Runtime} (agent : ClinicalAgent) (job_data : job_input)
    (dt : N) : M pyval :=
  let* job_id := enqueue_job job_data in
  sleep dt >> process_clinical_job agent job_id.

(** ** Writes after creation *)

(** A later call of [update_job_status]: the seconds that pass before it,
    and its arguments. *)
Record status_write : Type := StatusWrite {
  sw_delay : N;
  sw_status : string;
  sw_result : option pyval;
  sw_error : option string;
}.

(** Any sequence of such calls on one job, whatever their outcomes. *)
Fixpoint run_writes `{Runtime} (job_id : string) (ws : list status_write)
    (w : world) : world :=
  match ws with
  | [] => w
  | sw :: ws' =>
      run_writes job_id ws'
        (snd (update_job_status job_id (sw_status sw) (sw_result sw) (sw_error sw)
                (advance (sw_delay sw) w)))
  end.

Fixpoint total_delay (ws : list status_write) : Z :=
  match ws with
  | [] => 0
  | sw :: ws' => Z.of_N (sw_delay sw) + total_delay ws'
  end.

(** ** Sample inputs for the closed examples *)

(** A runtime for closed examples. *)
Definition sample_runtime : Runtime := {|
  uuid4 n := "uuid-" +:+ pretty n;
  isoformat t := pretty t;
  format_exc e := "Traceback (most recent call last): " +:+ str_exn e;
  parse_datetime s := Some 0;
  validate_summary d := None;
|}.

Definition sample_input : job_input :=
  JobInput (Some "Paciente con dolor de cabeza desde hace 3 dias") None None None.

Definition sample_result : pyval :=
  PDict [("patient_age", PInt 45);
         ("symptoms", PList [PDict [("name", PStr "dolor de cabeza")]]);
         ("narrative_summary", PStr "Cefalea de 3 dias de evolucion")].

(** An empty database at second 1000. *)
Definition w_empty : world := World ∅ 1000 [] 0 false [].

(** The world right after one submission: job [uuid-0] is pending. *)
Definition w_pending : world := snd (@enqueue_job sample_runtime sample_input w_empty).

(** One minute later the worker picks the job up ... *)
Definition w_queued : world := advance 60 w_pending.

Definition w_processing : world :=
  snd (@update_job_status sample_runtime "uuid-0" "processing" None None w_queued).

(** ... the collaborators take 40 seconds ... *)
Definition w_inferred : world := advance 40 w_processing.

(** ... and the job is completed. *)
Definition w_completed : world :=
  snd (@update_job_status sample_runtime "uuid-0" "completed" (Some sample_result)
         None w_inferred).

(** The world a reader sees between the first and the second write of that
    completion: the status is flipped, the result not yet stored. *)
Definition w_flipped : world :=
  set_redis (db_hset (clock w_inferred) (job_key "uuid-0") "status" "completed"
               (redis w_inferred)) w_inferred.

(** The worker's two writes for that job. *)
Definition sample_writes : list status_write :=
  [StatusWrite 60 "processing" None None;
   StatusWrite 40 "completed" (Some sample_result) None].

(** An agent whose inference succeeds, and one whose inference fails. *)
Definition sample_agent : ClinicalAgent :=
  mkAgent (Reply 5 (Ok tt))
          (fun _ => Reply 20 (Ok "Paciente con dolor de cabeza"))
          (fun _ => Reply 10 (Ok sample_result)).

Definition model_unavailable : exn := PyError "InferenceError" "model unavailable".

Definition failing_agent : ClinicalAgent :=
  mkAgent (Reply 5 (Ok tt))
          (fun _ => Reply 20 (Ok "Paciente con dolor de cabeza"))
          (fun _ => Reply 10 (Raise model_unavailable)).

(** The summary object of [app/agent.py]: a [ClinicalSummary], which the
    worker dumps with [model_dump()]. *)
Definition sample_summary : ClinicalSummary :=
  mkClinicalSummary (Some 45) (Some "masculino")
    [mkSymptom "dolor de cabeza" (Some "3 dias") (Some "moderado") None]
    [] ["migrana"] "Cefalea de 3 dias de evolucion" 1075.

Definition pydantic_agent : ClinicalAgent :=
  mkAgent (Reply 5 (Ok tt))
          (fun _ => Reply 20 (Ok "Paciente con dolor de cabeza"))
          (fun _ => Reply 10 (Ok (model_dump sample_summary))).

(** A generator that hands out the same identifier twice. *)
Definition colliding_runtime : Runtime := {|
  uuid4 n := "uuid-0";
  isoformat t := pretty t;
  format_exc e := "Traceback (most recent call last): " +:+ str_exn e;
  parse_datetime s := Some 0;
  validate_summary d := None;
|}.

Definition second_input : job_input :=
  JobInput (Some "Paciente con fiebre") None None None.

Definition sample_upload : UploadFile := mkUploadFile (Some "consulta.wav") [].

(** ** What the FHIR round trip does to a symptom *)

(** An optional string as it comes back: the empty string is dropped. *)
Definition keep_nonempty (o : option string) : option string :=
  if opt_truthy o then o else None.

Definition round_symptom (s : Symptom) : Symptom :=
  mkSymptom (name s)
            (keep_nonempty (duration s))
            (keep_nonempty (severity s))
            (Some (if opt_truthy (description s)
                   then or_empty (description s) else name s)).

(** The entry's resource carries the resource type [t]. *)
Definition typed_entry (t : string) (entry : pyval) : Prop :=
  ∃ r, resource_of entry = Ok (r, PStr t).

(** A summary with an empty-string duration, as the LLM may return it. *)
Definition summary_with_empty_duration : ClinicalSummary :=
  mkClinicalSummary (Some 45) (Some "masculino")
    [mkSymptom "dolor de cabeza" (Some "") (Some "moderado") None]
    ["fumador"] ["migrana"] "Paciente con cefalea" 1000.


(** A library for closed examples, whose inputs are ASCII text: [lower]
    maps the letters [A-Z] to [a-z], and no lax coercion is accepted. *)
Definition lower_ascii (c : ascii) : ascii :=
  let n := nat_of_ascii c in
  if (65 <=? n)%nat && (n <=? 90)%nat then ascii_of_nat (n + 32) else c.

Fixpoint ascii_lower (s : string) : string :=
  match s with
  | EmptyString => EmptyString
  | String c s' => String (lower_ascii c) (ascii_lower s')
  end.

Definition sample_library : Library := {|
  lower := ascii_lower;
  lax_int v := None;
|}.
(** ** Frames *)

(** Two stores agree on every key but the two that belong to [job_id]. *)
Definition same_elsewhere (job_id : string) (db db' : gmap string entry) : Prop :=
  ∀ k, k ≠ job_key job_id → k ≠ result_key job_id → db' !! k = db !! k.

(** What a step on job [job_id] may change: the job's two keys, the clock
    (forwards) and the agent flag.  The queue and the generator are left
    alone. *)
Definition job_frame (job_id : string) (w w' : world) : Prop :=
  same_elsewhere job_id (redis w) (redis w') ∧
  rq w' = rq w ∧
  uuid_draws w' = uuid_draws w ∧
  clock w ≤ clock w'.

(** [m] keeps the relation [R] between the world before and after. *)
Definition keeps {A} (R : world → world → Prop) (m : M A) : Prop :=
  ∀ w, R w (snd (m w)).


(** The step takes no time and leaves the agent flag as it is. *)
Definition same_instant (w w' : world) : Prop :=
  clock w' = clock w ∧ clinical_agent w' = clinical_agent w.

(** ** Agents *)

(** The agent is loaded already, or loading it succeeds. *)
Definition agent_ready (agent : ClinicalAgent) (w : world) : Prop :=
  clinical_agent w = true ∨ outcome (construct agent) = Ok tt.

(** The seconds [initialize_agent] takes in [w]. *)
Definition loading_time (agent : ClinicalAgent) (w : world) : N :=
  if clinical_agent w then 0%N else elapsed (construct agent).

(** The same agent with another transcriber, and with another constructor. *)
Definition with_transcriber (agent : ClinicalAgent)
    (f : pyval → reply string) : ClinicalAgent :=
  mkAgent (construct agent) f (process_clinical_text agent).

Definition with_constructor (agent : ClinicalAgent) (c : reply unit)
  : ClinicalAgent :=
  mkAgent c (transcribe_audio agent) (process_clinical_text agent).

(** ** Submissions *)

(** The [job_data] dict that [submit_job] builds from its two arguments. *)
Definition submitted_input (text : option string) (audio_file : option UploadFile)
  : job_input :=
  JobInput (if opt_truthy text then text else None)
           (match audio_file with Some f => filename f | None => None end)
           (match audio_file with
            | Some f => Some (length (content f))
            | None => None
            end)
           None.

(** [submit_job] accepts the pair: a non-empty text or an upload. *)
Definition accepted (text : option string) (audio_file : option UploadFile) : bool :=
  opt_truthy text || bool_decide (is_Some audio_file).

(** ** What the FHIR round trip does to a summary *)

(** An age comes back unless it is missing or zero. *)
Definition round_age (o : option Z) : option Z :=
  if int_truthy o then o else None.

(** A gender comes back in lower case, and in FHIR's word where
    [gender_map] has one. *)
Definition round_gender `{Library} (o : option string) : option string :=
  if opt_truthy o then
    let g := lower (or_empty o) in
    Some (default g (assoc_get g gender_map))
  else None.

Definition round_summary `{Library} (c : ClinicalSummary) (now : Z) : ClinicalSummary :=
  mkClinicalSummary (round_age (patient_age c))
                    (round_gender (patient_gender c))
                    (map round_symptom (symptoms c))
                    []
                    (List.filter (fun x => negb (String.eqb x "")) (relevant_conditions c))
                    (narrative_summary c)
                    now.

(** The summary read off a bundle that has no entries. *)
Definition empty_summary (now : Z) : ClinicalSummary :=
  mkClinicalSummary None None [] [] [] "" now.

(** An entry whose resource is none of the four kinds the reader looks for. *)
Definition foreign (entry : pyval) : bool :=
  match resource_of entry with
  | Ok (_, t) =>
      negb (is_str "Patient" t || is_str "Observation" t
            || is_str "Condition" t || is_str "ClinicalImpression" t)
  | Raise _ => false
  end.

(** The entry is a resource that points to the patient [Patient/patient-1]. *)
Definition refers_to_patient (entry : pyval) : Prop :=
  ∃ r, entry = PDict [("resource", PDict r)] ∧ dict_get "subject" r = Some subject.

(** ** [app/agent.py]: reading the model's answer *)

Definition open_brace : ascii := "{"%char.
Definition close_brace : ascii := "}"%char.

(** The text from its first opening brace on. *)
Fixpoint from_first_brace (s : string) : option string :=
  match s with
  | EmptyString => None
  | String c s' =>
      if Ascii.eqb c open_brace then Some s else from_first_brace s'
  end.

(** The text up to its last closing brace. *)
Fixpoint upto_last_brace (s : string) : option string :=
  match s with
  | EmptyString => None
  | String c s' =>
      match upto_last_brace s' with
      | Some p => Some (String c p)
      | None => if Ascii.eqb c close_brace then Some (String c EmptyString) else None
      end
  end.

(** [re.search(r'\{.*\}', s, re.DOTALL)] and the [group()] of its match:
    the leftmost opening brace, and greedily everything up to the last
    closing brace after it. *)
Definition json_match (s : string) : option string :=
  from_first_brace s ≫= upto_last_brace.

Section ParseLlmResponse.
(** [json.loads] on a text; [None] stands for [JSONDecodeError]. *)
Variable json_loads_text : string → option pyval.
(** The constructors of the two pydantic models, with their validation:
    [Symptom(name=, duration=, severity=, description=)] and
    [ClinicalSummary(patient_age=, patient_gender=, symptoms=,
    risk_factors=, relevant_conditions=, narrative_summary=)], whose
    [created_at] is filled in with the current instant. *)
Variable new_Symptom : pyval → pyval → pyval → pyval → res Symptom.
Variable new_ClinicalSummary :
  pyval → pyval → list Symptom → pyval → pyval → pyval → Z → res ClinicalSummary.

(** The loop that builds the list of symptoms. *)
Fixpoint build_symptoms (items : list pyval) : res (list Symptom) :=
  match items with
  | [] => Ok []
  | symptom_data :: rest =>
      try* n := py_get "name" (PStr "") symptom_data in
      try* d := py_get "duration" PNone symptom_data in
      try* s := py_get "severity" PNone symptom_data in
      try* descr := py_get "description" PNone symptom_data in
      try* symptom := new_Symptom n d s descr in
      try* symptoms := build_symptoms rest in
      Ok (symptom :: symptoms)
  end.

(** The dict the answer is read from: [{}] when no braces are found or
    the text between them does not decode. *)
Definition llm_data (llm_response : string) : pyval :=
  match json_match llm_response with
  | Some text => default (PDict []) (json_loads_text text)
  | None => PDict []
  end.

Definition _parse_llm_response (original_text llm_response : string) (now : Z)
  : res ClinicalSummary :=
  let data := llm_data llm_response in
  try* symptoms_data := py_get "symptoms" (PList []) data in
  try* items := py_iter symptoms_data in
  try* symptoms := build_symptoms items in
  try* age := py_get "patient_age" PNone data in
  try* gender := py_get "patient_gender" PNone data in
  try* risk_factors := py_get "risk_factors" (PList []) data in
  try* relevant_conditions := py_get "relevant_conditions" (PList []) data in
  try* narrative := py_get "narrative_summary" (PStr llm_response) data in
  new_ClinicalSummary age gender symptoms risk_factors relevant_conditions
                      narrative now.

End ParseLlmResponse.

(** pydantic accepts the default values of [ClinicalSummary] together with
    any string as narrative. *)
Definition accepts_defaults
    (new_ClinicalSummary :
       pyval → pyval → list Symptom → pyval → pyval → pyval → Z → res ClinicalSummary)
  : Prop :=
  ∀ s now,
    new_ClinicalSummary PNone PNone [] (PList []) (PList []) (PStr s) now
    = Ok (mkClinicalSummary None None [] [] [] s now).

(** Strict stand-ins for the two constructors, used in examples. *)
Definition strict_Symptom (n d s descr : pyval) : res Symptom :=
  try* n := validate_str n in
  try* d := validate_optional_str d in
  try* s := validate_optional_str s in
  try* descr := validate_optional_str descr in
  Ok (mkSymptom n d s descr).

Definition strict_ClinicalSummary `{Library} (age gender : pyval) (symptoms : list Symptom)
    (risk conditions narrative : pyval) (now : Z) : res ClinicalSummary :=
  try* age := validate_optional_int age in
  try* gender := validate_optional_str gender in
  try* risk := rbind (py_iter risk) validate_str_list in
  try* conditions := rbind (py_iter conditions) validate_str_list in
  try* narrative := validate_str narrative in
  Ok (mkClinicalSummary age gender symptoms risk conditions narrative now).

(** ** Further sample inputs *)



(** The sample job, queued, in a worker that holds a loaded agent. *)
Definition w_queued_loaded : world :=
  World (redis w_queued) (clock w_queued) (rq w_queued) (uuid_draws w_queued)
        true (trace w_queued).

(** An agent that returns an empty summary, and one that cannot be loaded. *)
Definition empty_agent : ClinicalAgent :=
  mkAgent (Reply 5 (Ok tt))
          (fun _ => Reply 20 (Ok "Paciente con dolor de cabeza"))
          (fun _ => Reply 10 (Ok (PDict []))).

Definition missing_api_key : exn := ValueError "OPENAI_API_KEY no configurada".

Definition unloadable_agent : ClinicalAgent :=
  mkAgent (Reply 5 (Raise missing_api_key))
          (fun _ => Reply 20 (Ok "Paciente con dolor de cabeza"))
          (fun _ => Reply 10 (Ok sample_result)).

(** A transcriber that fails. *)
Definition broken_transcriber : pyval → reply string :=
  fun _ => Reply 1 (Raise (PyError "RuntimeError" "ffmpeg not found")).

(** A store in which the key of the next job id holds a string. *)
Definition w_string_slot : world :=
  World {[ job_key "uuid-0" := Entry (RString (PStr "x")) None ]} 1000 [] 0 false [].

(** An upload that has no file name. *)
Definition nameless_upload : UploadFile := mkUploadFile None [].

(** A summary without age and gender. *)
Definition anonymous_summary : ClinicalSummary :=
  mkClinicalSummary None None
    [mkSymptom "fiebre" None (Some "leve") None]
    [] ["gripe"] "Paciente con fiebre" 1000.

(** An entry of a kind the reader does not look for. *)
Definition encounter_entry : pyval :=
  PDict [("resource", PDict [("resourceType", PStr "Encounter"); ("id", PStr "enc-1")])].

(** The sample job's record as [enqueue_job] wrote it, and the same for the
    audio-only submission. *)
Definition sample_record : gmap string string :=
  @job_metadata sample_runtime "uuid-0" 1000 sample_input.


(** What the second pass of the round trip needs of [str.lower()]: it
    changes nothing in a text it has produced, it never empties a text, and
    it leaves the two words of [gender_map] as they are. *)
Definition lower_settles `{Library} : Prop :=
  (∀ s, lower (lower s) = lower s) ∧
  (∀ s, s ≠ "" → lower s ≠ "") ∧
  lower "male" = "male" ∧
  lower "female" = "female".

(** ** The steps of a worker run *)

(** The [try] block of [process_clinical_job] (worker.py, lines 63 to 109),
    without its handler. *)
Definition try_block `{Runtime} (agent : ClinicalAgent) (job_id : string) : M pyval :=
  let* job_data := get_job_status job_id in
  if dict_falsy job_data then
    raise (ValueError ("Trabajo " +:+ job_id +:+ " no encontrado"))
  else
    let job_data := default ∅ job_data in
    update_job_status job_id "processing" None None >>
    initialize_agent agent >>
    let text := job_data !! "text" in
    let audio_filename := job_data !! "audio_filename" in
    let* text :=
      (if truthy_opt audio_filename && negb (truthy_opt text) then
         let* t := call (transcribe_audio agent (default PNone audio_filename)) in
         ret (Some (PStr t))
       else ret text) in
    if negb (truthy_opt text) then
      raise (ValueError "No se proporcionó texto ni audio válido")
    else
      let* result_dict :=
        call (process_clinical_text agent (default PNone text)) in
      update_job_status job_id "completed" (Some result_dict) None >>
      ret result_dict.


(** * Properties *)

(** ** Keys *)

Lemma job_key_inj (a b : string) : job_key a = job_key b → a = b.
Proof. unfold job_key. simpl. intros E. by simplify_eq. Qed.

Lemma job_key_ne_result_key (a b : string) : job_key a ≠ result_key b.
Proof. unfold job_key, result_key. simpl. discriminate. Qed.

Lemma result_key_ne_job_key (a b : string) : result_key a ≠ job_key b.
Proof. unfold job_key, result_key. simpl. discriminate. Qed.

#[local] Hint Resolve job_key_ne_result_key result_key_ne_job_key : core.

(** ** Redis lookups *)

Lemma lookup_live_Some (t : Z) (db : gmap string entry) (k : string) (e : entry) :
  lookup_live t db k = Some e ↔ db !! k = Some e ∧ live t e = true.
Proof.
  unfold lookup_live. destruct (db !! k) as [e'|].
  - destruct (live t e') eqn:L; split.
    + intros [= <-]. by split.
    + by intros [[= <-] _].
    + discriminate.
    + intros [[= <-] L']. congruence.
  - split; [discriminate | by intros [? _]].
Qed.

Lemma lookup_live_insert (t : Z) (db : gmap string entry) (k : string) (e : entry) :
  lookup_live t (<[k := e]> db) k = if live t e then Some e else None.
Proof. unfold lookup_live. by rewrite lookup_insert_eq. Qed.

Lemma lookup_live_insert_ne (t : Z) (db : gmap string entry) (k k' : string) (e : entry) :
  k ≠ k' → lookup_live t (<[k := e]> db) k' = lookup_live t db k'.
Proof. intros Hne. unfold lookup_live. by rewrite lookup_insert_ne. Qed.

(** ** Write commands as store transformers *)

Lemma hset_run (w : world) (k f v : string) :
  hash_slot (clock w) (redis w) k →
  Cmd.hset k f v w = (Ok tt, set_redis (db_hset (clock w) k f v (redis w)) w).
Proof.
  unfold hash_slot, Cmd.hset, db_hset.
  destruct (lookup_live (clock w) (redis w) k) as [[[doc|h] ttl]|]; simpl.
  - done.
  - done.
  - intros _. unfold Cmd.write. by rewrite insert_empty.
Qed.

Lemma slot_live (t : Z) (db : gmap string entry) (k : string) (h : gmap string string) :
  live t (Entry (RHash h) (slot_ttl (lookup_live t db k))) = true.
Proof.
  destruct (lookup_live t db k) as [[[doc|h'] ttl]|] eqn:E; try done.
  apply lookup_live_Some in E as [_ L]. exact L.
Qed.

Lemma lookup_live_db_hset (t : Z) (db : gmap string entry) (k f v : string) :
  lookup_live t (db_hset t k f v db) k
  = Some (Entry (RHash (<[f := v]> (slot_hash (lookup_live t db k))))
                (slot_ttl (lookup_live t db k))).
Proof. unfold db_hset. by rewrite lookup_live_insert, slot_live. Qed.

Lemma lookup_live_db_hset_ne (t t' : Z) (db : gmap string entry) (k k' f v : string) :
  k ≠ k' → lookup_live t' (db_hset t k f v db) k' = lookup_live t' db k'.
Proof. intros. unfold db_hset. by rewrite lookup_live_insert_ne. Qed.

Lemma hash_slot_db_hset (t : Z) (db : gmap string entry) (k f v : string) :
  hash_slot t (db_hset t k f v db) k.
Proof. unfold hash_slot. by rewrite lookup_live_db_hset. Qed.

Lemma lookup_live_db_setex_ne (t t' s : Z) (db : gmap string entry) (k k' : string) doc :
  k ≠ k' → lookup_live t' (db_setex t k s doc db) k' = lookup_live t' db k'.
Proof. intros. unfold db_setex. by rewrite lookup_live_insert_ne. Qed.

Lemma hash_slot_db_setex (t s : Z) (db : gmap string entry) (k k' : string) doc :
  k ≠ k' → hash_slot t db k' → hash_slot t (db_setex t k s doc db) k'.
Proof. intros. unfold hash_slot. by rewrite lookup_live_db_setex_ne. Qed.


(** ** Reading a store after a write *)

Lemma job_hash_db_hset (t : Z) (db : gmap string entry) (job_id f v : string) :
  job_hash t (db_hset t (job_key job_id) f v db) job_id
  = Some (<[f := v]> (slot_hash (lookup_live t db (job_key job_id)))).
Proof. unfold job_hash. by rewrite lookup_live_db_hset. Qed.

Lemma slot_hash_lookup (t : Z) (db : gmap string entry) (job_id f : string) :
  slot_hash (lookup_live t db (job_key job_id)) !! f = job_field t db job_id f.
Proof.
  unfold job_field, job_hash.
  by destruct (lookup_live t db (job_key job_id)) as [[[doc|h] ttl]|].
Qed.

Lemma job_field_db_hset (t : Z) (db : gmap string entry) (job_id f v f' : string) :
  job_field t (db_hset t (job_key job_id) f v db) job_id f'
  = if decide (f = f') then Some v else job_field t db job_id f'.
Proof.
  unfold job_field at 1. rewrite job_hash_db_hset, lookup_insert.
  case_decide; [done|]. apply slot_hash_lookup.
Qed.

Lemma job_field_db_setex (t t' s : Z) (db : gmap string entry)
    (job_id job_id' f : string) (doc : pyval) :
  job_field t' (db_setex t (result_key job_id) s doc db) job_id' f
  = job_field t' db job_id' f.
Proof.
  unfold job_field, job_hash. by rewrite lookup_live_db_setex_ne.
Qed.

Lemma result_at_db_hset (t t' : Z) (db : gmap string entry)
    (job_id job_id' f v : string) :
  result_at t' (db_hset t (job_key job_id) f v db) job_id' = result_at t' db job_id'.
Proof. unfold result_at. by rewrite lookup_live_db_hset_ne. Qed.

Lemma result_at_db_setex (t s : Z) (db : gmap string entry) (job_id : string)
    (doc : pyval) :
  0 < s → result_at t (db_setex t (result_key job_id) s doc db) job_id = Some doc.
Proof.
  intros Hs. unfold result_at, db_setex. rewrite lookup_live_insert.
  unfold live. simpl. by rewrite (proj2 (Z.ltb_lt t (t + s))) by lia.
Qed.

Lemma db_hset_lookup (t : Z) (db : gmap string entry) (k f v : string) :
  db_hset t k f v db !! k
  = Some (Entry (RHash (<[f := v]> (slot_hash (lookup_live t db k))))
                (slot_ttl (lookup_live t db k))).
Proof. unfold db_hset. by rewrite lookup_insert_eq. Qed.

Lemma expiry_of_db_hset (t : Z) (db : gmap string entry) (k f v : string) :
  expiry_of (db_hset t k f v db) k = Some (slot_ttl (lookup_live t db k)).
Proof. unfold expiry_of, db_hset. by rewrite lookup_insert_eq. Qed.

Lemma expiry_of_db_setex_ne (t s : Z) (db : gmap string entry) (k k' : string)
    (doc : pyval) :
  k ≠ k' → expiry_of (db_setex t k s doc db) k' = expiry_of db k'.
Proof. intros. unfold expiry_of, db_setex. by rewrite lookup_insert_ne. Qed.

Lemma expiry_of_db_hset_ne (t : Z) (db : gmap string entry) (k k' f v : string) :
  k ≠ k' → expiry_of (db_hset t k f v db) k' = expiry_of db k'.
Proof. intros. unfold expiry_of, db_hset. by rewrite lookup_insert_ne. Qed.

Lemma expiry_of_db_setex (t s : Z) (db : gmap string entry) (k : string) (doc : pyval) :
  expiry_of (db_setex t k s doc db) k = Some (Some (t + s)).
Proof. unfold expiry_of, db_setex. by rewrite lookup_insert_eq. Qed.

Lemma slot_ttl_db_hset (t : Z) (db : gmap string entry) (k f v : string) :
  slot_ttl (lookup_live t (db_hset t k f v db) k) = slot_ttl (lookup_live t db k).
Proof. by rewrite lookup_live_db_hset. Qed.

Lemma slot_ttl_db_setex_ne (t s : Z) (db : gmap string entry) (k k' : string)
    (doc : pyval) :
  k ≠ k' →
  slot_ttl (lookup_live t (db_setex t k s doc db) k') = slot_ttl (lookup_live t db k').
Proof. intros. by rewrite lookup_live_db_setex_ne. Qed.

(** ** [update_job_status], case by case *)

Section UpdateJobStatus.
Context `{Runtime}.

Lemma update_job_status_plain (w : world) (job_id status : string)
    (result : option pyval) (error : option string) :
  hash_slot (clock w) (redis w) (job_key job_id) →
  truthy_opt result = false →
  str_truthy (or_empty error) = false →
  update_job_status job_id status result error w
  = (Ok tt,
     set_redis (db_hset (clock w) (job_key job_id) "status" status (redis w)) w).
Proof.
  intros Hs Hr He. unfold update_job_status, bind.
  rewrite hset_run by done. by rewrite Hr, He.
Qed.

Lemma update_job_status_error (w : world) (job_id status msg : string)
    (result : option pyval) :
  hash_slot (clock w) (redis w) (job_key job_id) →
  truthy_opt result = false →
  msg ≠ "" →
  update_job_status job_id status result (Some msg) w
  = (Ok tt,
     let t := clock w in
     let k := job_key job_id in
     let db1 := db_hset t k "status" status (redis w) in
     let db2 := db_hset t k "error" msg db1 in
     let db3 := db_hset t k "completed_at" (isoformat t) db2 in
     set_redis db3 (set_redis db2 (set_redis db1 w))).
Proof.
  intros Hs Hr Hm. unfold update_job_status, bind. rewrite hset_run by done.
  rewrite Hr. simpl. unfold str_truthy.
  destruct (String.eqb_spec msg ""); [done|]. simpl.
  rewrite hset_run by apply hash_slot_db_hset. simpl.
  by rewrite hset_run by apply hash_slot_db_hset.
Qed.

Lemma update_job_status_result (w : world) (job_id status : string) (r : pyval)
    (error : option string) :
  hash_slot (clock w) (redis w) (job_key job_id) →
  truthy r = true →
  json_safe r = true →
  str_truthy (or_empty error) = false →
  update_job_status job_id status (Some r) error w
  = (Ok tt,
     let t := clock w in
     let k := job_key job_id in
     let db1 := db_hset t k "status" status (redis w) in
     let db2 := db_setex t (result_key job_id) (timedelta_hours 24) r db1 in
     let db3 := db_hset t k "completed_at" (isoformat t) db2 in
     set_redis db3 (set_redis db2 (set_redis db1 w))).
Proof.
  intros Hs Hr Hj He. unfold update_job_status, bind. rewrite hset_run by done.
  simpl. rewrite Hr. unfold json_dumps. rewrite Hj. simpl.
  rewrite hset_run
    by (apply hash_slot_db_setex; [done | apply hash_slot_db_hset]).
  simpl. by rewrite He.
Qed.

Lemma update_job_status_unserialisable (w : world) (job_id status : string)
    (r : pyval) (error : option string) :
  hash_slot (clock w) (redis w) (job_key job_id) →
  truthy r = true →
  json_safe r = false →
  update_job_status job_id status (Some r) error w
  = (Raise (TypeError "Object of type datetime is not JSON serializable"),
     set_redis (db_hset (clock w) (job_key job_id) "status" status (redis w)) w).
Proof.
  intros Hs Hr Hj. unfold update_job_status, bind. rewrite hset_run by done.
  simpl. rewrite Hr. unfold json_dumps. by rewrite Hj.
Qed.

(** Both payloads at once: six writes. *)
Lemma update_job_status_both (w : world) (job_id status msg : string) (r : pyval) :
  hash_slot (clock w) (redis w) (job_key job_id) →
  truthy r = true →
  json_safe r = true →
  msg ≠ "" →
  update_job_status job_id status (Some r) (Some msg) w
  = (Ok tt,
     let t := clock w in
     let k := job_key job_id in
     let db1 := db_hset t k "status" status (redis w) in
     let db2 := db_setex t (result_key job_id) (timedelta_hours 24) r db1 in
     let db3 := db_hset t k "completed_at" (isoformat t) db2 in
     let db4 := db_hset t k "error" msg db3 in
     let db5 := db_hset t k "completed_at" (isoformat t) db4 in
     set_redis db5 (set_redis db4 (set_redis db3
       (set_redis db2 (set_redis db1 w))))).
Proof.
  intros Hs Hr Hj Hm. unfold update_job_status, bind. rewrite hset_run by done.
  simpl. rewrite Hr. unfold json_dumps. rewrite Hj. simpl.
  rewrite hset_run
    by (apply hash_slot_db_setex; [done | apply hash_slot_db_hset]).
  simpl. unfold str_truthy. destruct (String.eqb_spec msg ""); [done|]. simpl.
  rewrite hset_run by apply hash_slot_db_hset. simpl.
  by rewrite hset_run by apply hash_slot_db_hset.
Qed.

End UpdateJobStatus.

(** ** Claims about [update_job_status] *)

Ltac read_store :=
  repeat first
    [ rewrite job_field_db_hset
    | rewrite job_field_db_setex
    | rewrite result_at_db_hset
    | rewrite expiry_of_db_hset
    | rewrite expiry_of_db_hset_ne by done
    | rewrite expiry_of_db_setex
    | rewrite slot_ttl_db_hset
    | rewrite slot_ttl_db_setex_ne by done
    | rewrite expiry_of_db_setex_ne by done ];
  repeat (case_decide; try discriminate); try done.

Section UpdateJobStatusClaims.
Context `{Runtime}.

(** Every call shape of [update_job_status] on a key that [HSET] accepts:
    the outcome, and the stores it leaves behind. *)
Lemma update_job_status_cases (w : world) (job_id status : string)
    (result : option pyval) (error : option string) :
  hash_slot (clock w) (redis w) (job_key job_id) →
  let t := clock w in
  let k := job_key job_id in
  let db1 := db_hset t k "status" status (redis w) in
  (truthy_opt result = false ∧ str_truthy (or_empty error) = false ∧
     update_job_status job_id status result error w = (Ok tt, set_redis db1 w))
  ∨ (∃ msg, truthy_opt result = false ∧ error = Some msg ∧ msg ≠ "" ∧
     let db2 := db_hset t k "error" msg db1 in
     let db3 := db_hset t k "completed_at" (isoformat t) db2 in
     update_job_status job_id status result error w
     = (Ok tt, set_redis db3 (set_redis db2 (set_redis db1 w))))
  ∨ (∃ r, result = Some r ∧ truthy r = true ∧ json_safe r = false ∧
     update_job_status job_id status result error w
     = (Raise (TypeError "Object of type datetime is not JSON serializable"),
        set_redis db1 w))
  ∨ (∃ r, result = Some r ∧ truthy r = true ∧ json_safe r = true ∧
     str_truthy (or_empty error) = false ∧
     let db2 := db_setex t (result_key job_id) (timedelta_hours 24) r db1 in
     let db3 := db_hset t k "completed_at" (isoformat t) db2 in
     update_job_status job_id status result error w
     = (Ok tt, set_redis db3 (set_redis db2 (set_redis db1 w))))
  ∨ (∃ r msg, result = Some r ∧ truthy r = true ∧ json_safe r = true ∧
     error = Some msg ∧ msg ≠ "" ∧
     let db2 := db_setex t (result_key job_id) (timedelta_hours 24) r db1 in
     let db3 := db_hset t k "completed_at" (isoformat t) db2 in
     let db4 := db_hset t k "error" msg db3 in
     let db5 := db_hset t k "completed_at" (isoformat t) db4 in
     update_job_status job_id status result error w
     = (Ok tt, set_redis db5 (set_redis db4 (set_redis db3
                 (set_redis db2 (set_redis db1 w)))))).
Proof.
  intros Hs t k db1.
  assert (He : str_truthy (or_empty error) = false
               ∨ ∃ msg, error = Some msg ∧ msg ≠ "").
  { destruct error as [msg|]; [|by left]. simpl. unfold str_truthy.
    destruct (String.eqb_spec msg ""); [by left | right; eauto]. }
  destruct (truthy_opt result) eqn:Hr.
  - destruct result as [r|]; [simpl in Hr | done].
    destruct (json_safe r) eqn:Hj.
    + destruct He as [He | (msg & -> & Hm)].
      * do 3 right. left. exists r. repeat split; try done.
        by apply update_job_status_result.
      * do 4 right. exists r, msg. repeat split; try done.
        by apply update_job_status_both.
    + do 2 right. left. exists r. repeat split; try done.
      by apply update_job_status_unserialisable.
  - destruct He as [He | (msg & -> & Hm)].
    + left. repeat split; try done. by apply update_job_status_plain.
    + right. left. exists msg. repeat split; try done.
      by apply update_job_status_error.
Qed.


(** A write of [update_job_status] to a live job record leaves the
    record's expiry where it was, while the result record it stores expires
    24 hours after the instant of that write. *)
Lemma update_job_status_expiry (w : world) (job_id status : string)
    (result : option pyval) (error : option string)
    (h : gmap string string) (ttl : option Z) :
  lookup_live (clock w) (redis w) (job_key job_id) = Some (Entry (RHash h) ttl) →
  ∃ r w' h',
    update_job_status job_id status result error w = (r, w') ∧
    clock w' = clock w ∧
    redis w' !! job_key job_id = Some (Entry (RHash h') ttl) ∧
    (truthy_opt result = true → r = Ok tt →
     expiry_of (redis w') (result_key job_id)
     = Some (Some (clock w + timedelta_hours 24))).
Proof.
  intros Hl.
  assert (Hs : hash_slot (clock w) (redis w) (job_key job_id))
    by (unfold hash_slot; by rewrite Hl).
  assert (Ht : slot_ttl (lookup_live (clock w) (redis w) (job_key job_id)) = ttl)
    by (by rewrite Hl).
  destruct (update_job_status_cases w job_id status result error Hs)
    as [(Hr & _ & E) | [(msg & Hr & _ & _ & E) | [(r & _ & _ & _ & E)
       | [(r & _ & _ & _ & _ & E) | (r & msg & _ & _ & _ & _ & _ & E)]]]];
    rewrite E; eexists _, _, _; (split; [reflexivity|]); simpl;
    (split; [reflexivity|]);
    (split; [rewrite db_hset_lookup; do 2 f_equal; read_store |]);
    intros Hr' Hok; try congruence; try discriminate; read_store.
Qed.

(** C1 (what the code does): [update_job_status] writes the status first.
    When a job without a stored result is completed, the first store a
    reader can observe already shows status [completed] while the result
    record is still missing. *)
Theorem update_job_status_status_before_result (w : world) (job_id : string)
    (r : pyval) :
  hash_slot (clock w) (redis w) (job_key job_id) →
  result_at (clock w) (redis w) job_id = None →
  ∃ db rest,
    observed (update_job_status job_id "completed" (Some r) None) w
    = (clock w, db) :: rest ∧
    job_field (clock w) db job_id "status" = Some "completed" ∧
    result_at (clock w) db job_id = None.
Proof.
  intros Hs Hr. unfold observed.
  set (w0 := World _ _ _ _ _ []).
  assert (Hs0 : hash_slot (clock w0) (redis w0) (job_key job_id)) by done.
  destruct (update_job_status_cases w0 job_id "completed" (Some r) None Hs0)
    as [(_ & _ & E) | [(msg & _ & ? & _) | [(r' & _ & _ & _ & E)
       | [(r' & _ & _ & _ & _ & E) | (r' & msg & _ & _ & _ & ? & _)]]]];
    try discriminate; rewrite E; simpl;
    eexists _, _; (split; [reflexivity|]); split; read_store.
Qed.

End UpdateJobStatusClaims.

(** ** [enqueue_job] and [submit_job] *)

Section Enqueue.
Context `{Runtime}.

Lemma enqueue_job_run (w : world) (job_data : job_input) :
  hash_slot (clock w) (redis w) (job_key (uuid4 (uuid_draws w))) →
  let job_id := uuid4 (uuid_draws w) in
  let t := clock w in
  let o := lookup_live t (redis w) (job_key job_id) in
  let m := job_metadata job_id t job_data in
  let db1 := <[job_key job_id := enqueued_entry t m o (slot_ttl o)]> (redis w) in
  let db2 := <[job_key job_id :=
                 enqueued_entry t m o (Some (t + timedelta_hours 24))]> db1 in
  enqueue_job job_data w
  = (Ok job_id,
     World db2 t (rq w ++ [RqTask "app.worker.process_clinical_job" job_id 300])
           (S (uuid_draws w)) (clinical_agent w)
           ((t, db2) :: (t, db1) :: trace w)).
Proof.
  intros Hs. unfold enqueue_job, bind, draw_uuid4, now. simpl.
  unfold Cmd.hset_mapping, Cmd.expire, hash_slot in *. simpl.
  unfold job_metadata, enqueued_entry.
  destruct (lookup_live (clock w) (redis w) (job_key (uuid4 (uuid_draws w))))
    as [[[doc|h] ttl]|] eqn:E; simpl.
  - done.
  - rewrite lookup_live_insert.
    apply lookup_live_Some in E as [_ L]. unfold live in *. simpl in *.
    rewrite L. reflexivity.
  - rewrite lookup_live_insert. simpl. by rewrite (right_id_L ∅ (∪)).
Qed.

Lemma job_metadata_lookup (job_id : string) (t : Z) (job_data : job_input) :
  job_metadata job_id t job_data !! "job_id" = Some job_id ∧
  job_metadata job_id t job_data !! "status" = Some "pending" ∧
  job_metadata job_id t job_data !! "created_at" = Some (isoformat t) ∧
  job_metadata job_id t job_data !! "text" = Some (or_empty (jd_text job_data)) ∧
  job_metadata job_id t job_data !! "audio_filename"
  = Some (or_empty (jd_audio_filename job_data)) ∧
  job_metadata job_id t job_data !! "audio_url"
  = Some (or_empty (jd_audio_url job_data)).
Proof. unfold job_metadata. repeat split; by simplify_map_eq. Qed.

Lemma live_24h (t : Z) (v : rvalue) :
  live t (Entry v (Some (t + timedelta_hours 24))) = true.
Proof. unfold live, timedelta_hours. simpl. apply Z.ltb_lt. lia. Qed.

(** What one call of [enqueue_job] does. *)
Lemma enqueue_job_spec (w : world) (job_data : job_input) :
  hash_slot (clock w) (redis w) (job_key (uuid4 (uuid_draws w))) →
  ∃ w',
    enqueue_job job_data w = (Ok (uuid4 (uuid_draws w)), w') ∧
    uuid_draws w' = S (uuid_draws w) ∧
    clock w' = clock w ∧
    (∀ f v, job_metadata (uuid4 (uuid_draws w)) (clock w) job_data !! f = Some v →
            job_field (clock w') (redis w') (uuid4 (uuid_draws w)) f = Some v) ∧
    expiry_of (redis w') (job_key (uuid4 (uuid_draws w)))
    = Some (Some (clock w + timedelta_hours 24)) ∧
    rq w' = (rq w ++ [RqTask "app.worker.process_clinical_job"
                             (uuid4 (uuid_draws w)) 300])%list.
Proof.
  intros Hs. rewrite (enqueue_job_run w job_data Hs). cbv zeta.
  eexists. split; [reflexivity|]. simpl. repeat split.
  - intros f v Hf. unfold job_field, job_hash, enqueued_entry.
    rewrite lookup_live_insert, live_24h. simpl.
    by apply lookup_union_Some_l.
  - unfold expiry_of. by rewrite lookup_insert_eq.
Qed.

(** C7 (as the code behaves): [enqueue_job] draws exactly one identifier
    and never looks whether a record with it exists.  Whatever the key
    held, the call succeeds: the record then holds the six metadata fields
    with status [pending], written over the fields of the same names, next
    to whatever other fields the previous record had; the expiry is set to
    24 hours from now and the task is queued. *)
Theorem enqueue_job_overwrites (w : world) (job_data : job_input) :
  hash_slot (clock w) (redis w) (job_key (uuid4 (uuid_draws w))) →
  ∃ w',
    enqueue_job job_data w = (Ok (uuid4 (uuid_draws w)), w') ∧
    uuid_draws w' = S (uuid_draws w) ∧
    job_hash (clock w') (redis w') (uuid4 (uuid_draws w))
    = Some (job_metadata (uuid4 (uuid_draws w)) (clock w) job_data
            ∪ slot_hash (lookup_live (clock w) (redis w)
                           (job_key (uuid4 (uuid_draws w))))) ∧
    job_field (clock w') (redis w') (uuid4 (uuid_draws w)) "status"
    = Some "pending" ∧
    expiry_of (redis w') (job_key (uuid4 (uuid_draws w)))
    = Some (Some (clock w + timedelta_hours 24)) ∧
    rq w' = (rq w ++ [RqTask "app.worker.process_clinical_job"
                             (uuid4 (uuid_draws w)) 300])%list.
Proof.
  intros Hs. rewrite (enqueue_job_run w job_data Hs). cbv zeta.
  set (job_id := uuid4 (uuid_draws w)).
  set (m := job_metadata job_id (clock w) job_data).
  set (o := lookup_live (clock w) (redis w) (job_key job_id)).
  eexists. split; [reflexivity|]. simpl.
  assert (Hh : ∀ db,
             job_hash (clock w)
               (<[job_key job_id :=
                    enqueued_entry (clock w) m o
                      (Some (clock w + timedelta_hours 24))]> db) job_id
             = Some (m ∪ slot_hash o)).
  { intros db. unfold job_hash, enqueued_entry.
    by rewrite lookup_live_insert, live_24h. }
  repeat split.
  - apply Hh.
  - unfold job_field. rewrite Hh. apply lookup_union_Some_l.
    apply job_metadata_lookup.
  - unfold expiry_of. by rewrite lookup_insert_eq.
Qed.

End Enqueue.

Section Submit.
Context `{Runtime}.

(** C3 (as the code behaves): a submission needs at least one of a
    non-empty text and an audio file.  With neither, [submit_job] raises
    HTTP 400 and the world is untouched: no identifier drawn, no record, no
    task.  In every other case, text and audio file both present included,
    the job is accepted: one identifier is drawn, the record holds the text
    and the audio file name side by side, and the task is queued. *)
Theorem submit_job_at_least_one (w : world) (text : option string)
    (audio_file : option UploadFile) :
  hash_slot (clock w) (redis w) (job_key (uuid4 (uuid_draws w))) →
  if negb (opt_truthy text) && negb (bool_decide (is_Some audio_file)) then
    submit_job text audio_file w
    = (Raise (HTTPException 400 "Debe proporcionar texto o archivo de audio"), w)
  else
    ∃ w',
      submit_job text audio_file w
      = (Ok (mkJobResponse (uuid4 (uuid_draws w)) PENDING
               "Trabajo encolado exitosamente. Use /result/{job_id} para consultar el resultado."),
         w') ∧
      uuid_draws w' = S (uuid_draws w) ∧
      job_field (clock w') (redis w') (uuid4 (uuid_draws w)) "status"
      = Some "pending" ∧
      job_field (clock w') (redis w') (uuid4 (uuid_draws w)) "text"
      = Some (or_empty text) ∧
      job_field (clock w') (redis w') (uuid4 (uuid_draws w)) "audio_filename"
      = Some (or_empty (audio_file ≫= filename)) ∧
      rq w' = (rq w ++ [RqTask "app.worker.process_clinical_job"
                               (uuid4 (uuid_draws w)) 300])%list.
Proof.
  intros Hs. unfold submit_job.
  destruct (negb (opt_truthy text) && negb (bool_decide (is_Some audio_file)))
    eqn:E; [reflexivity|].
  unfold try_except, bind.
  set (jd := JobInput _ _ _ _).
  destruct (enqueue_job_spec w jd Hs) as (w' & -> & Hd & Hc & Hf & _ & Hq).
  simpl. exists w'. split; [reflexivity|].
  pose proof (job_metadata_lookup (uuid4 (uuid_draws w)) (clock w) jd)
    as (_ & Hst & _ & Htx & Hau & _).
  repeat split; try done.
  - by apply Hf.
  - rewrite (Hf _ _ Htx). f_equal. simpl.
    unfold opt_truthy, str_truthy.
    by destruct (String.eqb_spec (or_empty text) "").
  - rewrite (Hf _ _ Hau). by destruct audio_file.
Qed.

End Submit.

(** ** Expiry *)

Section Expiry.
Context `{Runtime}.

(** C6 (as the code behaves): the expiry of a job record is fixed when the
    record is created, 24 hours after that instant, and no later call of
    [update_job_status], however many there are and whatever they write,
    moves it as long as the record is live.  The result record, however,
    expires 24 hours after the instant of the write that stored it. *)
Theorem expiry_fixed_at_creation (w : world) (job_data : job_input)
    (ws : list status_write) :
  hash_slot (clock w) (redis w) (job_key (uuid4 (uuid_draws w))) →
  total_delay ws < timedelta_hours 24 →
  expiry_of (redis (run_writes (uuid4 (uuid_draws w)) ws
                      (snd (enqueue_job job_data w))))
            (job_key (uuid4 (uuid_draws w)))
  = Some (Some (clock w + timedelta_hours 24)) ∧
  (∀ w2 w3 status r error,
     hash_slot (clock w2) (redis w2) (job_key (uuid4 (uuid_draws w))) →
     truthy r = true →
     update_job_status (uuid4 (uuid_draws w)) status (Some r) error w2
     = (Ok tt, w3) →
     expiry_of (redis w3) (result_key (uuid4 (uuid_draws w)))
     = Some (Some (clock w2 + timedelta_hours 24))).
Proof.
  intros Hs Hd. set (job_id := uuid4 (uuid_draws w)) in *.
  set (T := clock w + timedelta_hours 24). split.
  - assert (Hgo : ∀ ws w1 h,
              clock w1 + total_delay ws < T →
              redis w1 !! job_key job_id = Some (Entry (RHash h) (Some T)) →
              expiry_of (redis (run_writes job_id ws w1)) (job_key job_id)
              = Some (Some T)).
    { clear ws Hd. induction ws as [|sw ws IH]; intros w1 h Hlt Hin; simpl.
      - unfold expiry_of. by rewrite Hin.
      - simpl in Hlt. pose proof (N2Z.is_nonneg (sw_delay sw)) as Hnn.
        assert (Hnn' : 0 ≤ total_delay ws).
        { clear. induction ws as [|x ws IH]; simpl; [done|].
          pose proof (N2Z.is_nonneg (sw_delay x)). lia. }
        destruct (update_job_status_expiry (advance (sw_delay sw) w1) job_id
                    (sw_status sw) (sw_result sw) (sw_error sw) h (Some T))
          as (r & w' & h' & E & Hc & Hin' & _).
        { apply lookup_live_Some. split; [exact Hin|].
          unfold live. simpl. apply Z.ltb_lt. lia. }
        rewrite E. simpl. apply (IH w' h'); [|exact Hin'].
        rewrite Hc. simpl. lia. }
    rewrite (enqueue_job_run w job_data Hs). cbv zeta. fold job_id. simpl.
    eapply Hgo; [simpl; fold T; lia|].
    unfold enqueued_entry. simpl. by rewrite lookup_insert_eq.
  - intros w2 w3 status r error Hs2 Hr Hrun.
    destruct (update_job_status_cases w2 job_id status (Some r) error Hs2)
      as [(Hr' & _ & E) | [(msg & Hr' & _ & _ & E) | [(r' & _ & _ & _ & E)
         | [(r' & [= <-] & _ & _ & _ & E)
           | (r' & msg & [= <-] & _ & _ & _ & _ & E)]]]];
      simpl in *; try congruence; rewrite E in Hrun;
      injection Hrun as <-; simpl; read_store.
Qed.

End Expiry.

(** ** [get_job_status] and [get_result] *)

Section StatusReader.
Context `{Runtime}.

Lemma exists_run (w : world) (k : string) :
  Cmd.exists_ k w
  = (Ok (bool_decide (is_Some (lookup_live (clock w) (redis w) k))), w).
Proof. reflexivity. Qed.

(** A record that is not there: [get_job_status] returns [None]. *)
Lemma get_job_status_absent (w : world) (job_id : string) :
  lookup_live (clock w) (redis w) (job_key job_id) = None →
  get_job_status job_id w = (Ok None, w).
Proof.
  intros Hl. unfold get_job_status, bind. rewrite exists_run, Hl.
  rewrite bool_decide_eq_false_2 by (by intros [? ?]). reflexivity.
Qed.

(** A live record whose status is not [completed]: the hash, as it is. *)
Lemma get_job_status_live (w : world) (job_id : string)
    (h : gmap string string) (ttl : option Z) :
  lookup_live (clock w) (redis w) (job_key job_id) = Some (Entry (RHash h) ttl) →
  h !! "status" ≠ Some "completed" →
  get_job_status job_id w = (Ok (Some (PStr <$> h)), w).
Proof.
  intros Hl Hst. unfold get_job_status, bind. rewrite exists_run, Hl.
  rewrite bool_decide_eq_true_2 by eauto. simpl.
  unfold Cmd.hgetall. rewrite Hl. simpl.
  rewrite lookup_fmap. destruct (h !! "status") as [s|] eqn:E; [|done].
  simpl. destruct (String.eqb_spec s "completed"); [congruence | done].
Qed.

Lemma fmap_PStr_nonempty (h : gmap string string) (f v : string) :
  h !! f = Some v → dict_falsy (Some (PStr <$> h)) = false.
Proof.
  intros Hf. unfold dict_falsy. apply bool_decide_eq_false_2.
  intros E. apply fmap_empty_inv in E. subst h. by rewrite lookup_empty in Hf.
Qed.

(** C10: a job whose stored status is [completed] while its result record
    is absent (or expired).  [get_job_status] returns the job's metadata
    with that status and attaches no clinical summary; it neither reports
    not-found nor raises.  [get_result] turns this into a response with
    status [COMPLETED] and no clinical summary, provided the stored
    timestamps are ones pydantic accepts. *)
Theorem get_job_status_completed_without_result (w : world) (job_id : string)
    (h : gmap string string) (ttl : option Z) :
  lookup_live (clock w) (redis w) (job_key job_id) = Some (Entry (RHash h) ttl) →
  h !! "status" = Some "completed" →
  lookup_live (clock w) (redis w) (result_key job_id) = None →
  get_job_status job_id w = (Ok (Some (PStr <$> h)), w) ∧
  (∀ created completed,
     h !! "clinical_summary" = None →
     validate_opt_datetime (PStr <$> h !! "created_at") = Some created →
     validate_opt_datetime (PStr <$> h !! "completed_at") = Some completed →
     get_result job_id w
     = (Ok (mkResultResponse job_id COMPLETED None (h !! "error")
              created completed), w)).
Proof.
  intros Hl Hst Hr.
  assert (E : get_job_status job_id w = (Ok (Some (PStr <$> h)), w)).
  { unfold get_job_status, bind. rewrite exists_run, Hl.
    rewrite bool_decide_eq_true_2 by eauto. simpl.
    unfold Cmd.hgetall. rewrite Hl. simpl.
    rewrite lookup_fmap, Hst. simpl.
    unfold Cmd.get. by rewrite Hr. }
  split; [exact E|].
  intros created completed Hcs Hcr Hco.
  unfold get_result, try_except, bind. rewrite E.
  rewrite (fmap_PStr_nonempty h _ _ Hst). simpl.
  rewrite !lookup_fmap, Hst. simpl.
  rewrite Hcr, Hco. simpl.
  rewrite Hcs. simpl.
  by destruct (h !! "error").
Qed.

End StatusReader.

(** ** [process_clinical_job], step by step *)

Section WorkerRun.
Context `{Runtime}.
Variable agent : ClinicalAgent.

Lemma error_message_nonempty (e : exn) : error_message e ≠ "".
Proof. unfold error_message. simpl. discriminate. Qed.

(** The handler records the failure and re-raises the same exception. *)
Lemma record_failure_run (w : world) (job_id : string) (e : exn) :
  hash_slot (clock w) (redis w) (job_key job_id) →
  record_failure job_id e w = (Raise e, failed_world job_id (error_message e) w).
Proof.
  intros Hs. unfold record_failure, bind.
  rewrite update_job_status_error; [done | done | done |].
  apply error_message_nonempty.
Qed.

Lemma get_job_status_frame (w : world) (job_id : string) :
  snd (get_job_status job_id w) = w.
Proof.
  unfold get_job_status, bind. rewrite exists_run.
  destruct (bool_decide _); simpl; [|done].
  unfold Cmd.hgetall.
  destruct (lookup_live (clock w) (redis w) (job_key job_id))
    as [[[doc|h] ttl]|]; simpl; try done.
  destruct (get_eq_str _ _); [|done]. unfold Cmd.get.
  by destruct (lookup_live (clock w) (redis w) (result_key job_id))
    as [[[doc'|h'] ttl']|].
Qed.

(** The whole function, unfolded along its control flow. *)
Lemma process_clinical_job_run (w : world) (job_id : string) :
  hash_slot (clock w) (redis w) (job_key job_id) →
  process_clinical_job agent job_id w
  = match fst (get_job_status job_id w) with
    | Raise e => record_failure job_id e w
    | Ok job_data =>
        if dict_falsy job_data then
          record_failure job_id
            (ValueError ("Trabajo " +:+ job_id +:+ " no encontrado")) w
        else
          let w1 := set_redis (db_hset (clock w) (job_key job_id)
                                 "status" "processing" (redis w)) w in
          match resolve_and_infer agent (default ∅ job_data) w1 with
          | (Raise e, w2) => record_failure job_id e w2
          | (Ok result_dict, w2) =>
              match update_job_status job_id "completed"
                      (Some result_dict) None w2 with
              | (Ok _, w3) => (Ok result_dict, w3)
              | (Raise e, w3) => record_failure job_id e w3
              end
          end
    end.
Proof.
  intros Hs. unfold process_clinical_job, try_except.
  unfold bind at 1.
  pose proof (get_job_status_frame w job_id) as Hf.
  destruct (get_job_status job_id w) as [[jd|e] w'] eqn:E; simpl in *; subst w';
    [|reflexivity].
  destruct (dict_falsy jd); [reflexivity|].
  unfold bind at 1. rewrite update_job_status_plain by done. cbv zeta.
  set (w1 := set_redis _ w).
  unfold resolve_and_infer, bind.
  destruct (initialize_agent agent w1) as [[[]|e] w2]; [|reflexivity].
  destruct (truthy_opt (default ∅ jd !! "audio_filename")
            && negb (truthy_opt (default ∅ jd !! "text"))).
  - destruct (call (transcribe_audio agent _) w2) as [[t|e] w3];
      [|reflexivity].
    unfold ret, raise. cbv beta iota.
    destruct (negb (truthy_opt (Some (PStr t)))); [reflexivity|].
    destruct (call (process_clinical_text agent _) w3) as [[r|e] w4];
      [|reflexivity].
    destruct (update_job_status job_id "completed" (Some r) None w4)
      as [[[]|e] w5]; reflexivity.
  - unfold ret, raise. cbv beta iota.
    destruct (negb (truthy_opt (default ∅ jd !! "text"))); [reflexivity|].
    destruct (call (process_clinical_text agent _) w2) as [[r|e] w4];
      [|reflexivity].
    destruct (update_job_status job_id "completed" (Some r) None w4)
      as [[[]|e] w5]; reflexivity.
Qed.

End WorkerRun.

(** ** Claims about [process_clinical_job] *)

Section WorkerClaims.
Context `{Runtime}.
Variable agent : ClinicalAgent.

(** Loading the agent and calling the collaborators leaves Redis alone;
    only time passes. *)
Local Ltac solve_frame := repeat split; try reflexivity; simpl; lia.

Lemma resolve_and_infer_frame (job_data : gmap string pyval) (w : world) :
  let w' := snd (resolve_and_infer agent job_data w) in
  redis w' = redis w ∧ trace w' = trace w ∧ clock w ≤ clock w' ∧
  rq w' = rq w ∧ uuid_draws w' = uuid_draws w.
Proof.
  unfold resolve_and_infer, initialize_agent.
  unfold bind, call, set_clinical_agent, ret, raise.
  repeat (match goal with
          | |- context [if ?c then _ else _] => destruct c
          | |- context [match outcome ?r with _ => _ end] => destruct (outcome r)
          end; simpl);
    solve_frame.
Qed.

(** A hash written at the job key stays a hash slot at every later instant
    and under the writes of the result key. *)
Lemma hash_slot_later (t t' : Z) (db : gmap string entry) (k : string) :
  t ≤ t' → hash_slot t db k → hash_slot t' db k.
Proof.
  unfold hash_slot. intros Ht Hs.
  destruct (lookup_live t' db k) as [[[doc|h] ttl]|] eqn:E; try done.
  apply lookup_live_Some in E as [E L].
  assert (L' : live t (Entry (RString doc) ttl) = true).
  { unfold live in *. simpl in *. destruct ttl as [x|]; [|done].
    apply Z.ltb_lt in L. apply Z.ltb_lt. lia. }
  by rewrite (proj2 (lookup_live_Some t db k _) (conj E L')) in Hs.
Qed.

Lemma hash_slot_set_redis (w : world) (job_id f v : string) (t' : Z) :
  clock w ≤ t' →
  hash_slot t' (db_hset (clock w) (job_key job_id) f v (redis w)) (job_key job_id).
Proof.
  intros Ht. eapply hash_slot_later; [exact Ht | apply hash_slot_db_hset].
Qed.

Lemma failed_world_read (w : world) (job_id msg : string) :
  clock (failed_world job_id msg w) = clock w ∧
  job_field (clock w) (redis (failed_world job_id msg w)) job_id "status"
  = Some "failed" ∧
  job_field (clock w) (redis (failed_world job_id msg w)) job_id "error"
  = Some msg ∧
  job_field (clock w) (redis (failed_world job_id msg w)) job_id "completed_at"
  = Some (isoformat (clock w)) ∧
  result_at (clock w) (redis (failed_world job_id msg w)) job_id
  = result_at (clock w) (redis w) job_id.
Proof.
  unfold failed_world, db_failed3, db_failed2, db_failed1. simpl.
  repeat split; read_store.
Qed.

(** The summary the repository's own agent returns is a [ClinicalSummary];
    its dump holds the [created_at] datetime, which [json.dumps] rejects. *)
Lemma model_dump_not_serialisable (c : ClinicalSummary) :
  truthy (model_dump c) = true ∧ json_safe (model_dump c) = false.
Proof. split; [reflexivity|]. simpl. by rewrite !andb_false_r. Qed.

(** Completing a job with such a dump: the status is flipped to
    [completed], then [TypeError] is raised and no result is stored. *)
Lemma update_job_status_model_dump (w : world) (job_id : string)
    (c : ClinicalSummary) :
  hash_slot (clock w) (redis w) (job_key job_id) →
  update_job_status job_id "completed" (Some (model_dump c)) None w
  = (Raise (TypeError "Object of type datetime is not JSON serializable"),
     set_redis (db_hset (clock w) (job_key job_id) "status" "completed" (redis w)) w).
Proof.
  intros Hs. destruct (model_dump_not_serialisable c) as [Ht Hj].
  by apply update_job_status_unserialisable.
Qed.

(** A normal return of the collaborator steps is a summary that the
    inference itself returned. *)
Lemma resolve_and_infer_inferred (job_data : gmap string pyval) (w w' : world)
    (r : pyval) :
  resolve_and_infer agent job_data w = (Ok r, w') →
  ∃ text, outcome (process_clinical_text agent text) = Ok r.
Proof.
  unfold resolve_and_infer, initialize_agent.
  unfold bind, call, set_clinical_agent, ret, raise.
  repeat (match goal with
          | |- context [if ?c then _ else _] => destruct c
          | |- context [match outcome ?r with _ => _ end] =>
              destruct (outcome r) eqn:?
          end; simpl);
    try (by intros [=]); intros [= E _]; eauto.
Qed.


(** C4 (as the code behaves): a job id whose record is not found is treated
    as a fault.  [process_clinical_job] raises [ValueError], and its
    handler writes status [failed], the error text and [completed_at] under
    that id, which creates a record that has no expiry; no other key
    changes, no collaborator runs, and the exception is re-raised. *)
Theorem process_clinical_job_not_found (w : world) (job_id : string) :
  lookup_live (clock w) (redis w) (job_key job_id) = None →
  let e := ValueError ("Trabajo " +:+ job_id +:+ " no encontrado") in
  ∃ w',
    process_clinical_job agent job_id w = (Raise e, w') ∧
    clock w' = clock w ∧
    job_hash (clock w') (redis w') job_id
    = Some (<["completed_at" := isoformat (clock w)]>
              (<["error" := error_message e]> {["status" := "failed"]})) ∧
    expiry_of (redis w') (job_key job_id) = Some None ∧
    (∀ k, k ≠ job_key job_id → redis w' !! k = redis w !! k).
Proof.
  intros Hl e.
  assert (Hs : hash_slot (clock w) (redis w) (job_key job_id))
    by (unfold hash_slot; by rewrite Hl).
  rewrite process_clinical_job_run by done.
  rewrite get_job_status_absent by done. simpl.
  rewrite record_failure_run by done.
  eexists. split; [reflexivity|].
  unfold failed_world, db_failed3, db_failed2, db_failed1. simpl.
  repeat split.
  - rewrite job_hash_db_hset. f_equal. f_equal.
    rewrite lookup_live_db_hset. simpl. f_equal.
    rewrite lookup_live_db_hset. simpl. rewrite Hl. simpl. apply insert_empty.
  - read_store. by rewrite Hl.
  - intros k Hk. unfold db_hset. by rewrite !lookup_insert_ne.
Qed.

End WorkerClaims.

(** ** Result and error along a job's lifecycle *)

Lemma lookup_live_later (t t' : Z) (db : gmap string entry) (k : string) (e : entry) :
  t ≤ t' → lookup_live t' db k = Some e → lookup_live t db k = Some e.
Proof.
  intros Ht [E L]%lookup_live_Some. apply lookup_live_Some. split; [done|].
  unfold live in *. destruct (expire_at e) as [x|]; [|done].
  apply Z.ltb_lt in L. apply Z.ltb_lt. lia.
Qed.

Lemma job_field_later_None (t t' : Z) (db : gmap string entry) (job_id f : string) :
  t ≤ t' → job_field t db job_id f = None → job_field t' db job_id f = None.
Proof.
  intros Ht. unfold job_field, job_hash.
  destruct (lookup_live t' db (job_key job_id)) as [e|] eqn:E; [|done].
  by rewrite (lookup_live_later t t' db _ e Ht E).
Qed.

Lemma result_at_later_None (t t' : Z) (db : gmap string entry) (job_id : string) :
  t ≤ t' → result_at t db job_id = None → result_at t' db job_id = None.
Proof.
  intros Ht. unfold result_at.
  destruct (lookup_live t' db (result_key job_id)) as [e|] eqn:E; [|done].
  by rewrite (lookup_live_later t t' db _ e Ht E).
Qed.

(** A field that was absent stays absent over an [HSET] of another field,
    read at any instant. *)
Lemma job_field_db_hset_None (t t' : Z) (db : gmap string entry)
    (job_id f v f' : string) :
  f ≠ f' → job_field t db job_id f' = None →
  job_field t' (db_hset t (job_key job_id) f v db) job_id f' = None.
Proof.
  intros Hf Hn. unfold job_field, job_hash, db_hset.
  rewrite lookup_live_insert. destruct (live t' _); [|done].
  rewrite lookup_insert_ne by done. by rewrite slot_hash_lookup.
Qed.

Section Payload.
Context `{Runtime}.
Variable agent : ClinicalAgent.

Lemma quiet_later (job_id : string) (t t' : Z) (db : gmap string entry) :
  t ≤ t' → quiet job_id t db → quiet job_id t' db.
Proof.
  intros Ht [He Hr]. split;
    [by eapply job_field_later_None | by eapply result_at_later_None].
Qed.

(** Writing a status keeps the job quiet, whenever the store is read. *)
Lemma quiet_db_hset_status (job_id status : string) (t t' : Z)
    (db : gmap string entry) :
  t ≤ t' → quiet job_id t db →
  quiet job_id t' (db_hset t (job_key job_id) "status" status db).
Proof.
  intros Ht [He Hr]. split.
  - by apply job_field_db_hset_None.
  - rewrite result_at_db_hset. by eapply result_at_later_None.
Qed.

Local Ltac views :=
  unfold payload_exclusive, payload_settled, status_in, error_in, result_in;
  cbn [fst snd].

Local Ltac settle :=
  repeat split; intros; simplify_eq;
  repeat match goal with
         | H : _ ∨ _ |- _ => destruct H
         | H : is_Some None |- _ => destruct H as [? ?]
         end;
  simplify_eq; eauto.

(** A status write on a quiet job. *)
Lemma status_write_exclusive (job_id status : string) (t : Z)
    (db : gmap string entry) :
  quiet job_id t db →
  payload_exclusive job_id (t, db_hset t (job_key job_id) "status" status db).
Proof.
  intros [He Hr]. views. read_store. rewrite He, Hr. settle.
Qed.

(** The three writes of the handler on a quiet job. *)
Lemma failed_writes_payload (job_id msg : string) (t : Z) (db : gmap string entry) :
  msg ≠ "" → quiet job_id t db →
  payload_exclusive job_id (t, db_failed1 t job_id db) ∧
  payload_exclusive job_id (t, db_failed2 t job_id msg db) ∧
  payload_exclusive job_id (t, db_failed3 t job_id msg db) ∧
  payload_settled job_id (t, db_failed3 t job_id msg db).
Proof.
  intros Hm [He Hr]. unfold db_failed3, db_failed2, db_failed1.
  repeat apply conj; views; read_store; rewrite ?He, ?Hr; settle.
Qed.

(** The three writes of a completion with a serialisable result. *)
Lemma completed_writes_payload (job_id : string) (r : pyval) (t : Z)
    (db : gmap string entry) :
  quiet job_id t db →
  let db1 := db_hset t (job_key job_id) "status" "completed" db in
  let db2 := db_setex t (result_key job_id) (timedelta_hours 24) r db1 in
  let db3 := db_hset t (job_key job_id) "completed_at" (isoformat t) db2 in
  payload_exclusive job_id (t, db1) ∧
  payload_exclusive job_id (t, db2) ∧
  payload_exclusive job_id (t, db3) ∧
  payload_settled job_id (t, db3).
Proof.
  intros [He Hr]. cbv zeta.
  repeat apply conj; views; read_store;
    rewrite ?result_at_db_setex by done; rewrite ?He, ?Hr; settle.
Qed.

Lemma payload_run_after (job_id : string) (w w1 w' : world)
    (mid : list (Z * gmap string entry)) :
  trace w1 = (mid ++ trace w)%list →
  Forall (payload_exclusive job_id) mid →
  payload_run job_id w1 w' → payload_run job_id w w'.
Proof.
  intros Ht Hm (new & Hn & Hf & Hs). exists (new ++ mid)%list.
  split; [by rewrite Hn, Ht, app_assoc|].
  split; [by apply Forall_app | done].
Qed.

Lemma record_failure_payload (job_id : string) (e : exn) (w : world) :
  hash_slot (clock w) (redis w) (job_key job_id) →
  quiet job_id (clock w) (redis w) →
  payload_run job_id w (snd (record_failure job_id e w)).
Proof.
  intros Hs Hq. rewrite record_failure_run by done. simpl.
  destruct (failed_writes_payload job_id (error_message e) (clock w) (redis w)
              (error_message_nonempty e) Hq) as (H1 & H2 & H3 & H4).
  eexists [_; _; _]. split; [reflexivity|]. split; [|exact H4].
  repeat (apply List.Forall_cons; [assumption|]). apply List.Forall_nil.
Qed.

Lemma resolve_and_infer_truthy (job_data : gmap string pyval) (w w' : world)
    (r : pyval) :
  dumps_nonempty agent →
  resolve_and_infer agent job_data w = (Ok r, w') → truthy r = true.
Proof.
  intros Hd E. destruct (resolve_and_infer_inferred agent _ _ _ _ E) as [text Ht].
  by eapply Hd.
Qed.

(** The worker's run on a job that has neither error nor result yet. *)
Lemma process_clinical_job_payload (job_id : string) (w : world) :
  dumps_nonempty agent →
  hash_slot (clock w) (redis w) (job_key job_id) →
  quiet job_id (clock w) (redis w) →
  payload_run job_id w (snd (process_clinical_job agent job_id w)).
Proof.
  intros Hd Hs Hq. rewrite process_clinical_job_run by done.
  destruct (fst (get_job_status job_id w)) as [jd|e0];
    [|by apply record_failure_payload].
  destruct (dict_falsy jd); [by apply record_failure_payload|].
  cbv zeta. set (db1 := db_hset _ _ _ _ _). set (w1 := set_redis db1 w).
  pose proof (resolve_and_infer_frame agent (default ∅ jd) w1)
    as (Hdb & Htr & Hclk & _).
  pose proof (resolve_and_infer_truthy (default ∅ jd) w1) as Htruthy.
  destruct (resolve_and_infer agent (default ∅ jd) w1) as [[r|e0] w2];
    simpl in Hdb, Htr, Hclk.
  - assert (Hs2 : hash_slot (clock w2) (redis w2) (job_key job_id))
      by (rewrite Hdb; by apply hash_slot_set_redis).
    assert (Hq2 : quiet job_id (clock w2) (redis w2))
      by (rewrite Hdb; by apply quiet_db_hset_status).
    assert (Hr : truthy r = true) by (by eapply Htruthy).
    apply (payload_run_after job_id w w2 _ [(clock w, db1)]);
      [by rewrite Htr | apply List.Forall_cons; [by apply status_write_exclusive | apply List.Forall_nil] |].
    destruct (json_safe r) eqn:Hj.
    + rewrite update_job_status_result by done. simpl.
      destruct (completed_writes_payload job_id r (clock w2) (redis w2) Hq2)
        as (H1 & H2 & H3 & H4).
      eexists [_; _; _]. split; [reflexivity|]. split; [|exact H4].
      repeat (apply List.Forall_cons; [assumption|]). apply List.Forall_nil.
    + rewrite update_job_status_unserialisable by done.
      set (w3 := set_redis _ w2).
      apply (payload_run_after job_id w2 w3 _ [(clock w2, redis w3)]);
        [reflexivity | apply List.Forall_cons; [by apply status_write_exclusive | apply List.Forall_nil] |].
      apply record_failure_payload; simpl.
      * apply hash_slot_db_hset.
      * apply quiet_db_hset_status; [lia | done].
  - apply (payload_run_after job_id w w2 _ [(clock w, db1)]);
      [by rewrite Htr | apply List.Forall_cons; [by apply status_write_exclusive | apply List.Forall_nil] |].
    apply record_failure_payload.
    + rewrite Hdb. by apply hash_slot_set_redis.
    + rewrite Hdb. by apply quiet_db_hset_status.
Qed.

(** C8 (as the code behaves): along the whole lifecycle of a job, from
    its submission under a fresh id through any time in the queue to the
    end of the worker's run, every store the code writes keeps result and
    error mutually exclusive and both absent while the status is [pending]
    or [processing]; a result occurs only under [completed], an error only
    under [failed] and is never empty.  When the run has ended, a [failed]
    record carries a non-empty error and no result, and a [completed]
    record carries a result and no error. *)
Theorem lifecycle_payload (w : world) (job_data : job_input) (dt : N) :
  dumps_nonempty agent →
  lookup_live (clock w) (redis w) (job_key (uuid4 (uuid_draws w))) = None →
  lookup_live (clock w) (redis w) (result_key (uuid4 (uuid_draws w))) = None →
  payload_run (uuid4 (uuid_draws w)) w (snd (lifecycle agent job_data dt w)).
Proof.
  intros Hd Hj Hr. set (job_id := uuid4 (uuid_draws w)) in *.
  assert (Hs : hash_slot (clock w) (redis w) (job_key job_id))
    by (unfold hash_slot; by rewrite Hj).
  unfold lifecycle, bind. rewrite (enqueue_job_run w job_data Hs). cbv zeta.
  fold job_id. rewrite Hj. unfold sleep.
  set (m := job_metadata job_id (clock w) job_data).
  set (db1 := <[job_key job_id := enqueued_entry (clock w) m None (slot_ttl None)]>
                (redis w)).
  set (db2 := <[job_key job_id := _]> db1).
  set (w2 := advance dt _).
  assert (Hm_err : m !! "error" = None) by (unfold m, job_metadata; by simplify_map_eq).
  assert (Hm_st : m !! "status" = Some "pending")
    by (unfold m, job_metadata; by simplify_map_eq).
  assert (Hres : ∀ t' db, clock w ≤ t' →
            result_at t' (<[job_key job_id := db]> (redis w)) job_id = None).
  { intros t' e Ht'. unfold result_at. rewrite lookup_live_insert_ne by done.
    destruct (lookup_live t' (redis w) (result_key job_id)) as [e'|] eqn:E; [|done].
    by rewrite (lookup_live_later _ _ _ _ _ Ht' E) in Hr. }
  assert (Hfield : ∀ t' ttl db f,
            job_field t' (<[job_key job_id := enqueued_entry (clock w) m None ttl]> db)
              job_id f = (if live t' (Entry (RHash (m ∪ ∅)) ttl) then m !! f else None)).
  { intros t' ttl db f. unfold job_field, job_hash, enqueued_entry.
    rewrite lookup_live_insert. simpl. destruct (live t' _); [|done].
    by rewrite (right_id_L ∅ (∪)). }
  assert (Hclk : clock w ≤ clock w2) by (simpl; lia).
  apply (payload_run_after job_id w w2 _ [(clock w, db2); (clock w, db1)]);
    [reflexivity | |].
  - assert (X : ∀ ttl db,
              live (clock w) (Entry (RHash (m ∪ ∅)) ttl) = true →
              result_at (clock w) (<[job_key job_id := enqueued_entry (clock w) m None ttl]> db) job_id = None →
              payload_exclusive job_id
                (clock w, <[job_key job_id := enqueued_entry (clock w) m None ttl]> db)).
    { intros ttl db L R.
      unfold payload_exclusive, status_in, error_in, result_in. cbn [fst snd].
      rewrite !Hfield, L, Hm_err, Hm_st, R.
      repeat split; intros; simplify_eq; eauto.
      by destruct H0 as [? ?]. }
    apply List.Forall_cons; [|apply List.Forall_cons; [|apply List.Forall_nil]].
    + apply X; [apply live_24h|]. unfold db2, result_at.
      rewrite lookup_live_insert_ne by done. apply (Hres (clock w)). lia.
    + apply X; [done|]. apply (Hres (clock w)). lia.
  - apply process_clinical_job_payload; [done | |].
    + unfold hash_slot. simpl. unfold db2, enqueued_entry.
      rewrite lookup_live_insert. by destruct (live _ _).
    + split; simpl.
      * unfold db2. rewrite Hfield. by destruct (live _ _).
      * unfold db2, result_at. rewrite lookup_live_insert_ne by done.
        apply (Hres (clock w2)). done.
Qed.

End Payload.

(** ** The FHIR round trip *)

Section FhirRoundTrip.
Context `{Library}.

Lemma opt_truthy_Some (o : option string) :
  opt_truthy o = true → o = Some (or_empty o).
Proof. destruct o as [s|]; [done|]. by cbv. Qed.

Lemma keep_nonempty_alt (o : option string) :
  keep_nonempty o = if opt_truthy o then Some (or_empty o) else None.
Proof.
  unfold keep_nonempty. destruct (opt_truthy o) eqn:E; [|done].
  by apply opt_truthy_Some.
Qed.

Lemma Forall_imap {A B} (P : B → Prop) (f : nat → A → B) (l : list A) :
  (∀ i x, P (f i x)) → Forall P (imap f l).
Proof.
  revert f. induction l as [|x l IH]; intros f Hf; [constructor|].
  rewrite imap_cons. constructor; [apply Hf|]. apply IH. intros i y. apply Hf.
Qed.

(** *** The resource type of each entry *)

Lemma typed_patient (c : ClinicalSummary) : typed_entry "Patient" (patient_resource c).
Proof.
  unfold typed_entry, patient_resource.
  destruct (int_truthy _), (opt_truthy _); eexists; reflexivity.
Qed.

Lemma typed_condition (i : nat) (c : string) :
  typed_entry "Condition" (condition_resource i c).
Proof. eexists. reflexivity. Qed.

Lemma typed_observation (i : nat) (s : Symptom) :
  typed_entry "Observation" (observation_resource i s).
Proof.
  unfold typed_entry, observation_resource.
  destruct (opt_truthy (duration s)), (opt_truthy (severity s));
    eexists; reflexivity.
Qed.

Lemma typed_impression (c : ClinicalSummary) :
  typed_entry "ClinicalImpression" (clinical_impression c).
Proof. eexists. reflexivity. Qed.

(** *** Entries of another type are skipped *)

Lemma find_patient_skip (t : string) (l es : list pyval) :
  t ≠ "Patient" → Forall (typed_entry t) l →
  find_patient (l ++ es) = find_patient es.
Proof.
  intros Hne. induction 1 as [|e l [r Hr] _ IH]; [done|].
  simpl. rewrite Hr. simpl. by destruct (String.eqb_spec t "Patient").
Qed.

Lemma collect_symptoms_skip (t : string) (l es : list pyval) :
  t ≠ "Observation" → Forall (typed_entry t) l →
  collect_symptoms (l ++ es) = collect_symptoms es.
Proof.
  intros Hne. induction 1 as [|e l [r Hr] _ IH]; [done|].
  simpl. rewrite Hr. simpl. by destruct (String.eqb_spec t "Observation").
Qed.

Lemma collect_conditions_skip (t : string) (l es : list pyval) :
  t ≠ "Condition" → Forall (typed_entry t) l →
  collect_conditions (l ++ es) = collect_conditions es.
Proof.
  intros Hne. induction 1 as [|e l [r Hr] _ IH]; [done|].
  simpl. rewrite Hr. simpl. by destruct (String.eqb_spec t "Condition").
Qed.

Lemma find_narrative_skip (t : string) (l es : list pyval) :
  t ≠ "ClinicalImpression" → Forall (typed_entry t) l →
  find_narrative (l ++ es) = find_narrative es.
Proof.
  intros Hne. induction 1 as [|e l [r Hr] _ IH]; [done|].
  simpl. rewrite Hr. simpl. by destruct (String.eqb_spec t "ClinicalImpression").
Qed.

(** *** Entries of the right type are read back *)

Lemma collect_symptoms_observation (i : nat) (s : Symptom) (es : list pyval) :
  collect_symptoms (observation_resource i s :: es)
  = rbind (collect_symptoms es) (fun rest => Ok (round_symptom s :: rest)).
Proof.
  unfold observation_resource, round_symptom. rewrite !keep_nonempty_alt.
  by destruct (opt_truthy (duration s)), (opt_truthy (severity s)).
Qed.

Lemma collect_symptoms_observations (f : nat → Symptom → pyval)
    (l : list Symptom) (es : list pyval) :
  (∀ i s, ∃ j, f i s = observation_resource j s) →
  collect_symptoms (imap f l ++ es)
  = rbind (collect_symptoms es)
          (fun rest => Ok (map round_symptom l ++ rest)%list).
Proof.
  revert f. induction l as [|s l IH]; intros f Hf.
  - simpl. by destruct (collect_symptoms es).
  - rewrite imap_cons, <- app_comm_cons.
    destruct (Hf 0%nat s) as [j ->]. rewrite collect_symptoms_observation.
    rewrite IH by (intros i s'; apply Hf).
    by destruct (collect_symptoms es).
Qed.

Lemma collect_conditions_condition (i : nat) (c : string) (es : list pyval) :
  c ≠ "" →
  collect_conditions (condition_resource i c :: es)
  = rbind (collect_conditions es) (fun rest => Ok (PStr c :: rest)).
Proof.
  intros Hc. simpl. destruct (String.eqb_spec c ""); [done|]. reflexivity.
Qed.

Lemma collect_conditions_conditions (f : nat → string → pyval)
    (l : list string) (es : list pyval) :
  (∀ i c, ∃ j, f i c = condition_resource j c) →
  Forall (λ c, c ≠ "") l →
  collect_conditions (imap f l ++ es)
  = rbind (collect_conditions es) (fun rest => Ok (map PStr l ++ rest)%list).
Proof.
  intros Hf Hl. revert f Hf. induction Hl as [|c l Hc _ IH]; intros f Hf.
  - simpl. by destruct (collect_conditions es).
  - rewrite imap_cons, <- app_comm_cons.
    destruct (Hf 0%nat c) as [j ->]. rewrite collect_conditions_condition by done.
    rewrite IH by (intros i c'; apply Hf).
    by destruct (collect_conditions es).
Qed.

Lemma validate_str_list_strings (l : list string) :
  validate_str_list (map PStr l) = Ok l.
Proof. induction l as [|s l IH]; [done|]. simpl. by rewrite IH. Qed.

(** *** The patient *)

Lemma read_patient_round (c : ClinicalSummary) (rest : list pyval) :
  find_patient rest = Ok None →
  ∃ age gender,
    read_patient ((if int_truthy (patient_age c) || opt_truthy (patient_gender c)
                   then [patient_resource c] else []) ++ rest)
    = Ok (age, gender) ∧
    is_Some (match validate_optional_int age with Ok a => Some a | _ => None end) ∧
    is_Some (match validate_optional_str gender with Ok g => Some g | _ => None end).
Proof.
  intros Hrest. unfold read_patient, patient_resource.
  destruct (patient_age c) as [n|]; simpl int_truthy;
    [destruct (negb (n =? 0))|];
    destruct (opt_truthy (patient_gender c)); simpl; rewrite ?Hrest; simpl;
    eexists _, _; (split; [reflexivity|]); simpl; eauto.
Qed.

(** *** The whole bundle *)

Lemma fhir_round_trip_full (c : ClinicalSummary) (now : Z) :
  Forall (λ x, x ≠ "") (relevant_conditions c) →
  ∃ age gender,
    fhir_to_clinical_summary (clinical_summary_to_fhir c) now
    = Ok (mkClinicalSummary age gender (map round_symptom (symptoms c)) []
            (relevant_conditions c) (narrative_summary c) now).
Proof.
  intros Hc. unfold fhir_to_clinical_summary.
  change (py_get "entry" (PList []) (clinical_summary_to_fhir c))
    with (Ok (PList (bundle_entries c))).
  cbn [rbind py_iter]. unfold bundle_entries.
  set (P := if int_truthy (patient_age c) || opt_truthy (patient_gender c)
           then [patient_resource c] else @nil pyval).
  set (C := imap condition_resource (relevant_conditions c)).
  set (O := imap observation_resource (symptoms c)).
  set (I := [clinical_impression c]).
  assert (HP : Forall (typed_entry "Patient") P)
    by (unfold P; destruct (_ || _); repeat constructor; apply typed_patient).
  assert (HC : Forall (typed_entry "Condition") C)
    by (apply Forall_imap; intros; apply typed_condition).
  assert (HO : Forall (typed_entry "Observation") O)
    by (apply Forall_imap; intros; apply typed_observation).
  destruct (read_patient_round c (C ++ O ++ I)) as (age & gender & E & [a Ha] & [g Hg]).
  { rewrite (find_patient_skip "Condition") by done.
    by rewrite (find_patient_skip "Observation") by done. }
  fold P in E. rewrite E. cbn [rbind].
  rewrite (collect_symptoms_skip "Patient") by done.
  rewrite (collect_symptoms_skip "Condition") by done.
  unfold O at 1. rewrite collect_symptoms_observations by eauto.
  change (collect_symptoms I) with (Ok (@nil Symptom)). cbn [rbind].
  rewrite (collect_conditions_skip "Patient") by done.
  unfold C at 1. rewrite collect_conditions_conditions by eauto.
  rewrite (collect_conditions_skip "Observation") by done.
  change (collect_conditions I) with (Ok (@nil pyval)). cbn [rbind].
  rewrite (find_narrative_skip "Patient") by done.
  rewrite (find_narrative_skip "Condition") by done.
  rewrite (find_narrative_skip "Observation") by done.
  change (find_narrative I) with (Ok (PStr (narrative_summary c))). cbn [rbind].
  rewrite !app_nil_r, validate_str_list_strings.
  cbn [fst snd].
  destruct (validate_optional_int age) as [a'|]; [|done].
  destruct (validate_optional_str gender) as [g'|]; [|done].
  simpl. eauto.
Qed.

(** C9 (as the code behaves): for a summary whose relevant conditions are
    all non-empty, the round trip through the FHIR bundle succeeds and
    preserves the narrative summary, the relevant conditions and, in order,
    every symptom's name; a symptom's duration and severity come back
    unchanged unless they were the empty string, which comes back as
    [None]; the risk factors always come back empty. *)
Theorem fhir_round_trip (c : ClinicalSummary) (now : Z) :
  Forall (λ x, x ≠ "") (relevant_conditions c) →
  ∃ c',
    fhir_to_clinical_summary (clinical_summary_to_fhir c) now = Ok c' ∧
    narrative_summary c' = narrative_summary c ∧
    relevant_conditions c' = relevant_conditions c ∧
    map name (symptoms c') = map name (symptoms c) ∧
    map duration (symptoms c') = map (λ s, keep_nonempty (duration s)) (symptoms c) ∧
    map severity (symptoms c') = map (λ s, keep_nonempty (severity s)) (symptoms c) ∧
    risk_factors c' = [].
Proof.
  intros Hc. destruct (fhir_round_trip_full c now Hc) as (age & gender & ->).
  eexists. split; [reflexivity|]. simpl.
  repeat split; rewrite map_map; reflexivity.
Qed.

End FhirRoundTrip.

(** ** The claims on concrete inputs *)

Section Examples.

#[local] Existing Instance sample_library.


(** C1: the worker's own run.  The store logged by the first write of the
    completion shows status [completed] without a result record. *)
Lemma update_job_status_status_before_result_witness :
  hash_slot (clock w_inferred) (redis w_inferred) (job_key "uuid-0") ∧
  result_at (clock w_inferred) (redis w_inferred) "uuid-0" = None ∧
  ∃ db rest,
    observed (@update_job_status sample_runtime "uuid-0" "completed"
                (Some sample_result) None) w_inferred
    = (clock w_inferred, db) :: rest ∧
    job_field (clock w_inferred) db "uuid-0" "status" = Some "completed" ∧
    result_at (clock w_inferred) db "uuid-0" = None.
Proof.
  split; [by vm_compute|]. split; [by vm_compute|].
  apply (@update_job_status_status_before_result sample_runtime);
    by vm_compute.
Defined.

(** The same on the worker's whole run: of the four stores it writes for
    the sample job, the second shows [completed] without a result. *)
Lemma worker_flips_status_before_result :
  ∃ snap,
    observed (@process_clinical_job sample_runtime sample_agent "uuid-0") w_queued
    !! 1%nat = Some snap ∧
    status_in "uuid-0" snap = Some "completed" ∧
    result_in "uuid-0" snap = None.
Proof. eexists. split; [reflexivity|]. by vm_compute. Qed.

(** With a summary dumped by [model_dump()], the status is flipped to
    [completed], [json.dumps] then fails on [created_at], no result is
    ever stored and the job ends [failed]. *)
Lemma pydantic_summary_job_ends_failed :
  let '(r, w') := @process_clinical_job sample_runtime pydantic_agent "uuid-0"
                    w_queued in
  r = Raise (TypeError "Object of type datetime is not JSON serializable") ∧
  map (status_in "uuid-0")
      (observed (@process_clinical_job sample_runtime pydantic_agent "uuid-0")
                w_queued)
  = [Some "processing"; Some "completed"; Some "failed"; Some "failed";
     Some "failed"] ∧
  job_field (clock w') (redis w') "uuid-0" "status" = Some "failed" ∧
  result_at (clock w') (redis w') "uuid-0" = None.
Proof. by vm_compute. Qed.



(** C3, refuted: a submission that carries both a text and an audio file
    is accepted, and a job id is issued for it. *)
Lemma submit_job_accepts_text_and_audio :
  let '(r, w') := @submit_job sample_runtime (Some "Paciente con fiebre")
                    (Some sample_upload) w_empty in
  (∃ message, r = Ok (mkJobResponse "uuid-0" PENDING message)) ∧
  job_field (clock w') (redis w') "uuid-0" "text" = Some "Paciente con fiebre" ∧
  job_field (clock w') (redis w') "uuid-0" "audio_filename" = Some "consulta.wav" ∧
  rq w' = [RqTask "app.worker.process_clinical_job" "uuid-0" 300].
Proof. vm_compute. repeat split; eauto. Qed.

(** C3 on an empty database: nothing submitted is refused, an audio file alone
    is accepted. *)
Lemma submit_job_at_least_one_witness :
  hash_slot (clock w_empty) (redis w_empty)
    (job_key (@uuid4 sample_runtime (uuid_draws w_empty))) ∧
  @submit_job sample_runtime None None w_empty
  = (Raise (HTTPException 400 "Debe proporcionar texto o archivo de audio"),
     w_empty) ∧
  ∃ w',
    @submit_job sample_runtime None (Some sample_upload) w_empty
    = (Ok (mkJobResponse "uuid-0" PENDING
             "Trabajo encolado exitosamente. Use /result/{job_id} para consultar el resultado."),
       w') ∧
    job_field (clock w') (redis w') "uuid-0" "audio_filename"
    = Some "consulta.wav".
Proof.
  split; [by vm_compute|]. split.
  - apply (@submit_job_at_least_one sample_runtime w_empty None None).
    by vm_compute.
  - destruct (@submit_job_at_least_one sample_runtime w_empty None
                (Some sample_upload)) as (w' & E & _ & _ & _ & Ha & _);
      [by vm_compute|].
    exists w'. split; [exact E | exact Ha].
Defined.

(** C4, refuted: for a job id without a record the worker does write: a
    record with status [failed] appears under that id. *)
Lemma process_clinical_job_unknown_id_writes :
  lookup_live (clock w_empty) (redis w_empty) (job_key "ghost") = None ∧
  let w' := snd (@process_clinical_job sample_runtime sample_agent "ghost"
                   w_empty) in
  job_field (clock w') (redis w') "ghost" "status" = Some "failed" ∧
  redis w' ≠ redis w_empty.
Proof.
  split; [reflexivity|]. split; [by vm_compute|].
  intros E. apply (f_equal (λ db, from_option (λ _, true) false (db !! job_key "ghost"))) in E.
  vm_compute in E. discriminate.
Qed.

(** C4 on an empty database: the record the handler creates never expires. *)
Lemma process_clinical_job_not_found_witness :
  lookup_live (clock w_empty) (redis w_empty) (job_key "ghost") = None ∧
  ∃ w',
    @process_clinical_job sample_runtime sample_agent "ghost" w_empty
    = (Raise (ValueError "Trabajo ghost no encontrado"), w') ∧
    expiry_of (redis w') (job_key "ghost") = Some None.
Proof.
  split; [reflexivity|].
  destruct (@process_clinical_job_not_found sample_runtime sample_agent
              w_empty "ghost" eq_refl) as (w' & E & _ & _ & Hx & _).
  exists w'. split; [exact E | exact Hx].
Defined.


(** C6, refuted: the job was created at second 1000 and completed at
    second 1100.  Its record expires at 87400, the result record at 87500:
    at 87400 the metadata is gone while the result is still readable. *)
Lemma result_outlives_job_record :
  expiry_of (redis w_completed) (job_key "uuid-0") = Some (Some 87400) ∧
  expiry_of (redis w_completed) (result_key "uuid-0") = Some (Some 87500) ∧
  job_hash 87400 (redis w_completed) "uuid-0" = None ∧
  result_at 87400 (redis w_completed) "uuid-0" = Some sample_result.
Proof. by vm_compute. Qed.

(** C6 on the sample job: after the worker's two writes the record still
    expires at second 87400. *)
Lemma expiry_fixed_at_creation_witness :
  hash_slot (clock w_empty) (redis w_empty)
    (job_key (@uuid4 sample_runtime (uuid_draws w_empty))) ∧
  total_delay sample_writes < timedelta_hours 24 ∧
  expiry_of (redis (@run_writes sample_runtime "uuid-0" sample_writes w_pending))
            (job_key "uuid-0")
  = Some (Some 87400).
Proof.
  split; [by vm_compute|]. split; [by vm_compute|].
  apply (@expiry_fixed_at_creation sample_runtime w_empty sample_input
           sample_writes); by vm_compute.
Defined.

(** C7, refuted: the generator returns [uuid-0] a second time.  The second
    submission succeeds under that id and replaces the completed job's
    record: its status is [pending] again and its text is the new one. *)
Lemma enqueue_job_replaces_existing_record :
  job_field (clock w_completed) (redis w_completed) "uuid-0" "status"
  = Some "completed" ∧
  let '(r, w') := @enqueue_job colliding_runtime second_input w_completed in
  r = Ok "uuid-0" ∧
  job_field (clock w') (redis w') "uuid-0" "status" = Some "pending" ∧
  job_field (clock w') (redis w') "uuid-0" "text" = Some "Paciente con fiebre".
Proof. by vm_compute. Qed.

(** C7 on the colliding generator. *)
Lemma enqueue_job_overwrites_witness :
  hash_slot (clock w_completed) (redis w_completed)
    (job_key (@uuid4 colliding_runtime (uuid_draws w_completed))) ∧
  ∃ w',
    @enqueue_job colliding_runtime second_input w_completed = (Ok "uuid-0", w') ∧
    uuid_draws w' = S (uuid_draws w_completed) ∧
    job_field (clock w') (redis w') "uuid-0" "status" = Some "pending".
Proof.
  split; [by vm_compute|].
  destruct (@enqueue_job_overwrites colliding_runtime w_completed second_input)
    as (w' & E & Hd & _ & Hst & _); [by vm_compute|].
  exists w'. split; [exact E|]. split; [exact Hd | exact Hst].
Defined.

(** C8, refuted as stated: while the handler records the inference fault,
    a reader can see the job with status [failed] and no error yet. *)
Lemma failed_status_visible_before_error :
  ¬ Forall (payload_invariant "uuid-0")
      (observed (@process_clinical_job sample_runtime failing_agent "uuid-0")
                w_queued).
Proof.
  intros HF.
  assert (Hsnap : ∃ snap,
             observed (@process_clinical_job sample_runtime failing_agent "uuid-0")
                      w_queued !! 1%nat = Some snap ∧
             status_in "uuid-0" snap = Some "failed" ∧
             error_in "uuid-0" snap = None).
  { eexists. split; [reflexivity|]. by vm_compute. }
  destruct Hsnap as (snap & Hl & Hst & Her).
  pose proof (proj1 (Forall_lookup _ _) HF _ _ Hl) as (_ & _ & Hfail & _).
  destruct (Hfail Hst) as [(msg & Hmsg & _) _]. congruence.
Qed.

Lemma sample_agent_dumps_nonempty : dumps_nonempty sample_agent.
Proof. intros text r [= <-]. reflexivity. Qed.

(** C8 on the sample submission, one minute in the queue. *)
Lemma lifecycle_payload_witness :
  dumps_nonempty sample_agent ∧
  lookup_live (clock w_empty) (redis w_empty)
    (job_key (@uuid4 sample_runtime (uuid_draws w_empty))) = None ∧
  lookup_live (clock w_empty) (redis w_empty)
    (result_key (@uuid4 sample_runtime (uuid_draws w_empty))) = None ∧
  payload_run "uuid-0" w_empty
    (snd (@lifecycle sample_runtime sample_agent sample_input 60 w_empty)).
Proof.
  split; [exact sample_agent_dumps_nonempty|]. split; [reflexivity|].
  split; [reflexivity|].
  apply (@lifecycle_payload sample_runtime sample_agent w_empty sample_input 60);
    [exact sample_agent_dumps_nonempty | reflexivity | reflexivity].
Defined.

(** C9, refuted: a symptom whose duration is the empty string comes back
    with no duration at all. *)
Lemma empty_duration_not_preserved :
  Forall (λ x, x ≠ "") (relevant_conditions summary_with_empty_duration) ∧
  ∃ c',
    fhir_to_clinical_summary
      (clinical_summary_to_fhir summary_with_empty_duration) 2000 = Ok c' ∧
    map duration (symptoms summary_with_empty_duration) = [Some ""] ∧
    map duration (symptoms c') = [None].
Proof.
  split; [by repeat constructor|]. eexists. split; [by vm_compute|].
  by split.
Qed.

(** C9 on the sample summary. *)
Lemma fhir_round_trip_witness :
  Forall (λ x, x ≠ "") (relevant_conditions summary_with_empty_duration) ∧
  ∃ c',
    fhir_to_clinical_summary
      (clinical_summary_to_fhir summary_with_empty_duration) 2000 = Ok c' ∧
    relevant_conditions c' = ["migrana"] ∧
    map severity (symptoms c') = [Some "moderado"] ∧
    risk_factors c' = [].
Proof.
  assert (Hc : Forall (λ x, x ≠ "")
                 (relevant_conditions summary_with_empty_duration))
    by (by repeat constructor).
  split; [exact Hc|].
  destruct (fhir_round_trip summary_with_empty_duration 2000 Hc)
    as (c' & E & _ & Hrc & _ & _ & Hsv & Hrf).
  exists c'. by repeat split.
Defined.

(** C10 on the store between the two writes of a completion. *)
Lemma get_job_status_completed_without_result_witness :
  ∃ h ttl,
    lookup_live (clock w_flipped) (redis w_flipped) (job_key "uuid-0")
    = Some (Entry (RHash h) ttl) ∧
    h !! "status" = Some "completed" ∧
    lookup_live (clock w_flipped) (redis w_flipped) (result_key "uuid-0") = None ∧
    get_job_status "uuid-0" w_flipped = (Ok (Some (PStr <$> h)), w_flipped).
Proof.
  destruct (lookup_live (clock w_flipped) (redis w_flipped) (job_key "uuid-0"))
    as [[[doc|h] ttl]|] eqn:E; try (by vm_compute in E).
  assert (Hst : h !! "status" = Some "completed").
  { vm_compute in E. injection E as <- _. reflexivity. }
  exists h, ttl. split; [reflexivity|]. split; [exact Hst|].
  split; [reflexivity|].
  apply (proj1 (@get_job_status_completed_without_result sample_runtime
                  w_flipped "uuid-0" h ttl E Hst eq_refl)).
Defined.

End Examples.

(** * Further properties *)

(** ** What a function leaves alone *)

Section Keeps.
Context (R : world → world → Prop).
Hypothesis R_refl : ∀ w, R w w.
Hypothesis R_trans : ∀ w1 w2 w3, R w1 w2 → R w2 w3 → R w1 w3.

Lemma keeps_ret {A} (a : A) : keeps R (ret a).
Proof. intros w. apply R_refl. Qed.

Lemma keeps_raise {A} (e : exn) : keeps R (raise (A := A) e).
Proof. intros w. apply R_refl. Qed.

Lemma keeps_bind {A B} (m : M A) (k : A → M B) :
  keeps R m → (∀ a, keeps R (k a)) → keeps R (bind m k).
Proof.
  intros Hm Hk w. unfold bind. specialize (Hm w).
  destruct (m w) as [[a|e] w1]; simpl in *; [|done].
  eapply R_trans; [exact Hm | apply Hk].
Qed.

Lemma keeps_try_except {A} (m : M A) (h : exn → M A) :
  keeps R m → (∀ e, keeps R (h e)) → keeps R (try_except m h).
Proof.
  intros Hm Hh w. unfold try_except. specialize (Hm w).
  destruct (m w) as [[a|e] w1]; simpl in *; [done|].
  eapply R_trans; [exact Hm | apply Hh].
Qed.

Lemma keeps_of_option {A} (o : option A) (e : exn) : keeps R (of_option o e).
Proof. destruct o; [apply keeps_ret | apply keeps_raise]. Qed.

Lemma keeps_now : keeps R now.
Proof. intros w. apply R_refl. Qed.

Lemma keeps_json_dumps (v : pyval) : keeps R (json_dumps v).
Proof. unfold json_dumps. destruct (json_safe v); [apply keeps_ret | apply keeps_raise]. Qed.

Lemma keeps_exists (k : string) : keeps R (Cmd.exists_ k).
Proof. intros w. apply R_refl. Qed.

Lemma keeps_hgetall (k : string) : keeps R (Cmd.hgetall k).
Proof.
  intros w. unfold Cmd.hgetall.
  destruct (lookup_live _ _ _) as [[[doc|h] ttl]|]; apply R_refl.
Qed.

Lemma keeps_get (k : string) : keeps R (Cmd.get k).
Proof.
  intros w. unfold Cmd.get.
  destruct (lookup_live _ _ _) as [[[doc|h] ttl]|]; apply R_refl.
Qed.

(** The reader issues no write at all. *)
Lemma keeps_get_job_status (job_id : string) : keeps R (get_job_status job_id).
Proof.
  unfold get_job_status.
  apply keeps_bind; [apply keeps_exists|]. intros found.
  destruct (negb found); [apply keeps_ret|].
  apply keeps_bind; [apply keeps_hgetall|]. intros fields. cbv zeta.
  destruct (get_eq_str _ _); [|apply keeps_ret].
  apply keeps_bind; [apply keeps_get|]. intros [doc|]; apply keeps_ret.
Qed.

Section Writers.
Context `{Runtime}.
Variable job_id : string.
Hypothesis keeps_hset : ∀ f v, keeps R (Cmd.hset (job_key job_id) f v).
Hypothesis keeps_setex : ∀ s doc, keeps R (Cmd.setex (result_key job_id) s doc).

Lemma keeps_update_job_status (status : string) (result : option pyval)
    (error : option string) :
  keeps R (update_job_status job_id status result error).
Proof.
  unfold update_job_status.
  apply keeps_bind; [apply keeps_hset|]. intros _.
  apply keeps_bind.
  - destruct (truthy_opt result); [|apply keeps_ret].
    apply keeps_bind; [apply keeps_json_dumps|]. intros doc.
    apply keeps_bind; [apply keeps_setex|]. intros _.
    apply keeps_bind; [apply keeps_now|]. intros t. apply keeps_hset.
  - intros _. destruct (str_truthy (or_empty error)); [|apply keeps_ret].
    apply keeps_bind; [apply keeps_hset|]. intros _.
    apply keeps_bind; [apply keeps_now|]. intros t. apply keeps_hset.
Qed.

Variable agent : ClinicalAgent.
Hypothesis keeps_call : ∀ A (r : reply A), keeps R (call r).
Hypothesis keeps_loaded : keeps R (set_clinical_agent true).

Lemma keeps_initialize_agent : keeps R (initialize_agent agent).
Proof.
  intros w. unfold initialize_agent.
  destruct (clinical_agent w); [apply R_refl|].
  apply keeps_bind; [apply keeps_call | intros _; apply keeps_loaded].
Qed.

Lemma keeps_try_block : keeps R (try_block agent job_id).
Proof.
  unfold try_block.
  apply keeps_bind; [apply keeps_get_job_status|]. intros jd.
  destruct (dict_falsy jd); [apply keeps_raise|]. cbv zeta.
  apply keeps_bind; [apply keeps_update_job_status|]. intros _.
  apply keeps_bind; [apply keeps_initialize_agent|]. intros _.
  apply keeps_bind.
  - destruct (_ && _); [|apply keeps_ret].
    apply keeps_bind; [apply keeps_call | intros t; apply keeps_ret].
  - intros text. destruct (negb _); [apply keeps_raise|].
    apply keeps_bind; [apply keeps_call|]. intros r.
    apply keeps_bind; [apply keeps_update_job_status | intros _; apply keeps_ret].
Qed.

Lemma keeps_process_clinical_job : keeps R (process_clinical_job agent job_id).
Proof.
  change (process_clinical_job agent job_id)
    with (try_except (try_block agent job_id)
            (fun e => bind (update_job_status job_id "failed" None
                              (Some (error_message e)))
                           (fun _ => raise e))).
  apply keeps_try_except; [apply keeps_try_block|].
  intros e. apply keeps_bind; [apply keeps_update_job_status|].
  intros _. apply keeps_raise.
Qed.
End Writers.

End Keeps.



(** ** The job store: [enqueue_job], [get_job_status], [update_job_status] *)

Section QueueMore.
Context `{Runtime}.

(** X1: a job submitted under a fresh id can be read back, exactly as it was
    written and with status [pending], for 24 hours; from then on it is
    not found. *)
Theorem enqueue_job_then_get_job_status (w : world) (job_data : job_input)
    (dt : N) :
  lookup_live (clock w) (redis w) (job_key (uuid4 (uuid_draws w))) = None →
  get_job_status (uuid4 (uuid_draws w))
    (advance dt (snd (enqueue_job job_data w)))
  = (Ok (if Z.of_N dt <? timedelta_hours 24
         then Some (PStr <$> job_metadata (uuid4 (uuid_draws w)) (clock w) job_data)
         else None),
     advance dt (snd (enqueue_job job_data w))).
Proof.
  intros Hl.
  assert (Hs : hash_slot (clock w) (redis w) (job_key (uuid4 (uuid_draws w))))
    by (unfold hash_slot; by rewrite Hl).
  rewrite (enqueue_job_run w job_data Hs). cbv zeta. rewrite Hl.
  set (job_id := uuid4 (uuid_draws w)).
  set (m := job_metadata job_id (clock w) job_data).
  match goal with |- get_job_status _ ?w1 = _ => set (w' := w1) end.
  assert (E : lookup_live (clock w') (redis w') (job_key job_id)
              = if Z.of_N dt <? timedelta_hours 24
                then Some (Entry (RHash m) (Some (clock w + timedelta_hours 24)))
                else None).
  { unfold w'. simpl. rewrite lookup_live_insert.
    unfold enqueued_entry, live. simpl. rewrite (right_id_L ∅ (∪)).
    destruct (Z.ltb_spec (Z.of_N dt) (timedelta_hours 24)) as [L|L].
    - by rewrite (proj2 (Z.ltb_lt _ _)) by lia.
    - by rewrite (proj2 (Z.ltb_ge _ _)) by lia. }
  destruct (Z.of_N dt <? timedelta_hours 24).
  - apply (get_job_status_live w' job_id m _ E).
    destruct (job_metadata_lookup job_id (clock w) job_data) as (_ & Hst & _).
    unfold m. rewrite Hst. discriminate.
  - by apply get_job_status_absent.
Qed.




(** A submission under a fresh id, and how long its record can be read. *)
Lemma enqueue_job_fresh (w : world) (job_data : job_input) :
  lookup_live (clock w) (redis w) (job_key (uuid4 (uuid_draws w))) = None →
  ∃ w',
    enqueue_job job_data w = (Ok (uuid4 (uuid_draws w)), w') ∧
    clock w' = clock w ∧
    clinical_agent w' = clinical_agent w ∧
    ∀ dt : N,
      lookup_live (clock w + Z.of_N dt) (redis w') (job_key (uuid4 (uuid_draws w)))
      = if Z.of_N dt <? timedelta_hours 24
        then Some (Entry (RHash (job_metadata (uuid4 (uuid_draws w)) (clock w)
                                   job_data))
                         (Some (clock w + timedelta_hours 24)))
        else None.
Proof.
  intros Hl.
  assert (Hs : hash_slot (clock w) (redis w) (job_key (uuid4 (uuid_draws w))))
    by (unfold hash_slot; by rewrite Hl).
  rewrite (enqueue_job_run w job_data Hs). cbv zeta. rewrite Hl.
  eexists. split; [reflexivity|]. simpl. split; [done|]. split; [done|].
  intros dt. rewrite lookup_live_insert.
  unfold enqueued_entry, live. simpl. rewrite (right_id_L ∅ (∪)).
  destruct (Z.ltb_spec (Z.of_N dt) (timedelta_hours 24)) as [L|L].
  - by rewrite (proj2 (Z.ltb_lt _ _)) by lia.
  - by rewrite (proj2 (Z.ltb_ge _ _)) by lia.
Qed.

End QueueMore.

(** ** Frames of the reader, the updater and the worker *)

Lemma job_frame_refl (job_id : string) (w : world) : job_frame job_id w w.
Proof. unfold job_frame, same_elsewhere. split_and!; [done | done | done | lia]. Qed.

Lemma job_frame_trans (job_id : string) (w1 w2 w3 : world) :
  job_frame job_id w1 w2 → job_frame job_id w2 w3 → job_frame job_id w1 w3.
Proof.
  unfold job_frame, same_elsewhere.
  intros (Hd & Hq & Hu & Hc) (Hd' & Hq' & Hu' & Hc').
  split_and!; [|congruence|congruence|lia].
  intros k H1 H2. by rewrite Hd', Hd.
Qed.

Lemma same_instant_trans (w1 w2 w3 : world) :
  same_instant w1 w2 → same_instant w2 w3 → same_instant w1 w3.
Proof. unfold same_instant. intros [? ?] [? ?]. split; congruence. Qed.

Lemma hset_job_frame (job_id f v : string) :
  keeps (job_frame job_id) (Cmd.hset (job_key job_id) f v).
Proof.
  intros w. unfold Cmd.hset.
  destruct (lookup_live _ _ _) as [[[doc|h] ttl]|]; simpl;
    unfold job_frame, same_elsewhere; simpl;
    (split_and!; [|done|done|lia]); intros k H1 H2; try done;
    by rewrite lookup_insert_ne.
Qed.

Lemma setex_job_frame (job_id : string) (s : Z) (doc : pyval) :
  keeps (job_frame job_id) (Cmd.setex (result_key job_id) s doc).
Proof.
  intros w. unfold Cmd.setex, job_frame, same_elsewhere. simpl.
  split_and!; [|done|done|lia]. intros k H1 H2. by rewrite lookup_insert_ne.
Qed.

Lemma hset_same_instant (k f v : string) : keeps same_instant (Cmd.hset k f v).
Proof.
  intros w. unfold Cmd.hset.
  by destruct (lookup_live _ _ _) as [[[doc|h] ttl]|].
Qed.

Section FrameTheorems.
Context `{Runtime}.

Lemma keeps_get_result (R : world → world → Prop) (job_id : string) :
  (∀ w, R w w) → (∀ w1 w2 w3, R w1 w2 → R w2 w3 → R w1 w3) →
  keeps R (get_result job_id).
Proof.
  intros Hre Ht.
  assert (Hg : keeps R (get_job_status job_id))
    by (by apply keeps_get_job_status).
  unfold get_result. apply (keeps_try_except R Ht).
  - apply (keeps_bind R Ht); [exact Hg|]. intros jd.
    destruct (dict_falsy jd); [by apply keeps_raise|]. cbv zeta.
    apply (keeps_bind R Ht).
    { destruct (default _ _); try (by apply keeps_raise).
      by apply keeps_of_option. }
    intros status.
    apply (keeps_bind R Ht); [by apply keeps_of_option|]. intros created.
    apply (keeps_bind R Ht); [by apply keeps_of_option|]. intros completed.
    apply (keeps_bind R Ht); [by apply keeps_of_option|]. intros error.
    destruct status; try (by apply keeps_ret).
    destruct (_ !! "clinical_summary"); [|by apply keeps_ret].
    apply (keeps_bind R Ht); [by apply keeps_of_option|].
    intros summary. by apply keeps_ret.
  - intros [cls msg|code detail]; by apply keeps_raise.
Qed.

Lemma update_job_status_same_instant (job_id status : string)
    (result : option pyval) (error : option string) (w : world) :
  same_instant w (snd (update_job_status job_id status result error w)).
Proof.
  apply keeps_update_job_status;
    [done | exact same_instant_trans
    | intros; apply hset_same_instant | by intros s doc w1].
Qed.

(** X3: reading is free of effects.  [get_job_status] and [get_result]
    leave the store, the clock, the queue and everything else exactly as
    they found it, whatever they return or raise. *)
Theorem readers_change_nothing (job_id : string) (w : world) :
  snd (get_job_status job_id w) = w ∧ snd (get_result job_id w) = w.
Proof.
  pose (R := fun w w' : world => w' = w).
  assert (Hre : ∀ w, R w w) by done.
  assert (Ht : ∀ w1 w2 w3, R w1 w2 → R w2 w3 → R w1 w3)
    by (unfold R; congruence).
  split.
  - by apply (keeps_get_job_status R Hre Ht).
  - by apply (keeps_get_result R job_id Hre Ht).
Qed.

(** X4: [update_job_status] touches nothing but the two keys of its job:
    every other key of the store, the task queue and the identifier
    generator are as before, the call takes no time and leaves the agent
    flag alone.  This holds for every status, result and error, and also
    when the call raises. *)
Theorem update_job_status_touches_own_keys (job_id status : string)
    (result : option pyval) (error : option string) (w : world) :
  let w' := snd (update_job_status job_id status result error w) in
  job_frame job_id w w' ∧ same_instant w w'.
Proof.
  split.
  - apply keeps_update_job_status;
      [apply job_frame_refl | apply job_frame_trans
      | intros; apply hset_job_frame | intros; apply setex_job_frame].
  - apply update_job_status_same_instant.
Qed.

(** X5: a worker run on job [job_id] is confined to that job.  Whatever
    the agent does and however the run ends, every key other than
    [job:job_id] and [result:job_id] holds what it held before, nothing is
    added to or taken from the task queue, no identifier is drawn, and the
    clock does not go back. *)
Theorem process_clinical_job_touches_own_keys (agent : ClinicalAgent)
    (job_id : string) (w : world) :
  job_frame job_id w (snd (process_clinical_job agent job_id w)).
Proof.
  apply keeps_process_clinical_job;
    [apply job_frame_refl | apply job_frame_trans
    | intros; apply hset_job_frame | intros; apply setex_job_frame | |].
  - intros A r w1. unfold call, job_frame, same_elsewhere. simpl.
    split_and!; [done | done | done | lia].
  - intros w1. unfold set_clinical_agent, job_frame, same_elsewhere. simpl.
    split_and!; [done | done | done | lia].
Qed.

End FrameTheorems.

(** ** The worker: [initialize_agent] and [process_clinical_job] *)

Lemma bind_run {A B} (m : M A) (k : A → M B) (w : world) :
  bind m k w
  = match m w with
    | (Ok a, w') => k a w'
    | (Raise e, w') => (Raise e, w')
    end.
Proof. reflexivity. Qed.

(** What [get_job_status] returns for a record it finds: the stored fields,
    and possibly [clinical_summary] on top. *)
Lemma get_job_status_fields (w w' : world) (job_id : string)
    (d : gmap string pyval) :
  get_job_status job_id w = (Ok (Some d), w') →
  ∃ h ttl,
    lookup_live (clock w) (redis w) (job_key job_id) = Some (Entry (RHash h) ttl) ∧
    ∀ f, f ≠ "clinical_summary" → d !! f = PStr <$> h !! f.
Proof.
  unfold get_job_status, bind. rewrite exists_run.
  destruct (lookup_live (clock w) (redis w) (job_key job_id))
    as [[[doc|h] ttl]|] eqn:E.
  - rewrite bool_decide_eq_true_2 by eauto. simpl.
    unfold Cmd.hgetall. by rewrite E.
  - rewrite bool_decide_eq_true_2 by eauto. simpl.
    unfold Cmd.hgetall. rewrite E. simpl. intros Hd. exists h, ttl.
    split; [done|]. intros f Hf.
    destruct (get_eq_str _ _).
    + unfold Cmd.get in Hd.
      destruct (lookup_live (clock w) (redis w) (result_key job_id))
        as [[[doc|h'] ttl']|]; unfold ret, raise in Hd; simplify_eq.
      * by rewrite lookup_insert_ne, lookup_fmap.
      * by rewrite lookup_fmap.
    + unfold ret in Hd. simplify_eq. by rewrite lookup_fmap.
  - rewrite bool_decide_eq_false_2 by (by intros [? ?]). simpl. discriminate.
Qed.

Lemma initialize_agent_ready (agent : ClinicalAgent) (w : world) :
  agent_ready agent w →
  initialize_agent agent w
  = (Ok tt, World (redis w) (clock w + Z.of_N (loading_time agent w)) (rq w)
                  (uuid_draws w) true (trace w)).
Proof.
  unfold agent_ready, initialize_agent, loading_time.
  destruct (clinical_agent w) eqn:E.
  - intros _. unfold ret. destruct w. simpl in *. subst.
    repeat f_equal. lia.
  - intros [?|Hc]; [done|]. unfold bind, call. by rewrite Hc.
Qed.

(** The world once the agent is loaded. *)
Lemma resolve_and_infer_ready (agent : ClinicalAgent) (job_data : gmap string pyval)
    (w : world) :
  agent_ready agent w →
  let wi := World (redis w) (clock w + Z.of_N (loading_time agent w)) (rq w)
                  (uuid_draws w) true (trace w) in
  let text := job_data !! "text" in
  let audio_filename := job_data !! "audio_filename" in
  resolve_and_infer agent job_data w
  = if truthy_opt audio_filename && negb (truthy_opt text) then
      match outcome (transcribe_audio agent (default PNone audio_filename)) with
      | Raise e =>
          (Raise e,
           advance (elapsed (transcribe_audio agent (default PNone audio_filename))) wi)
      | Ok t =>
          let wt :=
            advance (elapsed (transcribe_audio agent (default PNone audio_filename)))
                    wi in
          if String.eqb t "" then
            (Raise (ValueError "No se proporcionó texto ni audio válido"), wt)
          else call (process_clinical_text agent (PStr t)) wt
      end
    else if negb (truthy_opt text) then
      (Raise (ValueError "No se proporcionó texto ni audio válido"), wi)
    else call (process_clinical_text agent (default PNone text)) wi.
Proof.
  intros Hr. cbv zeta. unfold resolve_and_infer. rewrite bind_run.
  rewrite initialize_agent_ready by done.
  destruct (truthy_opt (job_data !! "audio_filename")
            && negb (truthy_opt (job_data !! "text"))).
  - rewrite !bind_run. unfold call at 1.
    destruct (outcome (transcribe_audio agent _)) as [t|e]; [|done].
    unfold ret. simpl. by destruct (String.eqb t "").
  - rewrite bind_run. unfold ret.
    by destruct (negb (truthy_opt (job_data !! "text"))).
Qed.

Section WorkerMore.
Context `{Runtime}.

(** X6: text takes priority over audio.  When the stored job has a
    non-empty [text], the transcriber is never consulted: the run is the
    same, in outcome and in every effect, with any other transcriber in
    its place. *)
Theorem process_clinical_job_text_first (agent : ClinicalAgent)
    (f : pyval → reply string) (job_id text : string) (w : world) :
  job_field (clock w) (redis w) job_id "text" = Some text →
  text ≠ "" →
  process_clinical_job (with_transcriber agent f) job_id w
  = process_clinical_job agent job_id w.
Proof.
  intros Ht Hne. unfold process_clinical_job, try_except.
  rewrite !bind_run.
  destruct (get_job_status job_id w) as [[[d|]|e] w1] eqn:E; try reflexivity.
  destruct (get_job_status_fields _ _ _ _ E) as (h & ttl & Hl & Hd).
  assert (Htext : d !! "text" = Some (PStr text)).
  { rewrite Hd by done. unfold job_field, job_hash in Ht.
    rewrite Hl in Ht. by rewrite Ht. }
  destruct (dict_falsy (Some d)); [reflexivity|]. simpl default.
  rewrite Htext. simpl truthy_opt.
  destruct (String.eqb_spec text ""); [done|]. simpl negb.
  rewrite andb_false_r. reflexivity.
Qed.

(** A run on a live record that is not completed yet. *)
Lemma process_clinical_job_live (agent : ClinicalAgent) (w : world)
    (job_id : string) (h : gmap string string) (ttl : option Z) :
  lookup_live (clock w) (redis w) (job_key job_id) = Some (Entry (RHash h) ttl) →
  h ≠ ∅ →
  h !! "status" ≠ Some "completed" →
  process_clinical_job agent job_id w
  = let w1 := set_redis (db_hset (clock w) (job_key job_id)
                           "status" "processing" (redis w)) w in
    match resolve_and_infer agent (PStr <$> h) w1 with
    | (Raise e, w2) => record_failure job_id e w2
    | (Ok result_dict, w2) =>
        match update_job_status job_id "completed" (Some result_dict) None w2 with
        | (Ok _, w3) => (Ok result_dict, w3)
        | (Raise e, w3) => record_failure job_id e w3
        end
    end.
Proof.
  intros Hl Hne Hst.
  assert (Hs : hash_slot (clock w) (redis w) (job_key job_id))
    by (unfold hash_slot; by rewrite Hl).
  rewrite process_clinical_job_run by done.
  rewrite (get_job_status_live w job_id h ttl Hl Hst). simpl fst.
  assert (Hf : bool_decide (PStr <$> h = ∅ :> gmap string pyval) = false).
  { apply bool_decide_eq_false_2. intros E. by apply fmap_empty_inv in E. }
  unfold dict_falsy. by rewrite Hf.
Qed.





(** X9: an agent that returns an empty summary.  The run ends normally
    with status [completed], but [update_job_status] takes the empty dict
    for no result: nothing is stored under the result key and no
    [completed_at] is written. *)
Theorem process_clinical_job_empty_result (agent : ClinicalAgent) (w : world)
    (job_id text : string) (r : pyval) (h : gmap string string)
    (ttl : option Z) :
  lookup_live (clock w) (redis w) (job_key job_id) = Some (Entry (RHash h) ttl) →
  h !! "status" ≠ Some "completed" →
  h !! "text" = Some text →
  text ≠ "" →
  h !! "completed_at" = None →
  quiet job_id (clock w) (redis w) →
  agent_ready agent w →
  outcome (process_clinical_text agent (PStr text)) = Ok r →
  truthy r = false →
  ∃ w',
    process_clinical_job agent job_id w = (Ok r, w') ∧
    job_field (clock w') (redis w') job_id "status" = Some "completed" ∧
    job_field (clock w') (redis w') job_id "completed_at" = None ∧
    job_field (clock w') (redis w') job_id "error" = None ∧
    result_at (clock w') (redis w') job_id = None.
Proof.
  intros Hl Hst Ht Hne Hca Hq Hready Hinf Htr.
  assert (Hh : h ≠ ∅) by (intros ->; by rewrite lookup_empty in Ht).
  rewrite (process_clinical_job_live agent w job_id h ttl Hl Hh Hst). cbv zeta.
  set (w1 := set_redis _ w).
  rewrite (resolve_and_infer_ready agent (PStr <$> h) w1) by exact Hready.
  cbv zeta. rewrite !lookup_fmap, Ht. simpl.
  destruct (String.eqb_spec text ""); [done|]. simpl. rewrite andb_false_r.
  unfold call. rewrite Hinf.
  set (w2 := advance _ _).
  assert (Hc : clock w ≤ clock w2) by (unfold w2, w1; simpl; lia).
  assert (Hs2 : hash_slot (clock w2) (redis w2) (job_key job_id)).
  { unfold w2, w1. simpl. apply hash_slot_set_redis. simpl in Hc. lia. }
  rewrite update_job_status_plain by done.
  eexists. split; [reflexivity|]. simpl.
  assert (Hq2 : quiet job_id (clock w2)
                  (db_hset (clock w) (job_key job_id) "status" "processing"
                     (redis w)))
    by (by apply quiet_db_hset_status).
  assert (Hca0 : job_field (clock w) (redis w) job_id "completed_at" = None).
  { unfold job_field, job_hash. by rewrite Hl. }
  split_and!.
  - read_store.
  - rewrite job_field_db_hset. case_decide; [done|].
    by apply job_field_db_hset_None.
  - rewrite job_field_db_hset. case_decide; [done|]. apply Hq2.
  - rewrite result_at_db_hset. apply Hq2.
Qed.

(** X10: the agent is loaded once.  When the worker holds a loaded agent,
    a run never constructs another one (it is the same run with any other
    constructor in place), and no run unloads the agent. *)
Theorem process_clinical_job_reuses_agent (agent : ClinicalAgent)
    (c : reply unit) (job_id : string) (w : world) :
  clinical_agent w = true →
  process_clinical_job (with_constructor agent c) job_id w
  = process_clinical_job agent job_id w ∧
  clinical_agent (snd (process_clinical_job agent job_id w)) = true.
Proof.
  intros Hflag. split.
  - unfold process_clinical_job, try_except. rewrite !bind_run.
    pose proof (get_job_status_frame w job_id) as Hw.
    destruct (get_job_status job_id w) as [[jd|e] w0]; [|reflexivity].
    simpl in Hw. subst w0.
    destruct (dict_falsy jd); [reflexivity|]. rewrite !bind_run.
    pose proof (update_job_status_same_instant job_id "processing" None None w)
      as [_ Hca].
    destruct (update_job_status job_id "processing" None None w)
      as [[[]|e] w1]; [|reflexivity].
    simpl in Hca. rewrite !bind_run. unfold initialize_agent.
    rewrite Hca, Hflag. reflexivity.
  - pose (R := fun w w' : world =>
                 clinical_agent w = true → clinical_agent w' = true).
    assert (HR : keeps R (process_clinical_job agent job_id)).
    { apply keeps_process_clinical_job; unfold R.
      - done.
      - intros w1 w2 w3 H12 H23 H1. auto.
      - intros f v w1. unfold Cmd.hset.
        by destruct (lookup_live _ _ _) as [[[doc|h] ttl]|].
      - by intros s doc w1.
      - by intros A r w1.
      - by intros w1. }
    by apply HR.
Qed.

Lemma resolve_and_infer_unready (agent : ClinicalAgent)
    (job_data : gmap string pyval) (w : world) (e : exn) :
  clinical_agent w = false →
  outcome (construct agent) = Raise e →
  resolve_and_infer agent job_data w
  = (Raise e, advance (elapsed (construct agent)) w).
Proof.
  intros Hf Hc. unfold resolve_and_infer. rewrite bind_run.
  unfold initialize_agent. rewrite Hf, bind_run. unfold call. by rewrite Hc.
Qed.

(** X11: an agent that cannot be loaded.  The failure of the constructor
    is the failure of the run: it is recorded on the job and raised again,
    after the time the attempt took, and the worker is left without an
    agent, so that the next run constructs again. *)
Theorem process_clinical_job_agent_fails_to_load (agent : ClinicalAgent)
    (w : world) (job_id : string) (e : exn) (h : gmap string string)
    (ttl : option Z) :
  lookup_live (clock w) (redis w) (job_key job_id) = Some (Entry (RHash h) ttl) →
  h ≠ ∅ →
  h !! "status" ≠ Some "completed" →
  clinical_agent w = false →
  outcome (construct agent) = Raise e →
  ∃ w',
    process_clinical_job agent job_id w = (Raise e, w') ∧
    clinical_agent w' = false ∧
    clock w' = clock w + Z.of_N (elapsed (construct agent)) ∧
    job_field (clock w') (redis w') job_id "status" = Some "failed" ∧
    job_field (clock w') (redis w') job_id "error" = Some (error_message e).
Proof.
  intros Hl Hh Hst Hflag Hc.
  rewrite (process_clinical_job_live agent w job_id h ttl Hl Hh Hst). cbv zeta.
  set (w1 := set_redis _ w).
  rewrite (resolve_and_infer_unready agent (PStr <$> h) w1 e) by done.
  set (w2 := advance _ w1).
  assert (Hs2 : hash_slot (clock w2) (redis w2) (job_key job_id)).
  { unfold w2, w1. simpl. apply hash_slot_set_redis. lia. }
  rewrite record_failure_run by done.
  eexists. split; [reflexivity|].
  destruct (failed_world_read w2 job_id (error_message e))
    as (Hclk & Hstatus & Herr & _).
  rewrite Hclk. split_and!; done.
Qed.

(** X12: a summary as [model_dump()] yields it can never be stored.  With
    an agent whose results all come from [ClinicalSummary.model_dump()],
    whose [created_at] is a [datetime], no run ends normally: every run
    raises, leaves the job [failed], and writes nothing under the result
    key. *)
Theorem process_clinical_job_model_dump_never_completes
    (agent : ClinicalAgent) (w : world) (job_id : string) :
  (∀ text r, outcome (process_clinical_text agent text) = Ok r →
             ∃ c, r = model_dump c) →
  hash_slot (clock w) (redis w) (job_key job_id) →
  ∃ e w',
    process_clinical_job agent job_id w = (Raise e, w') ∧
    job_field (clock w') (redis w') job_id "status" = Some "failed" ∧
    redis w' !! result_key job_id = redis w !! result_key job_id.
Proof.
  intros Hdump Hs. rewrite process_clinical_job_run by done.
  assert (Hrec : ∀ w0 e0,
            hash_slot (clock w0) (redis w0) (job_key job_id) →
            redis w0 !! result_key job_id = redis w !! result_key job_id →
            ∃ e w',
              record_failure job_id e0 w0 = (Raise e, w') ∧
              job_field (clock w') (redis w') job_id "status" = Some "failed" ∧
              redis w' !! result_key job_id = redis w !! result_key job_id).
  { intros w0 e0 Hs0 Hr0. rewrite record_failure_run by done.
    eexists _, _. split; [reflexivity|].
    destruct (failed_world_read w0 job_id (error_message e0)) as (-> & ? & _).
    split; [done|]. rewrite <- Hr0. simpl.
    unfold db_failed3, db_failed2, db_failed1, db_hset.
    by rewrite !lookup_insert_ne. }
  destruct (fst (get_job_status job_id w)) as [jd|e0]; [|by apply Hrec].
  destruct (dict_falsy jd); [by apply Hrec|].
  cbv zeta. set (w1 := set_redis _ w).
  pose proof (resolve_and_infer_frame agent (default ∅ jd) w1)
    as (Hdb & _ & Hclk & _).
  pose proof (resolve_and_infer_inferred agent (default ∅ jd) w1) as Hinf.
  destruct (resolve_and_infer agent (default ∅ jd) w1) as [[r|e0] w2];
    simpl in Hdb, Hclk.
  - assert (Hs2 : hash_slot (clock w2) (redis w2) (job_key job_id))
      by (rewrite Hdb; by apply hash_slot_set_redis).
    destruct (Hinf w2 r eq_refl) as (text & Ht).
    destruct (Hdump text r Ht) as (c & ->).
    rewrite update_job_status_model_dump by done.
    apply Hrec; simpl.
    + apply hash_slot_db_hset.
    + rewrite Hdb. unfold db_hset. by rewrite !lookup_insert_ne.
  - apply Hrec.
    + rewrite Hdb. by apply hash_slot_set_redis.
    + rewrite Hdb. unfold db_hset. by rewrite lookup_insert_ne.
Qed.

Lemma record_failure_statuses (job_id : string) (e : exn) (w : world) :
  hash_slot (clock w) (redis w) (job_key job_id) →
  map (status_in job_id) (rev (trace (snd (record_failure job_id e w))))
  = (map (status_in job_id) (rev (trace w))
     ++ [Some "failed"; Some "failed"; Some "failed"])%list.
Proof.
  intros Hs. rewrite record_failure_run by done. simpl.
  rewrite !map_app. simpl. rewrite <- !app_assoc. simpl.
  unfold status_in, db_failed3, db_failed2, db_failed1. simpl.
  repeat f_equal; read_store.
Qed.

(** X13: the statuses a run writes.  Read off the stores a worker run
    leaves one after the other (each write of a field shows the status
    again), the job's status follows one of five courses: [failed] alone;
    [processing] then [failed]; [processing] then [completed], with or
    without the writes of a result; or [processing], [completed] and then
    [failed].  A run never writes [pending], and [completed] is not final:
    the failure to store a result turns it into [failed]. *)
Theorem process_clinical_job_status_sequence (agent : ClinicalAgent)
    (job_id : string) (w : world) :
  hash_slot (clock w) (redis w) (job_key job_id) →
  let seen := map (status_in job_id)
                  (observed (process_clinical_job agent job_id) w) in
  seen = [Some "failed"; Some "failed"; Some "failed"]
  ∨ seen = [Some "processing"; Some "failed"; Some "failed"; Some "failed"]
  ∨ seen = [Some "processing"; Some "completed"]
  ∨ seen = [Some "processing"; Some "completed"; Some "completed";
            Some "completed"]
  ∨ seen = [Some "processing"; Some "completed"; Some "failed"; Some "failed";
            Some "failed"].
Proof.
  intros Hs. cbv zeta. unfold observed.
  set (w0 := World (redis w) (clock w) (rq w) (uuid_draws w)
                   (clinical_agent w) []).
  assert (Hs0 : hash_slot (clock w0) (redis w0) (job_key job_id)) by exact Hs.
  rewrite (process_clinical_job_run agent w0 job_id Hs0).
  destruct (fst (get_job_status job_id w0)) as [jd|e0];
    [|left; by rewrite record_failure_statuses].
  destruct (dict_falsy jd); [left; by rewrite record_failure_statuses|].
  cbv zeta. set (w1 := set_redis _ w0).
  assert (Hp : ∀ t db status,
            status_in job_id (t, db_hset t (job_key job_id) "status" status db)
            = Some status)
    by (intros; unfold status_in; simpl; read_store).
  pose proof (resolve_and_infer_frame agent (default ∅ jd) w1)
    as (Hdb & Htr & Hclk & _).
  destruct (resolve_and_infer agent (default ∅ jd) w1) as [[r|e0] w2];
    simpl in Hdb, Htr, Hclk.
  - assert (Hs2 : hash_slot (clock w2) (redis w2) (job_key job_id))
      by (rewrite Hdb; by apply hash_slot_set_redis).
    destruct (update_job_status_cases w2 job_id "completed" (Some r) None Hs2)
      as [(_ & _ & E) | [(msg & _ & ? & _) | [(r' & _ & _ & _ & E)
         | [(r' & _ & _ & _ & _ & E) | (r' & msg & _ & _ & _ & ? & _)]]]];
      try discriminate; rewrite E.
    + do 2 right. left. simpl. rewrite Htr. simpl. by rewrite !Hp.
    + do 4 right. rewrite record_failure_statuses
        by (simpl; apply hash_slot_db_hset).
      simpl. rewrite Htr. simpl. by rewrite !Hp.
    + do 3 right. left. simpl. rewrite Htr. simpl. rewrite !Hp.
      unfold status_in. simpl. repeat f_equal; read_store.
  - right. left. rewrite record_failure_statuses
      by (rewrite Hdb; by apply hash_slot_set_redis).
    rewrite Htr. simpl. by rewrite !Hp.
Qed.

End WorkerMore.

(** ** Faults of a worker run *)



Section WorkerFaults.
Context `{Runtime}.
Variable agent : ClinicalAgent.





End WorkerFaults.

(** ** The HTTP handlers and the status enum *)

(** X14: [JobStatus] and its values.  The four members have four different
    values, [JobStatus(value)] gives back the member a value came from, and
    it accepts no other string. *)
Theorem JobStatus_round_trip (s : JobStatus) (v : string) :
  JobStatus_of_value (JobStatus_value s) = Some s ∧
  (JobStatus_of_value v = Some s ↔ v = JobStatus_value s).
Proof.
  split; [by destruct s|]. split.
  - unfold JobStatus_of_value.
    repeat (match goal with
            | |- context [String.eqb ?a ?b] => destruct (String.eqb_spec a b)
            end; [intros [= <-]; by subst|]).
    discriminate.
  - intros ->. by destruct s.
Qed.

Section MainMore.
Context `{Runtime}.

Lemma get_job_status_raises (job_id : string) (w : world) (e : exn) :
  fst (get_job_status job_id w) = Raise e → e = WRONGTYPE.
Proof.
  unfold get_job_status. rewrite bind_run, exists_run.
  destruct (negb _); [discriminate|]. rewrite bind_run. unfold Cmd.hgetall.
  destruct (lookup_live _ _ (job_key job_id)) as [[[doc|h] ttl]|];
    try (by intros [= <-]); unfold ret at 1;
    (destruct (get_eq_str _ _); [|discriminate]);
    rewrite bind_run; unfold Cmd.get;
    destruct (lookup_live _ _ (result_key job_id)) as [[[doc'|h'] ttl']|];
    try discriminate; by intros [= <-].
Qed.

(** X15: what [get_result] can answer.  It raises HTTP errors only, with
    code 404 or 500; a response carries the job id that was asked for,
    and a clinical summary only under status [COMPLETED]. *)
Theorem get_result_outcomes (job_id : string) (w : world) :
  match fst (get_result job_id w) with
  | Ok resp =>
      rr_job_id resp = job_id ∧
      (is_Some (rr_clinical_summary resp) → rr_status resp = COMPLETED)
  | Raise (HTTPException code _) => code = 404 ∨ code = 500
  | Raise (PyError _ _) => False
  end.
Proof.
  unfold get_result, try_except. rewrite bind_run.
  destruct (get_job_status job_id w) as [[jd|e] w1] eqn:E.
  2: { apply (f_equal fst) in E. apply get_job_status_raises in E.
       subst e. simpl. auto. }
  destruct (dict_falsy jd); [simpl; auto|]. cbv zeta. rewrite bind_run.
  match goal with
  | |- context [match ?m w1 with _ => _ end] =>
      assert (Hst : (∃ st, m w1 = (Ok st, w1))
                    ∨ (∃ cls msg, m w1 = (Raise (PyError cls msg), w1)))
  end.
  { destruct (default _ _); try (right; by eexists _, _).
    destruct (JobStatus_of_value s); [left; by eexists|right; by eexists _, _]. }
  destruct Hst as [[st ->] | (cls & msg & ->)]; [|simpl; auto].
  rewrite bind_run.
  destruct (validate_opt_datetime (default ∅ jd !! "created_at"));
    [|simpl; auto].
  simpl of_option. unfold ret at 1. rewrite bind_run.
  destruct (validate_opt_datetime (default ∅ jd !! "completed_at"));
    [|simpl; auto].
  simpl of_option. unfold ret at 1. rewrite bind_run.
  destruct (validate_opt_str (default ∅ jd !! "error")); [|simpl; auto].
  simpl of_option. unfold ret at 1.
  destruct st; try (simpl; split; [done | by intros [? [=]]]).
  destruct (default ∅ jd !! "clinical_summary");
    [|simpl; split; [done | by intros [? [=]]]].
  rewrite bind_run. destruct (validate_summary p); simpl; auto.
Qed.

Lemma submit_job_fresh (w : world) (text : option string)
    (audio_file : option UploadFile) :
  accepted text audio_file = true →
  lookup_live (clock w) (redis w) (job_key (uuid4 (uuid_draws w))) = None →
  ∃ w',
    submit_job text audio_file w
    = (Ok (mkJobResponse (uuid4 (uuid_draws w)) PENDING
             "Trabajo encolado exitosamente. Use /result/{job_id} para consultar el resultado."),
       w') ∧
    clock w' = clock w ∧
    clinical_agent w' = clinical_agent w ∧
    ∀ dt : N,
      lookup_live (clock w + Z.of_N dt) (redis w') (job_key (uuid4 (uuid_draws w)))
      = if Z.of_N dt <? timedelta_hours 24
        then Some (Entry (RHash (job_metadata (uuid4 (uuid_draws w)) (clock w)
                                   (submitted_input text audio_file)))
                         (Some (clock w + timedelta_hours 24)))
        else None.
Proof.
  intros Ha Hl. unfold submit_job.
  assert (Hc : negb (opt_truthy text) && negb (bool_decide (is_Some audio_file))
               = false).
  { unfold accepted in Ha. rewrite <- negb_orb. by rewrite Ha. }
  rewrite Hc. unfold try_except. rewrite bind_run.
  destruct (enqueue_job_fresh w (submitted_input text audio_file) Hl)
    as (w' & E & Hclk & Hag & Hlook).
  unfold submitted_input in E. rewrite E. unfold ret.
  exists w'. by split_and!.
Qed.

(** X16: from submission to the first poll.  A job accepted under a
    fresh id is reported by [get_result] as [PENDING], with its creation
    time and nothing else, at every instant of the next 24 hours; from
    then on [get_result] answers 404. *)
Theorem submit_job_then_get_result (w : world) (text : option string)
    (audio_file : option UploadFile) (dt : N) (created : Z) :
  accepted text audio_file = true →
  lookup_live (clock w) (redis w) (job_key (uuid4 (uuid_draws w))) = None →
  parse_datetime (isoformat (clock w)) = Some created →
  let job_id := uuid4 (uuid_draws w) in
  let w' := advance dt (snd (submit_job text audio_file w)) in
  get_result job_id w'
  = if Z.of_N dt <? timedelta_hours 24
    then (Ok (mkResultResponse job_id PENDING None None (Some created) None), w')
    else (Raise (HTTPException 404 ("Trabajo " +:+ job_id +:+ " no encontrado")),
          w').
Proof.
  intros Ha Hl Hp. cbv zeta.
  destruct (submit_job_fresh w text audio_file Ha Hl)
    as (w1 & -> & Hclk & _ & Hlook).
  simpl snd. specialize (Hlook dt).
  set (m := job_metadata _ _ _) in *.
  replace (clock w + Z.of_N dt) with (clock (advance dt w1)) in Hlook
    by (simpl; lia).
  change (redis w1) with (redis (advance dt w1)) in Hlook.
  unfold get_result, try_except. rewrite bind_run.
  destruct (Z.of_N dt <? timedelta_hours 24).
  - destruct (job_metadata_lookup (uuid4 (uuid_draws w)) (clock w)
                (submitted_input text audio_file))
      as (_ & Hst & Hcr & _).
    change (job_metadata _ _ _) with m in Hst, Hcr.
    rewrite (get_job_status_live _ _ m _ Hlook)
      by (rewrite Hst; discriminate).
    rewrite (fmap_PStr_nonempty m _ _ Hst). simpl default.
    rewrite !lookup_fmap, Hst, Hcr. simpl. rewrite Hp. simpl.
    assert (Hco : m !! "completed_at" = None) by done.
    assert (Her : m !! "error" = None) by done.
    assert (Hcs : m !! "clinical_summary" = None) by done.
    by rewrite Hco, Her.
  - by rewrite (get_job_status_absent _ _ Hlook).
Qed.

(** X17: a status outside the enum.  [update_job_status] stores any
    string as the status; once it has stored one that is not a value of
    [JobStatus], [get_result] can no longer report the job and answers
    500. *)
Theorem update_job_status_unknown_status_breaks_get_result (w : world)
    (job_id status : string) :
  hash_slot (clock w) (redis w) (job_key job_id) →
  JobStatus_of_value status = None →
  let w' := snd (update_job_status job_id status None None w) in
  ∃ detail, get_result job_id w' = (Raise (HTTPException 500 detail), w').
Proof.
  intros Hs Hv. cbv zeta. rewrite update_job_status_plain by done.
  simpl snd. set (w' := set_redis _ w).
  assert (Hl : lookup_live (clock w') (redis w') (job_key job_id)
               = Some (Entry (RHash (<["status" := status]>
                                (slot_hash (lookup_live (clock w) (redis w)
                                              (job_key job_id)))))
                             (slot_ttl (lookup_live (clock w) (redis w)
                                          (job_key job_id)))))
    by apply lookup_live_db_hset.
  set (h := <["status" := status]> _) in Hl.
  assert (Hst : h !! "status" = Some status) by apply lookup_insert_eq.
  assert (Hne : status ≠ "completed") by (by intros ->).
  unfold get_result, try_except. rewrite bind_run.
  rewrite (get_job_status_live _ _ h _ Hl) by (rewrite Hst; congruence).
  rewrite (fmap_PStr_nonempty h _ _ Hst). simpl default.
  rewrite lookup_fmap, Hst. simpl. rewrite Hv. simpl. eauto.
Qed.

(** Where a run that raises leaves the world. *)
Lemma process_clinical_job_raises (agent : ClinicalAgent) (w w' : world)
    (job_id : string) (e : exn) :
  hash_slot (clock w) (redis w) (job_key job_id) →
  process_clinical_job agent job_id w = (Raise e, w') →
  ∃ w0, hash_slot (clock w0) (redis w0) (job_key job_id) ∧
        w' = failed_world job_id (error_message e) w0.
Proof.
  intros Hs. rewrite process_clinical_job_run by done.
  assert (Hrec : ∀ w0 e0,
            hash_slot (clock w0) (redis w0) (job_key job_id) →
            record_failure job_id e0 w0 = (Raise e, w') →
            ∃ w0, hash_slot (clock w0) (redis w0) (job_key job_id) ∧
                  w' = failed_world job_id (error_message e) w0).
  { intros w0 e0 Hs0. rewrite record_failure_run by done.
    intros [= <- <-]. by exists w0. }
  destruct (fst (get_job_status job_id w)) as [jd|e0]; [|by apply Hrec].
  destruct (dict_falsy jd); [by apply Hrec|].
  cbv zeta. set (w1 := set_redis _ w).
  pose proof (resolve_and_infer_frame agent (default ∅ jd) w1)
    as (Hdb & _ & Hclk & _).
  destruct (resolve_and_infer agent (default ∅ jd) w1) as [[r|e0] w2];
    simpl in Hdb, Hclk.
  - assert (Hs2 : hash_slot (clock w2) (redis w2) (job_key job_id))
      by (rewrite Hdb; by apply hash_slot_set_redis).
    destruct (update_job_status_cases w2 job_id "completed" (Some r) None Hs2)
      as [(_ & _ & E) | [(msg & _ & ? & _) | [(r' & _ & _ & _ & E)
         | [(r' & _ & _ & _ & _ & E) | (r' & msg & _ & _ & _ & ? & _)]]]];
      try discriminate; rewrite E; try discriminate.
    apply Hrec. simpl. apply hash_slot_db_hset.
  - apply Hrec. rewrite Hdb. by apply hash_slot_set_redis.
Qed.

(** X18: from a failed run to the poll.  When a worker run has raised,
    [get_result] reports the job as [FAILED], with the message the worker
    recorded as its error, the instant of the failure as its completion
    time, and no clinical summary. *)
Theorem failed_run_then_get_result (agent : ClinicalAgent) (w w' : world)
    (job_id : string) (e : exn) (created : option Z) (completed : Z) :
  hash_slot (clock w) (redis w) (job_key job_id) →
  process_clinical_job agent job_id w = (Raise e, w') →
  validate_opt_datetime
    (PStr <$> job_field (clock w') (redis w') job_id "created_at")
  = Some created →
  parse_datetime (isoformat (clock w')) = Some completed →
  get_result job_id w'
  = (Ok (mkResultResponse job_id FAILED None (Some (error_message e))
           created (Some completed)), w').
Proof.
  intros Hs Hrun Hcr Hco.
  destruct (process_clinical_job_raises agent w w' job_id e Hs Hrun)
    as (w0 & Hs0 & ->).
  set (w' := failed_world _ _ w0) in *.
  assert (Hclk : clock w' = clock w0) by done.
  set (h := <["completed_at" := isoformat (clock w0)]>
              (<["error" := error_message e]>
                 (<["status" := "failed"]>
                    (slot_hash (lookup_live (clock w0) (redis w0)
                                  (job_key job_id)))))).
  assert (Hl : ∃ ttl, lookup_live (clock w') (redis w') (job_key job_id)
                      = Some (Entry (RHash h) ttl)).
  { eexists. unfold w', failed_world, db_failed3, db_failed2, db_failed1. simpl.
    by rewrite !lookup_live_db_hset. }
  destruct Hl as (ttl & Hl).
  assert (Hst : h !! "status" = Some "failed")
    by (unfold h; rewrite 2!lookup_insert_ne by done; apply lookup_insert_eq).
  assert (Her : h !! "error" = Some (error_message e))
    by (unfold h; rewrite lookup_insert_ne by done; apply lookup_insert_eq).
  assert (Hca : h !! "completed_at" = Some (isoformat (clock w0)))
    by apply lookup_insert_eq.
  unfold job_field, job_hash in Hcr. rewrite Hl in Hcr.
  unfold get_result, try_except. rewrite bind_run.
  rewrite (get_job_status_live _ _ h _ Hl) by (rewrite Hst; discriminate).
  rewrite (fmap_PStr_nonempty h _ _ Hst). simpl default.
  rewrite !lookup_fmap, Hst, Hcr, Hca, Her. simpl.
  rewrite <- Hclk, Hco. reflexivity.
Qed.

(** X19: a submission the store refuses.  When the key of the drawn id
    holds a string, [HSET] fails; [submit_job] turns the failure into
    HTTP 500 with the text of the Redis error.  The identifier is used up,
    but the store is unchanged and no task is queued. *)
Theorem submit_job_store_failure (w : world) (text : option string)
    (audio_file : option UploadFile) (doc : pyval) (ttl : option Z) :
  accepted text audio_file = true →
  lookup_live (clock w) (redis w) (job_key (uuid4 (uuid_draws w)))
  = Some (Entry (RString doc) ttl) →
  ∃ w',
    submit_job text audio_file w
    = (Raise (HTTPException 500
                ("Error al encolar trabajo: " +:+ str_exn WRONGTYPE)), w') ∧
    redis w' = redis w ∧
    rq w' = rq w ∧
    uuid_draws w' = S (uuid_draws w).
Proof.
  intros Ha Hl. unfold submit_job.
  assert (Hc : negb (opt_truthy text) && negb (bool_decide (is_Some audio_file))
               = false).
  { unfold accepted in Ha. rewrite <- negb_orb. by rewrite Ha. }
  rewrite Hc. unfold try_except. rewrite bind_run.
  unfold enqueue_job. rewrite bind_run. unfold draw_uuid4 at 1.
  rewrite bind_run. unfold now at 1. cbv zeta. rewrite bind_run.
  unfold Cmd.hset_mapping at 1. simpl clock. simpl redis. rewrite Hl.
  eexists. split; [reflexivity|]. done.
Qed.

(** X20: an upload without a file name.  [submit_job] accepts an upload
    whose file name is missing or empty even when no text comes with it;
    the record then holds neither text nor file name, and the worker, once
    its agent is loaded, can only fail the job with [ValueError]. *)
Theorem submit_job_upload_without_name (agent : ClinicalAgent) (w : world)
    (text : option string) (f : UploadFile) (dt : N) :
  opt_truthy text = false →
  opt_truthy (filename f) = false →
  lookup_live (clock w) (redis w) (job_key (uuid4 (uuid_draws w))) = None →
  Z.of_N dt < timedelta_hours 24 →
  agent_ready agent w →
  let job_id := uuid4 (uuid_draws w) in
  ∃ resp w1 w2,
    submit_job text (Some f) w = (Ok resp, w1) ∧
    jr_job_id resp = job_id ∧
    jr_status resp = PENDING ∧
    process_clinical_job agent job_id (advance dt w1)
    = (Raise (ValueError "No se proporcionó texto ni audio válido"), w2) ∧
    job_field (clock w2) (redis w2) job_id "status" = Some "failed".
Proof.
  intros Ht Hf Hl Hdt Hready. cbv zeta.
  assert (Ha : accepted text (Some f) = true).
  { unfold accepted. rewrite bool_decide_eq_true_2 by eauto. apply orb_true_r. }
  destruct (submit_job_fresh w text (Some f) Ha Hl)
    as (w1 & E & Hclk & Hag & Hlook).
  eexists _, w1, _. split; [exact E|]. split; [done|]. split; [done|].
  specialize (Hlook dt). rewrite (proj2 (Z.ltb_lt _ _) Hdt) in Hlook.
  set (m := job_metadata _ _ _) in Hlook.
  replace (clock w + Z.of_N dt) with (clock (advance dt w1)) in Hlook
    by (simpl; lia).
  change (redis w1) with (redis (advance dt w1)) in Hlook.
  destruct (job_metadata_lookup (uuid4 (uuid_draws w)) (clock w)
              (submitted_input text (Some f)))
    as (_ & Hst & _ & Htx & Hau & _).
  change (job_metadata _ _ _) with m in Hst, Htx, Hau.
  assert (Hh : m ≠ ∅) by (intros E0; by rewrite E0, lookup_empty in Hst).
  rewrite (process_clinical_job_live agent _ _ m _ Hlook Hh)
    by (rewrite Hst; discriminate).
  cbv zeta. set (w1' := set_redis _ _).
  assert (Hready' : agent_ready agent w1').
  { destruct Hready as [Hr|Hr]; [left | by right]. simpl. congruence. }
  rewrite (resolve_and_infer_ready agent (PStr <$> m) w1') by exact Hready'.
  cbv zeta. rewrite !lookup_fmap, Htx, Hau. simpl.
  rewrite Ht. simpl.
  unfold opt_truthy, str_truthy in Hf. rewrite Hf. simpl.
  set (wi := World _ _ _ _ _ _).
  assert (Hsi : hash_slot (clock wi) (redis wi) (job_key (uuid4 (uuid_draws w)))).
  { unfold wi, w1'. simpl.
    apply (hash_slot_set_redis (advance dt w1)). simpl. lia. }
  rewrite record_failure_run by done.
  split; [reflexivity|].
  destruct (failed_world_read wi (uuid4 (uuid_draws w))
              (error_message
                 (ValueError "No se proporcionó texto ni audio válido")))
    as (_ & Hfailed & _).
  exact Hfailed.
Qed.

End MainMore.

(** ** The FHIR conversion, both ways *)

Section FhirMore.
Context `{Library}.

Lemma collect_conditions_any (f : nat → string → pyval)
    (l : list string) (es : list pyval) :
  (∀ i c, ∃ j, f i c = condition_resource j c) →
  collect_conditions (imap f l ++ es)
  = rbind (collect_conditions es)
          (fun rest =>
             Ok (map PStr (List.filter (fun x => negb (String.eqb x "")) l)
                 ++ rest)%list).
Proof.
  intros Hf. revert f Hf. induction l as [|c l IH]; intros f Hf.
  - simpl. by destruct (collect_conditions es).
  - rewrite imap_cons, <- app_comm_cons.
    destruct (Hf 0%nat c) as [j ->].
    assert (E : collect_conditions (condition_resource j c :: imap (f ∘ S) l ++ es)
                = rbind (collect_conditions (imap (f ∘ S) l ++ es))
                        (fun rest => Ok (if negb (String.eqb c "")
                                         then PStr c :: rest else rest)))
      by reflexivity.
    rewrite E, IH by (intros i c'; apply Hf).
    destruct (collect_conditions es); [|done]. simpl.
    by destruct (String.eqb c "").
Qed.

Lemma read_patient_exact (c : ClinicalSummary) (rest : list pyval) :
  find_patient rest = Ok None →
  read_patient ((if int_truthy (patient_age c) || opt_truthy (patient_gender c)
                 then [patient_resource c] else []) ++ rest)
  = Ok (opt_int (round_age (patient_age c)),
        opt_str (round_gender (patient_gender c))).
Proof.
  intros Hrest. unfold read_patient, patient_resource, round_age, round_gender.
  destruct (patient_age c) as [n|]; simpl int_truthy;
    [destruct (negb (n =? 0))|];
    destruct (opt_truthy (patient_gender c)); simpl; rewrite ?Hrest;
    reflexivity.
Qed.


Lemma round_age_idem (o : option Z) : round_age (round_age o) = round_age o.
Proof. unfold round_age. by destruct (int_truthy o) eqn:E; [rewrite E|]. Qed.

Lemma round_gender_idem (o : option string) :
  lower_settles → round_gender (round_gender o) = round_gender o.
Proof.
  intros (Hidem & Hne & Hmale & Hfemale).
  unfold round_gender. destruct (opt_truthy o) eqn:E; [|done].
  cbv zeta. set (g := lower (or_empty o)).
  assert (Hg : g ≠ "").
  { apply Hne. unfold opt_truthy, str_truthy in E.
    by destruct (String.eqb_spec (or_empty o) ""). }
  assert (Hl : lower g = g) by apply Hidem.
  destruct (assoc_get g gender_map) as [v|] eqn:Ea.
  - assert (Hv : v = "male" ∨ v = "female").
    { unfold assoc_get, gender_map in Ea.
      repeat (match type of Ea with
              | context [String.eqb g ?k] => destruct (String.eqb g k)
              end; [simplify_eq; auto|]).
      done. }
    change (default g (Some v)) with v.
    assert (Ho : opt_truthy (Some v) = true) by (by destruct Hv as [-> | ->]).
    rewrite Ho. change (or_empty (Some v)) with v.
    destruct Hv as [-> | ->]; [rewrite Hmale | rewrite Hfemale]; reflexivity.
  - change (default g None) with g.
    assert (Ho : opt_truthy (Some g) = true).
    { unfold opt_truthy, str_truthy. change (or_empty (Some g)) with g.
      by destruct (String.eqb_spec g ""). }
    rewrite Ho. change (or_empty (Some g)) with g. by rewrite Hl, Ea.
Qed.

Lemma keep_nonempty_idem (o : option string) :
  keep_nonempty (keep_nonempty o) = keep_nonempty o.
Proof. unfold keep_nonempty. by destruct (opt_truthy o) eqn:E; [rewrite E|]. Qed.

Lemma round_symptom_idem (s : Symptom) :
  round_symptom (round_symptom s) = round_symptom s.
Proof.
  unfold round_symptom. cbn [name duration severity description].
  rewrite !keep_nonempty_idem. do 2 f_equal.
  set (x := if opt_truthy (description s) then or_empty (description s)
            else name s).
  change (or_empty (Some x)) with x.
  destruct (opt_truthy (Some x)) eqn:E; [done|].
  unfold opt_truthy, str_truthy in E. change (or_empty (Some x)) with x in E.
  destruct (String.eqb_spec x ""); [|done].
  unfold x in *. destruct (opt_truthy (description s)) eqn:E'; [|done].
  unfold opt_truthy, str_truthy in E'.
  destruct (String.eqb_spec (or_empty (description s)) ""); [done|].
  congruence.
Qed.

Lemma filter_idem {A} (f : A → bool) (l : list A) :
  List.filter f (List.filter f l) = List.filter f l.
Proof.
  induction l as [|x l IH]; simpl; [done|].
  destruct (f x) eqn:E; simpl; [by rewrite E, IH | done].
Qed.

Lemma round_summary_idem (c : ClinicalSummary) (now now' : Z) :
  lower_settles →
  round_summary (round_summary c now) now' = round_summary c now'.
Proof.
  intros Hlower. unfold round_summary. simpl.
  rewrite round_age_idem, round_gender_idem, filter_idem, map_map by done.
  f_equal. apply map_ext. intros s. apply round_symptom_idem.
Qed.

(** X21: the round trip through FHIR, exactly.  Converting a summary to a
    bundle and back never fails, and gives the summary in which a zero age
    is dropped, the gender is lower-cased and translated by [gender_map],
    empty conditions are left out, every symptom has lost its empty
    duration and severity and has a description (its name, if it had
    none), the risk factors are gone, and [created_at] is the instant of
    the conversion.  This holds for every summary and whatever
    [str.lower()] makes of the gender.  The round trip settles after this
    one pass, what came back going through the conversion unchanged,
    provided [str.lower()] leaves alone the texts it has produced and the
    two words of [gender_map]. *)
Theorem fhir_round_trip_exact (c : ClinicalSummary) (now : Z) :
  fhir_to_clinical_summary (clinical_summary_to_fhir c) now
  = Ok (round_summary c now) ∧
  (lower_settles →
   fhir_to_clinical_summary (clinical_summary_to_fhir (round_summary c now)) now
   = Ok (round_summary c now)).
Proof.
  assert (Hround : ∀ (c : ClinicalSummary) (now : Z),
            fhir_to_clinical_summary (clinical_summary_to_fhir c) now
            = Ok (round_summary c now)).
  { clear c now. intros c now.
    unfold fhir_to_clinical_summary.
    change (py_get "entry" (PList []) (clinical_summary_to_fhir c))
      with (Ok (PList (bundle_entries c))).
    cbn [rbind py_iter]. unfold bundle_entries.
    set (P := if int_truthy (patient_age c) || opt_truthy (patient_gender c)
             then [patient_resource c] else @nil pyval).
    set (C := imap condition_resource (relevant_conditions c)).
    set (O := imap observation_resource (symptoms c)).
    set (I := [clinical_impression c]).
    assert (HP : Forall (typed_entry "Patient") P)
      by (unfold P; destruct (_ || _); repeat constructor; apply typed_patient).
    assert (HC : Forall (typed_entry "Condition") C)
      by (apply Forall_imap; intros; apply typed_condition).
    assert (HO : Forall (typed_entry "Observation") O)
      by (apply Forall_imap; intros; apply typed_observation).
    pose proof (read_patient_exact c (C ++ O ++ I)) as E.
    fold P in E. rewrite E; cycle 1.
    { rewrite (find_patient_skip "Condition") by done.
      by rewrite (find_patient_skip "Observation") by done. }
    cbn [rbind].
    rewrite (collect_symptoms_skip "Patient") by done.
    rewrite (collect_symptoms_skip "Condition") by done.
    unfold O at 1. rewrite collect_symptoms_observations by eauto.
    change (collect_symptoms I) with (Ok (@nil Symptom)). cbn [rbind].
    rewrite (collect_conditions_skip "Patient") by done.
    unfold C at 1. rewrite collect_conditions_any by eauto.
    rewrite (collect_conditions_skip "Observation") by done.
    change (collect_conditions I) with (Ok (@nil pyval)). cbn [rbind].
    rewrite (find_narrative_skip "Patient") by done.
    rewrite (find_narrative_skip "Condition") by done.
    rewrite (find_narrative_skip "Observation") by done.
    change (find_narrative I) with (Ok (PStr (narrative_summary c))). cbn [rbind].
    rewrite !app_nil_r, validate_str_list_strings.
    cbn [fst snd]. unfold round_summary.
    destruct (round_age (patient_age c)), (round_gender (patient_gender c));
      reflexivity. }
  split; [apply Hround|]. intros Hlower.
  by rewrite Hround, round_summary_idem.
Qed.

Lemma foreign_inv (e : pyval) :
  foreign e = true →
  ∃ r t, resource_of e = Ok (r, t) ∧
         is_str "Patient" t = false ∧ is_str "Observation" t = false ∧
         is_str "Condition" t = false ∧ is_str "ClinicalImpression" t = false.
Proof.
  unfold foreign. destruct (resource_of e) as [[r t]|]; [|done].
  intros Hf. apply negb_true_iff in Hf.
  repeat (apply orb_false_iff in Hf as [Hf ?]). by exists r, t.
Qed.

(** The four passes over the entries skip foreign ones, wherever they
    stand. *)
Lemma passes_skip_foreign (es1 extra es2 : list pyval) :
  Forall (λ e, foreign e = true) extra →
  find_patient (es1 ++ extra ++ es2) = find_patient (es1 ++ es2) ∧
  collect_symptoms (es1 ++ extra ++ es2) = collect_symptoms (es1 ++ es2) ∧
  collect_conditions (es1 ++ extra ++ es2) = collect_conditions (es1 ++ es2) ∧
  find_narrative (es1 ++ extra ++ es2) = find_narrative (es1 ++ es2).
Proof.
  intros Hx. induction es1 as [|e es1 (IH1 & IH2 & IH3 & IH4)].
  - simpl. induction Hx as [|x extra Hf _ (IH1 & IH2 & IH3 & IH4)]; [done|].
    destruct (foreign_inv x Hf) as (r & t & E & H1 & H2 & H3 & H4).
    simpl. rewrite E. simpl. by rewrite H1, H2, H3, H4.
  - simpl. by rewrite IH1, IH2, IH3, IH4.
Qed.

(** X22: resources of other kinds do not count.  Take any two bundles,
    whatever other keys they have, whose entry lists differ only by
    entries whose resource is neither a [Patient], an [Observation], a
    [Condition] nor a [ClinicalImpression], wherever these stand in the
    list: [fhir_to_clinical_summary] returns or raises the same on
    both. *)
Theorem fhir_to_clinical_summary_skips_foreign (d d' : list (string * pyval))
    (es1 extra es2 : list pyval) (now : Z) :
  dict_get "entry" d = Some (PList (es1 ++ extra ++ es2)) →
  dict_get "entry" d' = Some (PList (es1 ++ es2)) →
  Forall (λ e, foreign e = true) extra →
  fhir_to_clinical_summary (PDict d) now = fhir_to_clinical_summary (PDict d') now.
Proof.
  intros Hd Hd' Hx.
  destruct (passes_skip_foreign es1 extra es2 Hx) as (E1 & E2 & E3 & E4).
  unfold fhir_to_clinical_summary, read_patient. simpl. rewrite Hd, Hd'. simpl.
  by rewrite E1, E2, E3, E4.
Qed.

(** X23: a bundle with nothing to read.  A dict that has no [entry] key,
    or whose entries are all of kinds the reader does not look for, is
    read as the empty summary: no patient data, no symptoms, no
    conditions and the empty string as narrative; nothing is raised. *)
Theorem fhir_to_clinical_summary_without_entry (d : list (string * pyval))
    (extra : list pyval) (now : Z) :
  dict_get "entry" d = None
  ∨ (dict_get "entry" d = Some (PList extra)
     ∧ Forall (λ e, foreign e = true) extra) →
  fhir_to_clinical_summary (PDict d) now = Ok (empty_summary now).
Proof.
  intros [Hd | [Hd Hx]]; unfold fhir_to_clinical_summary; simpl; rewrite Hd;
    [reflexivity|].
  destruct (passes_skip_foreign [] extra [] Hx) as (E1 & E2 & E3 & E4).
  simpl in *. rewrite app_nil_r in *.
  unfold read_patient. by rewrite E1, E2, E3, E4.
Qed.

Lemma observation_refers (i : nat) (s : Symptom) :
  refers_to_patient (observation_resource i s).
Proof.
  unfold observation_resource.
  destruct (opt_truthy (duration s)), (opt_truthy (severity s));
    eexists; (split; [reflexivity|]); reflexivity.
Qed.

(** X24: a reference without its target.  For a summary with neither an
    age nor a gender, [clinical_summary_to_fhir] emits no [Patient]
    resource, and yet every entry of the bundle names
    [Patient/patient-1] as its subject. *)
Theorem clinical_summary_to_fhir_dangling_subject (c : ClinicalSummary) :
  int_truthy (patient_age c) = false →
  opt_truthy (patient_gender c) = false →
  find_patient (bundle_entries c) = Ok None ∧
  Forall refers_to_patient (bundle_entries c).
Proof.
  intros Ha Hg. unfold bundle_entries. rewrite Ha, Hg. simpl app. split.
  - rewrite (find_patient_skip "Condition")
      by (done || apply Forall_imap; intros; apply typed_condition).
    by rewrite (find_patient_skip "Observation")
      by (done || apply Forall_imap; intros; apply typed_observation).
  - rewrite !Forall_app. split_and!.
    + apply Forall_imap. intros i x. eexists. split; reflexivity.
    + apply Forall_imap. intros i x. apply observation_refers.
    + repeat constructor. eexists. split; reflexivity.
Qed.

End FhirMore.

(** ** The agent: [_parse_llm_response] *)

Lemma from_first_brace_Some (s tail : string) :
  from_first_brace s = Some tail →
  ∃ pre rest,
    s = pre +:+ tail ∧
    tail = String open_brace rest ∧
    Forall (λ c, c ≠ open_brace) (list_ascii_of_string pre).
Proof.
  revert tail. induction s as [|c s IH]; intros tail; simpl; [done|].
  destruct (Ascii.eqb_spec c open_brace) as [->|Hc].
  - intros [= <-]. exists "", s. by split_and!.
  - intros Hs. destruct (IH tail Hs) as (pre & rest & -> & -> & Hpre).
    exists (String c pre), rest. split_and!; [done | done |].
    simpl. by constructor.
Qed.

Lemma upto_last_brace_None (s : string) :
  upto_last_brace s = None →
  Forall (λ c, c ≠ close_brace) (list_ascii_of_string s).
Proof.
  induction s as [|c s IH]; simpl; [constructor|].
  destruct (upto_last_brace s) as [p|]; [done|].
  destruct (Ascii.eqb_spec c close_brace) as [->|Hc]; [done|].
  intros _. constructor; [done | by apply IH].
Qed.

Lemma upto_last_brace_Some (s m : string) :
  upto_last_brace s = Some m →
  ∃ body post,
    s = m +:+ post ∧
    m = body +:+ String close_brace "" ∧
    Forall (λ c, c ≠ close_brace) (list_ascii_of_string post).
Proof.
  revert m. induction s as [|c s IH]; intros m; simpl; [done|].
  destruct (upto_last_brace s) as [p|] eqn:E.
  - intros [= <-]. destruct (IH p eq_refl) as (body & post & -> & -> & Hpost).
    exists (String c body), post. by split_and!.
  - destruct (Ascii.eqb_spec c close_brace) as [->|Hc]; [|done].
    intros [= <-]. exists "", s. split_and!; [done | done |].
    by apply upto_last_brace_None.
Qed.

Section ParseMore.
Variable json_loads_text : string → option pyval.
Variable new_Symptom : pyval → pyval → pyval → pyval → res Symptom.
Variable new_ClinicalSummary :
  pyval → pyval → list Symptom → pyval → pyval → pyval → Z → res ClinicalSummary.

(** X25: an answer that cannot be read as JSON.  When the answer of the
    model has no opening brace followed by a closing one, or the text
    between the first and the last does not decode, no error is raised:
    the summary is the empty one with the whole answer as its narrative.
    The original text plays no part. *)
Theorem parse_llm_response_falls_back (original_text llm_response : string)
    (now : Z) :
  accepts_defaults new_ClinicalSummary →
  match json_match llm_response with
  | Some text => json_loads_text text = None
  | None => True
  end →
  _parse_llm_response json_loads_text new_Symptom new_ClinicalSummary
    original_text llm_response now
  = Ok (mkClinicalSummary None None [] [] [] llm_response now).
Proof.
  intros Hnew Hm. unfold _parse_llm_response.
  assert (Hd : llm_data json_loads_text llm_response = PDict []).
  { unfold llm_data. destruct (json_match llm_response) as [text|]; [|done].
    by rewrite Hm. }
  rewrite Hd. simpl. apply Hnew.
Qed.

(** X26: the span that is decoded.  When [json_match] finds a span, it
    runs from the first opening brace of the answer to its last closing
    brace: nothing before it has an opening brace, nothing after it a
    closing one, and whatever stands between the two, further braces
    included, is part of it. *)
Theorem json_match_span (s m : string) :
  json_match s = Some m →
  ∃ pre body post,
    s = pre +:+ (m +:+ post) ∧
    m = String open_brace body +:+ String close_brace "" ∧
    Forall (λ c, c ≠ open_brace) (list_ascii_of_string pre) ∧
    Forall (λ c, c ≠ close_brace) (list_ascii_of_string post).
Proof.
  unfold json_match. destruct (from_first_brace s) as [tail|] eqn:E; [|done].
  simpl. intros Hm.
  destruct (from_first_brace_Some s tail E) as (pre & rest & -> & -> & Hpre).
  destruct (upto_last_brace_Some _ m Hm) as (body & post & Ht & -> & Hpost).
  destruct body as [|c body]; simpl in Ht.
  - by injection Ht.
  - injection Ht as <- Ht. subst rest. exists pre, body, post. by split_and!.
Qed.

End ParseMore.

(** ** The further properties on the sample inputs *)

Section MoreExamples.

#[local] Existing Instance sample_library.

Lemma lower_ascii_idem (a : ascii) : lower_ascii (lower_ascii a) = lower_ascii a.
Proof. destruct a as [[] [] [] [] [] [] [] []]; reflexivity. Qed.

(** The sample library meets what the second pass of the round trip
    needs. *)
Lemma sample_library_settles : lower_settles.
Proof.
  split_and!; try reflexivity.
  - intros s. simpl. induction s as [|a s IH]; simpl; [done|].
    by rewrite lower_ascii_idem, IH.
  - intros s Hs. simpl. by destruct s.
Qed.


(** X1 on the sample job, read one hour after its submission. *)
Lemma enqueue_job_then_get_job_status_witness :
  lookup_live (clock w_empty) (redis w_empty) (job_key "uuid-0") = None ∧
  get_job_status "uuid-0" (advance 3600 w_pending)
  = (Ok (Some (PStr <$> sample_record)), advance 3600 w_pending).
Proof.
  split; [reflexivity|].
  exact (@enqueue_job_then_get_job_status sample_runtime w_empty sample_input
           3600%N eq_refl).
Defined.


(** X6 on the sample job: a transcriber that always fails goes unnoticed. *)
Lemma process_clinical_job_text_first_witness :
  job_field (clock w_queued) (redis w_queued) "uuid-0" "text"
  = Some "Paciente con dolor de cabeza desde hace 3 dias" ∧
  @process_clinical_job sample_runtime
    (with_transcriber sample_agent broken_transcriber) "uuid-0" w_queued
  = @process_clinical_job sample_runtime sample_agent "uuid-0" w_queued.
Proof.
  assert (Ht : job_field (clock w_queued) (redis w_queued) "uuid-0" "text"
               = Some "Paciente con dolor de cabeza desde hace 3 dias")
    by (by vm_compute).
  split; [exact Ht|].
  apply (@process_clinical_job_text_first sample_runtime sample_agent
           broken_transcriber "uuid-0" _ w_queued Ht). discriminate.
Defined.



(** X9 on the sample job with the agent that returns [{}]. *)
Lemma process_clinical_job_empty_result_witness :
  lookup_live (clock w_queued) (redis w_queued) (job_key "uuid-0")
  = Some (Entry (RHash sample_record) (Some 87400)) ∧
  ∃ w',
    @process_clinical_job sample_runtime empty_agent "uuid-0" w_queued
    = (Ok (PDict []), w') ∧
    job_field (clock w') (redis w') "uuid-0" "status" = Some "completed" ∧
    result_at (clock w') (redis w') "uuid-0" = None.
Proof.
  assert (Hl : lookup_live (clock w_queued) (redis w_queued) (job_key "uuid-0")
               = Some (Entry (RHash sample_record) (Some 87400)))
    by (by vm_compute).
  split; [exact Hl|].
  destruct (@process_clinical_job_empty_result sample_runtime empty_agent w_queued
              "uuid-0" "Paciente con dolor de cabeza desde hace 3 dias"
              (PDict []) sample_record (Some 87400) Hl)
    as (w' & E & Hst & _ & _ & Hr);
    [by vm_compute | by vm_compute | discriminate | by vm_compute
    | by vm_compute | by right | reflexivity | reflexivity |].
  exists w'. split; [exact E|]. split; [exact Hst | exact Hr].
Defined.

(** X10 on the sample job in a worker whose agent is loaded: a
    constructor that would fail is never called. *)
Lemma process_clinical_job_reuses_agent_witness :
  clinical_agent w_queued_loaded = true ∧
  @process_clinical_job sample_runtime
    (with_constructor sample_agent (Reply 5 (Raise missing_api_key)))
    "uuid-0" w_queued_loaded
  = @process_clinical_job sample_runtime sample_agent "uuid-0" w_queued_loaded.
Proof.
  split; [reflexivity|].
  apply (@process_clinical_job_reuses_agent sample_runtime sample_agent
           (Reply 5 (Raise missing_api_key)) "uuid-0" w_queued_loaded eq_refl).
Defined.

(** X11 on the sample job with an agent that lacks its API key. *)
Lemma process_clinical_job_agent_fails_to_load_witness :
  lookup_live (clock w_queued) (redis w_queued) (job_key "uuid-0")
  = Some (Entry (RHash sample_record) (Some 87400)) ∧
  ∃ w',
    @process_clinical_job sample_runtime unloadable_agent "uuid-0" w_queued
    = (Raise missing_api_key, w') ∧
    clinical_agent w' = false ∧
    job_field (clock w') (redis w') "uuid-0" "status" = Some "failed".
Proof.
  assert (Hl : lookup_live (clock w_queued) (redis w_queued) (job_key "uuid-0")
               = Some (Entry (RHash sample_record) (Some 87400)))
    by (by vm_compute).
  split; [exact Hl|].
  destruct (@process_clinical_job_agent_fails_to_load sample_runtime
              unloadable_agent w_queued "uuid-0" missing_api_key sample_record
              (Some 87400) Hl)
    as (w' & E & Hf & _ & Hst & _);
    [by vm_compute | by vm_compute | reflexivity | reflexivity |].
  exists w'. split; [exact E|]. split; [exact Hf | exact Hst].
Defined.

(** X12 on the sample job with the agent that dumps a [ClinicalSummary]. *)
Lemma process_clinical_job_model_dump_never_completes_witness :
  hash_slot (clock w_queued) (redis w_queued) (job_key "uuid-0") ∧
  ∃ e w',
    @process_clinical_job sample_runtime pydantic_agent "uuid-0" w_queued
    = (Raise e, w') ∧
    job_field (clock w') (redis w') "uuid-0" "status" = Some "failed" ∧
    redis w' !! result_key "uuid-0" = redis w_queued !! result_key "uuid-0".
Proof.
  assert (Hs : hash_slot (clock w_queued) (redis w_queued) (job_key "uuid-0"))
    by (by vm_compute).
  split; [exact Hs|].
  apply (@process_clinical_job_model_dump_never_completes sample_runtime
           pydantic_agent w_queued "uuid-0"); [|exact Hs].
  intros text r [= <-]. by exists sample_summary.
Defined.

(** X13 on the sample job: [processing], then three writes under
    [completed]. *)
Lemma process_clinical_job_status_sequence_witness :
  hash_slot (clock w_queued) (redis w_queued) (job_key "uuid-0") ∧
  map (status_in "uuid-0")
      (observed (@process_clinical_job sample_runtime sample_agent "uuid-0")
                w_queued)
  = [Some "processing"; Some "completed"; Some "completed"; Some "completed"].
Proof.
  assert (Hs : hash_slot (clock w_queued) (redis w_queued) (job_key "uuid-0"))
    by (by vm_compute).
  split; [exact Hs|].
  destruct (@process_clinical_job_status_sequence sample_runtime sample_agent
              "uuid-0" w_queued Hs) as [E | [E | [E | [E | E]]]];
    by vm_compute.
Defined.

(** X16 on an empty database: a text job, polled after one minute. *)
Lemma submit_job_then_get_result_witness :
  accepted (Some "Paciente con fiebre") None = true ∧
  lookup_live (clock w_empty) (redis w_empty) (job_key "uuid-0") = None ∧
  fst (@get_result sample_runtime "uuid-0"
         (advance 60 (snd (@submit_job sample_runtime (Some "Paciente con fiebre")
                             None w_empty))))
  = Ok (mkResultResponse "uuid-0" PENDING None None (Some 0) None).
Proof.
  split; [reflexivity|]. split; [reflexivity|].
  exact (f_equal fst
           (@submit_job_then_get_result sample_runtime w_empty
              (Some "Paciente con fiebre") None 60%N 0 eq_refl eq_refl eq_refl)).
Defined.

(** X17 on the sample job: the status [done] is stored, and polling
    fails. *)
Lemma update_job_status_unknown_status_breaks_get_result_witness :
  hash_slot (clock w_queued) (redis w_queued) (job_key "uuid-0") ∧
  JobStatus_of_value "done" = None ∧
  ∃ detail,
    fst (@get_result sample_runtime "uuid-0"
           (snd (@update_job_status sample_runtime "uuid-0" "done" None None
                   w_queued)))
    = Raise (HTTPException 500 detail).
Proof.
  assert (Hs : hash_slot (clock w_queued) (redis w_queued) (job_key "uuid-0"))
    by (by vm_compute).
  split; [exact Hs|]. split; [reflexivity|].
  destruct (@update_job_status_unknown_status_breaks_get_result sample_runtime
              w_queued "uuid-0" "done" Hs eq_refl) as (detail & E).
  exists detail. exact (f_equal fst E).
Defined.

(** X18 on the sample job with the failing agent. *)
Lemma failed_run_then_get_result_witness :
  let w' := snd (@process_clinical_job sample_runtime failing_agent "uuid-0"
                   w_queued) in
  hash_slot (clock w_queued) (redis w_queued) (job_key "uuid-0") ∧
  @process_clinical_job sample_runtime failing_agent "uuid-0" w_queued
  = (Raise model_unavailable, w') ∧
  @get_result sample_runtime "uuid-0" w'
  = (Ok (mkResultResponse "uuid-0" FAILED None
           (Some (@error_message sample_runtime model_unavailable))
           (Some 0) (Some 0)), w').
Proof.
  intros w'.
  assert (Hs : hash_slot (clock w_queued) (redis w_queued) (job_key "uuid-0"))
    by (by vm_compute).
  assert (E : @process_clinical_job sample_runtime failing_agent "uuid-0" w_queued
              = (Raise model_unavailable, w')) by (by vm_compute).
  split; [exact Hs|]. split; [exact E|].
  apply (@failed_run_then_get_result sample_runtime failing_agent w_queued w'
           "uuid-0" model_unavailable (Some 0) 0 Hs E); by vm_compute.
Defined.

(** X19 on a store whose key [job:uuid-0] holds a string. *)
Lemma submit_job_store_failure_witness :
  accepted (Some "Paciente con fiebre") None = true ∧
  lookup_live (clock w_string_slot) (redis w_string_slot) (job_key "uuid-0")
  = Some (Entry (RString (PStr "x")) None) ∧
  ∃ w',
    @submit_job sample_runtime (Some "Paciente con fiebre") None w_string_slot
    = (Raise (HTTPException 500
                ("Error al encolar trabajo: " +:+ str_exn WRONGTYPE)), w') ∧
    rq w' = [].
Proof.
  split; [reflexivity|]. split; [reflexivity|].
  destruct (@submit_job_store_failure sample_runtime w_string_slot
              (Some "Paciente con fiebre") None (PStr "x") None eq_refl eq_refl)
    as (w' & E & _ & Hq & _).
  exists w'. split; [exact E | exact Hq].
Defined.

(** X20 on an empty database: the upload without a name is accepted, and
    the job fails a minute later. *)
Lemma submit_job_upload_without_name_witness :
  opt_truthy (filename nameless_upload) = false ∧
  lookup_live (clock w_empty) (redis w_empty) (job_key "uuid-0") = None ∧
  ∃ resp w1 w2,
    @submit_job sample_runtime None (Some nameless_upload) w_empty = (Ok resp, w1) ∧
    jr_status resp = PENDING ∧
    @process_clinical_job sample_runtime sample_agent "uuid-0" (advance 60 w1)
    = (Raise (ValueError "No se proporcionó texto ni audio válido"), w2).
Proof.
  split; [reflexivity|]. split; [reflexivity|].
  destruct (@submit_job_upload_without_name sample_runtime sample_agent w_empty
              None nameless_upload 60%N eq_refl eq_refl eq_refl)
    as (resp & w1 & w2 & E & _ & Hp & Hrun & _); [reflexivity | by right |].
  exists resp, w1, w2. split; [exact E|]. split; [exact Hp | exact Hrun].
Defined.

(** X21 on the sample summary: the second pass returns what the first
    returned. *)
Lemma fhir_round_trip_exact_witness :
  lower_settles ∧
  fhir_to_clinical_summary
    (clinical_summary_to_fhir (round_summary sample_summary 2000)) 2000
  = Ok (round_summary sample_summary 2000).
Proof.
  split; [exact sample_library_settles|].
  exact (proj2 (fhir_round_trip_exact sample_summary 2000) sample_library_settles).
Defined.

(** X22: an [Encounter] put in front of its entries changes nothing in
    what is read from the sample bundle. *)
Lemma fhir_to_clinical_summary_skips_foreign_witness :
  Forall (λ e, foreign e = true) [encounter_entry] ∧
  fhir_to_clinical_summary
    (PDict [("resourceType", PStr "Bundle");
            ("type", PStr "collection");
            ("entry", PList (encounter_entry :: bundle_entries sample_summary))])
    2000
  = fhir_to_clinical_summary (clinical_summary_to_fhir sample_summary) 2000.
Proof.
  assert (Hf : Forall (λ e, foreign e = true) [encounter_entry])
    by (by repeat constructor).
  split; [exact Hf|].
  exact (fhir_to_clinical_summary_skips_foreign
           [("resourceType", PStr "Bundle");
            ("type", PStr "collection");
            ("entry", PList (encounter_entry :: bundle_entries sample_summary))]
           [("resourceType", PStr "Bundle");
            ("type", PStr "collection");
            ("entry", PList (bundle_entries sample_summary))]
           [] [encounter_entry] (bundle_entries sample_summary) 2000
           eq_refl eq_refl Hf).
Defined.

(** X23 on a bundle that holds an [Encounter] and nothing else. *)
Lemma fhir_to_clinical_summary_without_entry_witness :
  Forall (λ e, foreign e = true) [encounter_entry] ∧
  fhir_to_clinical_summary (PDict [("entry", PList [encounter_entry])]) 2000
  = Ok (empty_summary 2000).
Proof.
  assert (Hf : Forall (λ e, foreign e = true) [encounter_entry])
    by (by repeat constructor).
  split; [exact Hf|].
  exact (fhir_to_clinical_summary_without_entry
           [("entry", PList [encounter_entry])] [encounter_entry] 2000
           (or_intror (conj eq_refl Hf))).
Defined.

(** X24 on a summary without age and gender. *)
Lemma clinical_summary_to_fhir_dangling_subject_witness :
  int_truthy (patient_age anonymous_summary) = false ∧
  opt_truthy (patient_gender anonymous_summary) = false ∧
  find_patient (bundle_entries anonymous_summary) = Ok None ∧
  Forall refers_to_patient (bundle_entries anonymous_summary).
Proof.
  split; [reflexivity|]. split; [reflexivity|].
  exact (clinical_summary_to_fhir_dangling_subject anonymous_summary
           eq_refl eq_refl).
Defined.

(** X25 on an answer in plain prose, with a decoder that is never asked. *)
Lemma parse_llm_response_falls_back_witness :
  accepts_defaults strict_ClinicalSummary ∧
  json_match "El paciente refiere cefalea." = None ∧
  _parse_llm_response (fun _ => None) strict_Symptom strict_ClinicalSummary
    "texto original" "El paciente refiere cefalea." 2000
  = Ok (mkClinicalSummary None None [] [] [] "El paciente refiere cefalea." 2000).
Proof.
  assert (Ha : accepts_defaults strict_ClinicalSummary) by (by intros s now).
  split; [exact Ha|]. split; [reflexivity|].
  exact (parse_llm_response_falls_back (fun _ => None) strict_Symptom
           strict_ClinicalSummary "texto original"
           "El paciente refiere cefalea." 2000 Ha I).
Defined.

(** X26 on an answer with two objects: the span covers both. *)
Lemma json_match_span_witness :
  json_match "ok {a} y {b} fin" = Some "{a} y {b}" ∧
  ∃ pre body post,
    "ok {a} y {b} fin" = pre +:+ ("{a} y {b}" +:+ post) ∧
    "{a} y {b}" = String open_brace body +:+ String close_brace "" ∧
    Forall (λ c, c ≠ open_brace) (list_ascii_of_string pre) ∧
    Forall (λ c, c ≠ close_brace) (list_ascii_of_string post).
Proof.
  split; [reflexivity|].
  exact (json_match_span "ok {a} y {b} fin" "{a} y {b}" eq_refl).
Defined.

End MoreExamples.
